(** * File-system system calls of the teaching kernel (sysfile.c)

    A shallow embedding of the system-call layer: the calls of sysfile.c
    are written in a small state-and-failure monad over an explicit kernel
    state, and the collaborators they call (inode cache, directory
    primitives, path resolver, log, file table) are modelled at their
    interface. *)

From Stdlib Require Import ZArith Lia String Ascii List Bool.
From stdpp Require Import base option list gmap strings.

Local Open Scope string_scope.
Local Open Scope list_scope.
Local Open Scope Z_scope.

(** ** Constants of the absent headers *)

(** Modelled from the spec: the inode kinds File, Directory and Device;
    their codes are declared in stat.h, which is not part of the sources
    at hand.  Code 0 marks a free inode. *)
Definition T_DIR : Z := 1.
Definition T_FILE : Z := 2.
Definition T_DEV : Z := 3.

(** Modelled from the spec: the access modes of open (fcntl.h). *)
Definition O_RDONLY : Z := 0.
Definition O_WRONLY : Z := 1.
Definition O_RDWR : Z := 2.
Definition O_CREATE : Z := 512.

(** Modelled from the spec: the per-process descriptor table has a fixed
    capacity (param.h); names in directory entries are bounded (fs.h). *)
Definition NOFILE : nat := 16.
Definition DIRSIZ : nat := 14.
Definition ROOTINO : nat := 1.

(** sizeof(struct dirent): a 2-byte inode number and DIRSIZ name bytes. *)
Definition DESZ : Z := 16.

(** Modelled from the spec: the bit of [flags] that is the symlink_flag. *)
Definition I_SYMLNK : Z := 4.

(** ** Machine integers *)

(** Conversion to a 16-bit signed [short] and to a 32-bit signed [int]. *)
Definition wrap16 (z : Z) : Z := (z + 32768) mod 65536 - 32768.
Definition wrap32 (z : Z) : Z := (z + 2147483648) mod 4294967296 - 2147483648.

Definition in_short (z : Z) : bool := (-32768 <=? z) && (z <=? 32767).

(** ** Strings as the C code uses them *)

(** [strlen] of a NUL-terminated string; the model keeps the characters
    before the NUL. *)
Definition strlen (s : string) : Z := Z.of_nat (String.length s).

Fixpoint strtake (n : nat) (s : string) : string :=
  match n, s with
  | S n', String c s' => String c (strtake n' s')
  | _, _ => EmptyString
  end.

(** [safestrcpy(dst, src, n)]: like strncpy but always NUL-terminates; for
    [n <= 0] the destination is left as it was. *)
Definition safestrcpy (dst src : string) (n : Z) : string :=
  if n <=? 0 then dst else strtake (Z.to_nat (n - 1)) src.

(** [namecmp] is strncmp over DIRSIZ bytes; [true] stands for a result of 0. *)
Definition namecmp (a b : string) : bool :=
  String.eqb (strtake DIRSIZ a) (strtake DIRSIZ b).

(** ** Data model *)

Record dirent := Dirent { de_inum : nat; de_name : string }.

(** memset(&de, 0, sizeof(de)) *)
Definition zero_dirent : dirent := Dirent 0 "".

(** The in-memory inode.  [i_addrs] is the block-address storage read as
    the inline target string of a symlink; [i_dents] is the content of a
    directory, one element per DESZ bytes; [i_tags] is the external tag
    store keyed by the inode. *)
Record inode := Inode {
  i_dev : Z;
  i_ref : nat;
  i_locked : bool;
  i_flags : Z;
  i_type : Z;
  i_major : Z;
  i_minor : Z;
  i_nlink : Z;
  i_size : Z;
  i_addrs : string;
  i_dents : list dirent;
  i_tags : list (string * string)
}.

Definition free_inode : inode :=
  Inode 0 0 false 0 0 0 0 0 0 "" [] [].

Definition set_ref (v : nat) (i : inode) : inode :=
  Inode (i_dev i) v (i_locked i) (i_flags i) (i_type i) (i_major i)
        (i_minor i) (i_nlink i) (i_size i) (i_addrs i) (i_dents i) (i_tags i).
Definition set_locked (v : bool) (i : inode) : inode :=
  Inode (i_dev i) (i_ref i) v (i_flags i) (i_type i) (i_major i)
        (i_minor i) (i_nlink i) (i_size i) (i_addrs i) (i_dents i) (i_tags i).
Definition set_flags (v : Z) (i : inode) : inode :=
  Inode (i_dev i) (i_ref i) (i_locked i) v (i_type i) (i_major i)
        (i_minor i) (i_nlink i) (i_size i) (i_addrs i) (i_dents i) (i_tags i).
Definition set_major (v : Z) (i : inode) : inode :=
  Inode (i_dev i) (i_ref i) (i_locked i) (i_flags i) (i_type i) v
        (i_minor i) (i_nlink i) (i_size i) (i_addrs i) (i_dents i) (i_tags i).
Definition set_minor (v : Z) (i : inode) : inode :=
  Inode (i_dev i) (i_ref i) (i_locked i) (i_flags i) (i_type i) (i_major i)
        v (i_nlink i) (i_size i) (i_addrs i) (i_dents i) (i_tags i).
Definition set_nlink (v : Z) (i : inode) : inode :=
  Inode (i_dev i) (i_ref i) (i_locked i) (i_flags i) (i_type i) (i_major i)
        (i_minor i) v (i_size i) (i_addrs i) (i_dents i) (i_tags i).
Definition set_size (v : Z) (i : inode) : inode :=
  Inode (i_dev i) (i_ref i) (i_locked i) (i_flags i) (i_type i) (i_major i)
        (i_minor i) (i_nlink i) v (i_addrs i) (i_dents i) (i_tags i).
Definition set_addrs (v : string) (i : inode) : inode :=
  Inode (i_dev i) (i_ref i) (i_locked i) (i_flags i) (i_type i) (i_major i)
        (i_minor i) (i_nlink i) (i_size i) v (i_dents i) (i_tags i).
Definition set_dents (v : list dirent) (i : inode) : inode :=
  Inode (i_dev i) (i_ref i) (i_locked i) (i_flags i) (i_type i) (i_major i)
        (i_minor i) (i_nlink i) (i_size i) (i_addrs i) v (i_tags i).
Definition set_tags (v : list (string * string)) (i : inode) : inode :=
  Inode (i_dev i) (i_ref i) (i_locked i) (i_flags i) (i_type i) (i_major i)
        (i_minor i) (i_nlink i) (i_size i) (i_addrs i) (i_dents i) v.

(** [ip->flags & I_SYMLNK] as a truth value. *)
Definition is_symlnk (i : inode) : bool :=
  negb (Z.land (i_flags i) I_SYMLNK =? 0).

(** The durable image of an inode, as [iupdate] writes it. *)
Record dinode := Dinode {
  d_type : Z; d_major : Z; d_minor : Z; d_nlink : Z; d_size : Z;
  d_addrs : string
}.

Definition dinode_of (i : inode) : dinode :=
  Dinode (i_type i) (i_major i) (i_minor i) (i_nlink i) (i_size i) (i_addrs i).

Inductive fdtype := FD_NONE | FD_PIPE | FD_INODE | FD_SYMLNK.

(** The open-file object; [f_ip] is the inode number it owns. *)
Record file := File {
  f_type : fdtype;
  f_ref : nat;
  f_readable : bool;
  f_writable : bool;
  f_ip : nat;
  f_off : Z
}.

(** What the calls ask of the log and of durable storage, in order. *)
Inductive event :=
| EvBegin
| EvCommit
| EvIalloc (inum : nat) (type : Z)
| EvIupdate (inum : nat) (d : dinode)
| EvDirWrite (dir : nat) (off : Z) (de : dirent)
| EvTag (inum : nat) (tags : list (string * string)).

(** The kernel state a system call runs on: the inode table (a missing
    number is a free inode), the file table, the descriptor table and the
    working directory of the calling process, and the log. *)
Record kernel := Kernel {
  icache : gmap nat inode;
  ninodes : nat;
  ftable : list file;
  ofile : list (option nat);
  cwd : nat;
  log_busy : bool;
  trace : list event
}.

Definition getino (s : kernel) (ip : nat) : inode :=
  default free_inode (icache s !! ip).

Definition with_icache (s : kernel) (c : gmap nat inode) : kernel :=
  Kernel c (ninodes s) (ftable s) (ofile s) (cwd s) (log_busy s) (trace s).
Definition with_ftable (s : kernel) (t : list file) : kernel :=
  Kernel (icache s) (ninodes s) t (ofile s) (cwd s) (log_busy s) (trace s).
Definition with_ofile (s : kernel) (o : list (option nat)) : kernel :=
  Kernel (icache s) (ninodes s) (ftable s) o (cwd s) (log_busy s) (trace s).
Definition with_log (s : kernel) (b : bool) (e : list event) : kernel :=
  Kernel (icache s) (ninodes s) (ftable s) (ofile s) (cwd s) b
         (trace s ++ e).

(** Store into the fields of the in-memory inode [ip]. *)
Definition imod (ip : nat) (f : inode -> inode) (s : kernel) : kernel :=
  with_icache s (<[ip := f (getino s ip)]> (icache s)).

Definition emit (e : event) (s : kernel) : kernel :=
  with_log s (log_busy s) [e].

(** ** The monad of kernel code *)

(** A call returns a value and a state, halts the system ([panic]), or
    sleeps on a lock that nobody will release. *)
Inductive result (A : Type) : Type :=
| Ok (a : A) (s : kernel)
| Panic (msg : string)
| Blocked.
Arguments Ok {A} a s.
Arguments Panic {A} msg.
Arguments Blocked {A}.

Definition M (A : Type) : Type := kernel -> result A.

Definition ret {A} (a : A) : M A := fun s => Ok a s.
Definition bind {A B} (m : M A) (k : A -> M B) : M B :=
  fun s => match m s with
           | Ok a s' => k a s'
           | Panic msg => Panic msg
           | Blocked => Blocked
           end.
Definition panic {A} (msg : string) : M A := fun _ => Panic msg.
Definition gets {A} (f : kernel -> A) : M A := fun s => Ok (f s) s.
Definition modify (f : kernel -> kernel) : M unit := fun s => Ok tt (f s).

Declare Scope kernel_scope.
Delimit Scope kernel_scope with kernel.
Notation "x <- m ;; k" := (bind m (fun x => k))
  (at level 100, m at next level, right associativity) : kernel_scope.
Notation "m ;; k" := (bind m (fun _ => k))
  (at level 100, right associativity) : kernel_scope.
Local Open Scope kernel_scope.

(** ** The collaborators of the system-call layer *)

(** Modelled from the spec: lock(inode), unlock(inode), release(inode)
    (reference-count drop) and unlock_and_release(inode) of the inode layer
    (fs.c, not part of the sources at hand).  Taking a reference is [iget];
    the reclaim of an unreferenced inode without links is the allocator's
    business and is not modelled. *)
Definition iget (ip : nat) (s : kernel) : kernel :=
  imod ip (fun i => set_ref (S (i_ref i)) i) s.

Definition ilock (ip : nat) : M unit := fun s =>
  let i := getino s ip in
  if (i_ref i =? 0)%nat then Panic "ilock"
  else if i_locked i then Blocked
  else if i_type i =? 0 then Panic "ilock: no type"
  else Ok tt (imod ip (set_locked true) s).

Definition iunlock (ip : nat) : M unit := fun s =>
  let i := getino s ip in
  if negb (i_locked i) || (i_ref i =? 0)%nat then Panic "iunlock"
  else Ok tt (imod ip (set_locked false) s).

Definition iput (ip : nat) : M unit :=
  modify (imod ip (fun i => set_ref (Nat.pred (i_ref i)) i)).

Definition iunlockput (ip : nat) : M unit :=
  iunlock ip ;; iput ip.

(** Modelled from the spec: persist(inode) writes the durable image of the
    in-memory inode. *)
Definition iupdate (ip : nat) : M unit := fun s =>
  Ok tt (emit (EvIupdate ip (dinode_of (getino s ip))) s).

(** Modelled from the spec: begin_transaction() and commit_transaction();
    the bracket is not reentrant, a second begin waits for the commit. *)
Definition begin_trans : M unit := fun s =>
  if log_busy s then Blocked else Ok tt (with_log s true [EvBegin]).

Definition commit_trans : M unit := fun s =>
  Ok tt (with_log s false [EvCommit]).

(** Modelled from the spec: lookup_entry(dir_inode, name) gives the inode
    number and the byte offset of the first entry in use with that name. *)
Fixpoint dirscan (name : string) (off : Z) (des : list dirent)
  : option (nat * Z) :=
  match des with
  | [] => None
  | de :: rest =>
      if negb (de_inum de =? 0)%nat && namecmp name (de_name de)
      then Some (de_inum de, off)
      else dirscan name (off + DESZ) rest
  end.

Definition dirfind (d : inode) (name : string) : option (nat * Z) :=
  dirscan name 0 (i_dents d).

Definition dirlookup (dp : nat) (name : string) : M (option (nat * Z)) :=
  fun s =>
    if negb (i_type (getino s dp) =? T_DIR) then Panic "dirlookup not DIR"
    else match dirfind (getino s dp) name with
         | Some (inum, off) => Ok (Some (inum, off)) (iget inum s)
         | None => Ok None s
         end.

(** Modelled from the spec: read_bytes and write_bytes, for the one use the
    calls make of them: a directory entry at a byte offset.  A read gives
    the number of bytes read (short at the end of the content, -1 past it)
    and the entry; a write past the end of the content fails, a write at
    the end extends the content and persists the new size. *)
Definition readi_de (d : inode) (off : Z) : Z * dirent :=
  if (off <? 0) || (i_size d <? off) then (-1, zero_dirent)
  else (Z.min DESZ (i_size d - off),
        nth (Z.to_nat (off / DESZ)) (i_dents d) zero_dirent).

Definition put_dent (idx : nat) (de : dirent) (l : list dirent)
  : list dirent :=
  if (idx <? length l)%nat then <[idx := de]> l else l ++ [de].

Definition writei_de (dp : nat) (off : Z) (de : dirent) : M Z := fun s =>
  let d := getino s dp in
  if (off <? 0) || (i_size d <? off) then Ok (-1) s
  else
    let idx := Z.to_nat (off / DESZ) in
    let s1 := emit (EvDirWrite dp off de)
                (imod dp (set_dents (put_dent idx de (i_dents d))) s) in
    if i_size d <? off + DESZ
    then bind (modify (imod dp (set_size (off + DESZ))))
              (fun _ => bind (iupdate dp) (fun _ => ret DESZ)) s1
    else Ok DESZ s1.

(** Modelled from the spec: insert_entry(dir_inode, name, inode_number)
    fails when the name is present, and otherwise writes the entry into
    the first free slot or at the end of the content. *)
Fixpoint free_slot (des : list dirent) : nat :=
  match des with
  | [] => 0%nat
  | de :: rest => if (de_inum de =? 0)%nat then 0%nat else S (free_slot rest)
  end.

Definition dirlink (dp : nat) (name : string) (inum : nat) : M Z :=
  r <- dirlookup dp name ;;
  match r with
  | Some (ip, _) => iput ip ;; ret (-1)
  | None =>
      d <- gets (fun s => getino s dp) ;;
      let off := DESZ * Z.of_nat (free_slot (i_dents d)) in
      n <- writei_de dp off (Dirent inum (strtake DIRSIZ name)) ;;
      if n =? DESZ then ret 0 else panic "dirlink"
  end.

(** Modelled from the spec: allocate_inode(device, kind) takes the first
    free inode number, marks it with the kind, and returns a reference to
    it; none when no number is free. *)
Definition fresh_inode (dev type : Z) (i : inode) : inode :=
  Inode dev (i_ref i) (i_locked i) 0 type 0 0 0 0 "" [] [].

Definition first_free (s : kernel) : option nat :=
  find (fun n => i_type (getino s n) =? 0) (seq 1 (Nat.pred (ninodes s))).

Definition ialloc (dev type : Z) : M (option nat) := fun s =>
  match first_free s with
  | Some inum =>
      Ok (Some inum)
         (iget inum (emit (EvIalloc inum type)
                          (imod inum (fresh_inode dev type) s)))
  | None => Ok None s
  end.

(** Modelled from the spec: resolve_path(path) and resolve_parent(path).
    A path is cut at its slashes into names of at most DIRSIZ bytes; the
    walk starts at the root for a path with a leading slash and at the
    working directory otherwise, and steps through directories only. *)
Fixpoint path_split (p : string) (cur : string) : list string :=
  match p with
  | EmptyString => if String.eqb cur "" then [] else [cur]
  | String c p' =>
      if Ascii.eqb c "/"%char
      then if String.eqb cur "" then path_split p' ""
           else cur :: path_split p' ""
      else path_split p' (cur ++ String c EmptyString)%string
  end.

Definition path_elems (p : string) : list string :=
  map (strtake DIRSIZ) (path_split p "").

Definition path_start (s : kernel) (p : string) : nat :=
  match p with
  | String c _ => if Ascii.eqb c "/"%char then ROOTINO else cwd s
  | EmptyString => cwd s
  end.

Fixpoint walk (s : kernel) (ip : nat) (elems : list string) : option nat :=
  match elems with
  | [] => Some ip
  | name :: rest =>
      if i_type (getino s ip) =? T_DIR
      then match dirfind (getino s ip) name with
           | Some (next, _) => walk s next rest
           | None => None
           end
      else None
  end.

Fixpoint unsnoc {A} (l : list A) : option (list A * A) :=
  match l with
  | [] => None
  | x :: l' =>
      match unsnoc l' with
      | None => Some ([], x)
      | Some (init, z) => Some (x :: init, z)
      end
  end.

Definition resolve (s : kernel) (p : string) : option nat :=
  walk s (path_start s p) (path_elems p).

Definition resolve_parent (s : kernel) (p : string) : option (nat * string) :=
  match unsnoc (path_elems p) with
  | None => None
  | Some (init, name) =>
      match walk s (path_start s p) init with
      | Some dp =>
          if i_type (getino s dp) =? T_DIR then Some (dp, name) else None
      | None => None
      end
  end.

Definition namei (p : string) : M (option nat) := fun s =>
  match resolve s p with
  | Some ip => Ok (Some ip) (iget ip s)
  | None => Ok None s
  end.

Definition nameiparent (p : string) : M (option (nat * string)) := fun s =>
  match resolve_parent s p with
  | Some (dp, name) => Ok (Some (dp, name)) (iget dp s)
  | None => Ok None s
  end.

(** Modelled from the spec: allocate_open_file() takes the first
    unreferenced slot of the file table; close(open-file object) drops a
    reference and, with the last one, the inode reference of an
    inode-backed object. *)
Definition file_with_ref (n : nat) (f : file) : file :=
  File (f_type f) n (f_readable f) (f_writable f) (f_ip f) (f_off f).

Definition filealloc : M (option nat) := fun s =>
  match list_find (fun f => f_ref f = 0%nat) (ftable s) with
  | Some (idx, f) =>
      Ok (Some idx) (with_ftable s (<[idx := file_with_ref 1 f]> (ftable s)))
  | None => Ok None s
  end.

Definition fileclose (f : nat) : M unit := fun s =>
  match ftable s !! f with
  | None => Panic "fileclose"
  | Some fl =>
      match f_ref fl with
      | O => Panic "fileclose"
      | S O =>
          let s1 := with_ftable s
                      (<[f := File FD_NONE 0 (f_readable fl) (f_writable fl)
                                   (f_ip fl) (f_off fl)]> (ftable s)) in
          match f_type fl with
          | FD_INODE => iput (f_ip fl) s1
          | _ => Ok tt s1
          end
      | S n => Ok tt (with_ftable s (<[f := file_with_ref n fl]> (ftable s)))
      end
  end.

(** Modelled from the spec: set_tag_store, clear_tag_store and
    get_tag_store: a key-value store attached to the inode of an
    inode-backed open file; the status is 0 or -1. *)
Fixpoint tag_remove (key : string) (t : list (string * string))
  : list (string * string) :=
  match t with
  | [] => []
  | (k, v) :: t' =>
      if String.eqb k key then tag_remove key t' else (k, v) :: tag_remove key t'
  end.

Fixpoint tag_find (key : string) (t : list (string * string))
  : option string :=
  match t with
  | [] => None
  | (k, v) :: t' => if String.eqb k key then Some v else tag_find key t'
  end.

Definition tag_inode (f : nat) (s : kernel) : option nat :=
  match ftable s !! f with
  | Some fl => match f_type fl with FD_INODE => Some (f_ip fl) | _ => None end
  | None => None
  end.

Definition fs_ftag (f : nat) (key val : string) : M Z := fun s =>
  match tag_inode f s with
  | Some ip =>
      let t := (key, val) :: tag_remove key (i_tags (getino s ip)) in
      Ok 0 (emit (EvTag ip t) (imod ip (set_tags t) s))
  | None => Ok (-1) s
  end.

Definition fs_funtag (f : nat) (key : string) : M Z := fun s =>
  match tag_inode f s with
  | Some ip =>
      match tag_find key (i_tags (getino s ip)) with
      | Some _ =>
          let t := tag_remove key (i_tags (getino s ip)) in
          Ok 0 (emit (EvTag ip t) (imod ip (set_tags t) s))
      | None => Ok (-1) s
      end
  | None => Ok (-1) s
  end.

Definition fs_gettag (f : nat) (key buf : string) : M (Z * string) := fun s =>
  match tag_inode f s with
  | Some ip =>
      match tag_find key (i_tags (getino s ip)) with
      | Some v => Ok (strlen v, v) s
      | None => Ok (-1, buf) s
      end
  | None => Ok (-1, buf) s
  end.

(** ** The system calls of sysfile.c *)

(** An argument fetched from the calling process is [None] when the fetch
    helper (argint, argstr) reports a bad address. *)

(** [argfd]: the nth argument as a descriptor and its open file. *)
Definition argfd (a : option Z) : M (option (nat * nat)) := fun s =>
  match a with
  | None => Ok None s
  | Some fd =>
      if (fd <? 0) || (Z.of_nat NOFILE <=? fd) then Ok None s
      else match ofile s !! Z.to_nat fd with
           | Some (Some f) => Ok (Some (Z.to_nat fd, f)) s
           | _ => Ok None s
           end
  end.

(** [fdalloc]: the first free slot of the descriptor table, or -1. *)
Definition fdalloc (f : nat) : M Z := fun s =>
  match list_find (fun o => o = None) (take NOFILE (ofile s)) with
  | Some (fd, _) => Ok (Z.of_nat fd) (with_ofile s (<[fd := Some f]> (ofile s)))
  | None => Ok (-1) s
  end.

Definition nlink_inc (i : inode) : inode := set_nlink (wrap16 (i_nlink i + 1)) i.
Definition nlink_dec (i : inode) : inode := set_nlink (wrap16 (i_nlink i - 1)) i.

(** The label [bad] of sys_link. *)
Definition link_bad (ip : nat) : M Z :=
  ilock ip ;;
  modify (imod ip nlink_dec) ;;
  iupdate ip ;;
  iunlockput ip ;;
  commit_trans ;;
  ret (-1).

Definition sys_link (old new : option string) : M Z :=
  match old, new with
  | Some old, Some new =>
      r <- namei old ;;
      match r with
      | None => ret (-1)
      | Some ip =>
          begin_trans ;;
          ilock ip ;;
          i <- gets (fun s => getino s ip) ;;
          if i_type i =? T_DIR then
            iunlockput ip ;;
            commit_trans ;;
            ret (-1)
          else
            modify (imod ip nlink_inc) ;;
            iupdate ip ;;
            iunlock ip ;;
            r <- nameiparent new ;;
            match r with
            | None => link_bad ip
            | Some (dp, name) =>
                ilock dp ;;
                d <- gets (fun s => getino s dp) ;;
                i <- gets (fun s => getino s ip) ;;
                if negb (i_dev d =? i_dev i) then
                  iunlockput dp ;; link_bad ip
                else
                  n <- dirlink dp name ip ;;
                  if n <? 0 then
                    iunlockput dp ;; link_bad ip
                  else
                    iunlockput dp ;;
                    iput ip ;;
                    commit_trans ;;
                    ret 0
            end
      end
  | _, _ => ret (-1)
  end.

(** [isdirempty]: the loop over the offsets past the two reserved slots;
    [fuel] bounds the number of iterations. *)
Fixpoint isdirempty_from (fuel : nat) (d : inode) (off : Z) : M Z :=
  match fuel with
  | O => fun _ => Blocked
  | S fuel' =>
      if off <? i_size d then
        let '(n, de) := readi_de d off in
        if negb (n =? DESZ) then panic "isdirempty: readi"
        else if negb (de_inum de =? 0)%nat then ret 0
        else isdirempty_from fuel' d (off + DESZ)
      else ret 1
  end.

Definition isdirempty (dp : nat) : M Z :=
  d <- gets (fun s => getino s dp) ;;
  isdirempty_from (S (Z.to_nat (i_size d))) d (2 * DESZ).

(** The label [bad] of sys_unlink. *)
Definition unlink_bad (dp : nat) : M Z :=
  iunlockput dp ;;
  commit_trans ;;
  ret (-1).

Definition sys_unlink (path : option string) : M Z :=
  match path with
  | None => ret (-1)
  | Some path =>
      r <- nameiparent path ;;
      match r with
      | None => ret (-1)
      | Some (dp, name) =>
          begin_trans ;;
          ilock dp ;;
          if namecmp name "." || namecmp name ".." then unlink_bad dp
          else
            r <- dirlookup dp name ;;
            match r with
            | None => unlink_bad dp
            | Some (ip, off) =>
                ilock ip ;;
                i <- gets (fun s => getino s ip) ;;
                if i_nlink i <? 1 then panic "unlink: nlink < 1"
                else
                  e <- (if i_type i =? T_DIR then isdirempty ip else ret 1) ;;
                  if (i_type i =? T_DIR) && (e =? 0) then
                    iunlockput ip ;; unlink_bad dp
                  else
                    n <- writei_de dp off zero_dirent ;;
                    if negb (n =? DESZ) then panic "unlink: writei"
                    else
                      i <- gets (fun s => getino s ip) ;;
                      (if i_type i =? T_DIR then
                         modify (imod dp nlink_dec) ;;
                         iupdate dp
                       else ret tt) ;;
                      iunlockput dp ;;
                      modify (imod ip nlink_dec) ;;
                      iupdate ip ;;
                      iunlockput ip ;;
                      commit_trans ;;
                      ret 0
            end
      end
  end.

(** [create]: [None] stands for the null inode pointer. *)
Definition create (path : string) (type major minor : Z) : M (option nat) :=
  r <- nameiparent path ;;
  match r with
  | None => ret None
  | Some (dp, name) =>
      ilock dp ;;
      r <- dirlookup dp name ;;
      match r with
      | Some (ip, _) =>
          iunlockput dp ;;
          ilock ip ;;
          i <- gets (fun s => getino s ip) ;;
          if (type =? T_FILE) && (i_type i =? T_FILE) then ret (Some ip)
          else
            iunlockput ip ;;
            ret None
      | None =>
          d <- gets (fun s => getino s dp) ;;
          r <- ialloc (i_dev d) type ;;
          match r with
          | None => panic "create: ialloc"
          | Some ip =>
              ilock ip ;;
              modify (imod ip (fun i =>
                        set_nlink 1 (set_minor minor (set_major major i)))) ;;
              iupdate ip ;;
              (if type =? T_DIR then
                 modify (imod dp nlink_inc) ;;
                 iupdate dp ;;
                 n1 <- dirlink ip "." ip ;;
                 if n1 <? 0 then panic "create dots"
                 else
                   n2 <- dirlink ip ".." dp ;;
                   if n2 <? 0 then panic "create dots" else ret tt
               else ret tt) ;;
              n <- dirlink dp name ip ;;
              if n <? 0 then panic "create: dirlink"
              else
                iunlockput dp ;;
                ret (Some ip)
          end
      end
  end.

(** How a chain-following loop of at most 16 rounds ends: by [break] with
    the inode at hand, by a [return] from inside the loop, or with the
    counter at 16. *)
Inductive loop_exit :=
| Broke (ip : nat)
| Returned (v : Z)
| RanOut (ip : nat).

(** The loop of sys_open; [n] is the number of rounds left, 16 - i. *)
Fixpoint open_symloop (n : nat) (ip : nat) : M loop_exit :=
  match n with
  | O => ret (RanOut ip)
  | S n' =>
      i <- gets (fun s => getino s ip) ;;
      if is_symlnk i then
        r <- namei (i_addrs i) ;;
        match r with
        | None => iunlock ip ;; ret (Returned (-1))
        | Some sym_ip =>
            iunlock ip ;;
            ilock sym_ip ;;
            open_symloop n' sym_ip
        end
      else ret (Broke ip)
  end.

Definition open_file (omode : Z) (ip : nat) (f : file) : file :=
  File FD_INODE (f_ref f)
       (Z.land omode O_WRONLY =? 0)
       (negb (Z.land omode O_WRONLY =? 0) || negb (Z.land omode O_RDWR =? 0))
       ip 0.

(** sys_open from the chain-following loop on. *)
Definition open_rest (omode : Z) (ip : nat) : M Z :=
  x <- open_symloop 16 ip ;;
  match x with
  | Returned v => ret v
  | RanOut _ => panic "symbolic link exceeds 16 links "
  | Broke ip =>
      r <- filealloc ;;
      match r with
      | None => iunlockput ip ;; ret (-1)
      | Some f =>
          fd <- fdalloc f ;;
          if fd <? 0 then
            fileclose f ;;
            iunlockput ip ;;
            ret (-1)
          else
            iunlock ip ;;
            modify (fun s => with_ftable s
                      (alter (open_file omode ip) f (ftable s))) ;;
            ret fd
      end
  end.

Definition sys_open (path : option string) (omode : option Z) : M Z :=
  match path, omode with
  | Some path, Some omode =>
      if negb (Z.land omode O_CREATE =? 0) then
        begin_trans ;;
        r <- create path T_FILE 0 0 ;;
        commit_trans ;;
        match r with
        | None => ret (-1)
        | Some ip => open_rest omode ip
        end
      else
        r <- namei path ;;
        match r with
        | None => ret (-1)
        | Some ip =>
            ilock ip ;;
            i <- gets (fun s => getino s ip) ;;
            if (i_type i =? T_DIR) && negb (omode =? O_RDONLY) then
              iunlockput ip ;;
              ret (-1)
            else open_rest omode ip
        end
  | _, _ => ret (-1)
  end.

Definition sys_mkdir (path : option string) : M Z :=
  begin_trans ;;
  match path with
  | None => commit_trans ;; ret (-1)
  | Some path =>
      r <- create path T_DIR 0 0 ;;
      match r with
      | None => commit_trans ;; ret (-1)
      | Some ip =>
          iunlockput ip ;;
          commit_trans ;;
          ret 0
      end
  end.

Definition sys_mknod (path : option string) (major minor : option Z) : M Z :=
  begin_trans ;;
  match path, major, minor with
  | Some path, Some major, Some minor =>
      r <- create path T_DEV (wrap16 major) (wrap16 minor) ;;
      match r with
      | None => commit_trans ;; ret (-1)
      | Some ip =>
          iunlockput ip ;;
          commit_trans ;;
          ret 0
      end
  | _, _, _ => commit_trans ;; ret (-1)
  end.

Definition symlink_file (ip : nat) (f : file) : file :=
  File FD_SYMLNK (f_ref f) true false ip 0.

(** sys_symlink; [MAX_LNK_NAME] is the capacity of the inline buffer, a
    constant of a header that is not part of the sources at hand. *)
Definition sys_symlink (MAX_LNK_NAME : Z) (target path : option string)
  : M Z :=
  match target, path with
  | Some target, Some path =>
      begin_trans ;;
      r <- create path T_FILE 0 0 ;;
      commit_trans ;;
      match r with
      | None => ret (-1)
      | Some ip =>
          r <- filealloc ;;
          match r with
          | None => iunlockput ip ;; ret (-1)
          | Some f =>
              if MAX_LNK_NAME <? strlen target
              then panic "target soft link path is too long "
              else
                modify (imod ip (fun i =>
                  set_size 0
                    (set_flags (Z.lor (i_flags i) I_SYMLNK)
                       (set_addrs
                          (safestrcpy (i_addrs i) target MAX_LNK_NAME) i)))) ;;
                iunlock ip ;;
                modify (fun s => with_ftable s
                          (alter (symlink_file ip) f (ftable s))) ;;
                ret 0
          end
      end
  | _, _ => ret (-1)
  end.

(** The loop of sys_readlink. *)
Fixpoint readlink_loop (n : nat) (ip : nat) : M loop_exit :=
  match n with
  | O => ret (RanOut ip)
  | S n' =>
      i <- gets (fun s => getino s ip) ;;
      r <- namei (i_addrs i) ;;
      match r with
      | None => iunlock ip ;; ret (Returned (-2))
      | Some sym_ip =>
          si <- gets (fun s => getino s sym_ip) ;;
          if is_symlnk si then
            iunlock ip ;;
            ilock sym_ip ;;
            readlink_loop n' sym_ip
          else ret (Broke ip)
      end
  end.

(** sys_readlink gives the returned integer and the content of the
    caller's buffer after the call. *)
Definition sys_readlink (path buf : option string) (bufsiz : option Z)
  : M (Z * string) :=
  match path, buf, bufsiz with
  | Some path, Some buf, Some bufsiz =>
      r <- namei path ;;
      match r with
      | None => ret (-1, buf)
      | Some ip =>
          ilock ip ;;
          i <- gets (fun s => getino s ip) ;;
          if negb (is_symlnk i) then
            iunlock ip ;;
            ret (-1, buf)
          else
            x <- readlink_loop 16 ip ;;
            match x with
            | Returned v => ret (v, buf)
            | RanOut _ => panic "symbolic link exceeds 16 links "
            | Broke ip =>
                i <- gets (fun s => getino s ip) ;;
                if (i_type i =? T_FILE) && is_symlnk i then
                  let buf' := safestrcpy buf (i_addrs i) bufsiz in
                  iunlock ip ;;
                  ret (strlen buf', buf')
                else
                  iunlock ip ;;
                  ret (-1, buf)
            end
      end
  | _, _, _ => ret (-1, default "" buf)
  end.

Definition sys_ftag (fd : option Z) (key val : option string) : M Z :=
  a <- argfd fd ;;
  match a, key, val with
  | Some (_, f), Some key, Some val =>
      begin_trans ;;
      r <- fs_ftag f key val ;;
      commit_trans ;;
      ret r
  | _, _, _ => ret (-1)
  end.

Definition sys_funtag (fd : option Z) (key : option string) : M Z :=
  a <- argfd fd ;;
  match a, key with
  | Some (_, f), Some key =>
      begin_trans ;;
      r <- fs_funtag f key ;;
      commit_trans ;;
      ret r
  | _, _ => ret (-1)
  end.

Definition sys_gettag (fd : option Z) (key buf : option string)
  : M (Z * string) :=
  a <- argfd fd ;;
  match a, key, buf with
  | Some (_, f), Some key, Some buf =>
      begin_trans ;;
      r <- fs_gettag f key buf ;;
      commit_trans ;;
      ret r
  | _, _, _ => ret (-1, default "" buf)
  end.

(** ** The descriptor calls, chdir, exec and pipe *)

(** Modelled from the spec: duplicate_reference(open-file object) adds one
    reference to an open-file object that is in use. *)
Definition filedup (f : nat) : M unit := fun s =>
  match ftable s !! f with
  | None => Panic "filedup"
  | Some fl =>
      if (f_ref fl <? 1)%nat then Panic "filedup"
      else Ok tt (with_ftable s
                    (<[f := file_with_ref (S (f_ref fl)) fl]> (ftable s)))
  end.

Definition sys_dup (fd : option Z) : M Z :=
  a <- argfd fd ;;
  match a with
  | None => ret (-1)
  | Some (_, f) =>
      fd' <- fdalloc f ;;
      if fd' <? 0 then ret (-1)
      else
        filedup f ;;
        ret fd'
  end.

Definition sys_close (fd : option Z) : M Z :=
  a <- argfd fd ;;
  match a with
  | None => ret (-1)
  | Some (fd, f) =>
      modify (fun s => with_ofile s (<[fd := None]> (ofile s))) ;;
      fileclose f ;;
      ret 0
  end.

(** The loop of k_readlink: the loop of sys_readlink, with -1 for a link
    whose target does not resolve. *)
Fixpoint k_readlink_loop (n : nat) (ip : nat) : M loop_exit :=
  match n with
  | O => ret (RanOut ip)
  | S n' =>
      i <- gets (fun s => getino s ip) ;;
      r <- namei (i_addrs i) ;;
      match r with
      | None => iunlock ip ;; ret (Returned (-1))
      | Some sym_ip =>
          si <- gets (fun s => getino s sym_ip) ;;
          if is_symlnk si then
            iunlock ip ;;
            ilock sym_ip ;;
            k_readlink_loop n' sym_ip
          else ret (Broke ip)
      end
  end.

(** k_readlink gives the returned integer and the content of the buffer
    after the call. *)
Definition k_readlink (path buf : string) (bufsiz : Z) : M (Z * string) :=
  r <- namei path ;;
  match r with
  | None => ret (-1, buf)
  | Some ip =>
      ilock ip ;;
      i <- gets (fun s => getino s ip) ;;
      if negb (is_symlnk i) then
        iunlock ip ;;
        ret (-1, buf)
      else
        x <- k_readlink_loop 16 ip ;;
        match x with
        | Returned v => ret (v, buf)
        | RanOut _ => panic "symbolic link exceeds 16 links "
        | Broke ip =>
            i <- gets (fun s => getino s ip) ;;
            if (i_type i =? T_FILE) && is_symlnk i then
              let buf' := safestrcpy buf (i_addrs i) bufsiz in
              iunlock ip ;;
              ret (strlen buf', buf')
            else
              iunlock ip ;;
              ret (-1, buf)
        end
  end.

Definition with_cwd (s : kernel) (c : nat) : kernel :=
  Kernel (icache s) (ninodes s) (ftable s) (ofile s) c (log_busy s) (trace s).

(** sys_chdir; [sym_path] is what the buffer on the stack holds when the
    call starts, and [MAX_LNK_NAME] its capacity. *)
Definition sys_chdir (MAX_LNK_NAME : Z) (sym_path : string)
    (path : option string) : M Z :=
  match path with
  | None => ret (-1)
  | Some path =>
      x <- k_readlink path sym_path MAX_LNK_NAME ;;
      r <- (if negb (fst x =? -1) then namei (snd x) else namei path) ;;
      match r with
      | None => ret (-1)
      | Some ip =>
          ilock ip ;;
          i <- gets (fun s => getino s ip) ;;
          if negb (i_type i =? T_DIR) then
            iunlockput ip ;;
            ret (-1)
          else
            iunlock ip ;;
            c <- gets cwd ;;
            iput c ;;
            modify (fun s => with_cwd s ip) ;;
            ret 0
      end
  end.

(** Conversion to a 32-bit unsigned [uint]. *)
Definition wrapu32 (z : Z) : Z := z mod 4294967296.

Section Exec.

(** The helpers that read the memory of the calling process (a bad
    address is [None]) and the program loader; they are not part of the
    sources at hand.  [MAXARG] is the capacity of the argument vector. *)
Variable fetchint : Z -> option Z.
Variable fetchstr : Z -> option string.
Variable exec : string -> list string -> M Z.
Variable MAXARG : nat.

(** The loop of sys_exec from the index [i] on; [n] is the number of slots
    of argv that are left, [argv] holds the strings fetched so far. *)
Fixpoint exec_args (n : nat) (i : Z) (uargv : Z) (argv : list string)
  : option (list string) :=
  match n with
  | O => None
  | S n' =>
      match fetchint (wrapu32 (uargv + 4 * i)) with
      | None => None
      | Some uarg =>
          if uarg =? 0 then Some argv
          else match fetchstr uarg with
               | None => None
               | Some str => exec_args n' (i + 1) uargv (argv ++ [str])
               end
      end
  end.

Definition sys_exec (path : option string) (uargv : option Z) : M Z :=
  match path, uargv with
  | Some path, Some uargv =>
      match exec_args MAXARG 0 uargv [] with
      | None => ret (-1)
      | Some argv => exec path argv
      end
  | _, _ => ret (-1)
  end.

End Exec.

(** Modelled from the spec: allocate_pipe() gives a read end and a write
    end, two open-file objects of the pipe kind, or fails and keeps
    neither. *)
Definition pipe_end (readable : bool) (f : file) : file :=
  File FD_PIPE (f_ref f) readable (negb readable) (f_ip f) (f_off f).

Definition pipealloc : M (option (nat * nat)) :=
  r0 <- filealloc ;;
  match r0 with
  | None => ret None
  | Some f0 =>
      r1 <- filealloc ;;
      match r1 with
      | None => fileclose f0 ;; ret None
      | Some f1 =>
          modify (fun s => with_ftable s
                    (alter (pipe_end false) f1
                       (alter (pipe_end true) f0 (ftable s)))) ;;
          ret (Some (f0, f1))
      end
  end.

(** sys_pipe; [fd] is the content of the two-element array of the caller,
    [None] for a bad address; the call gives the returned integer and the
    content of the array after the call. *)
Definition sys_pipe (fd : option (Z * Z)) : M (Z * option (Z * Z)) :=
  match fd with
  | None => ret (-1, None)
  | Some _ =>
      r <- pipealloc ;;
      match r with
      | None => ret (-1, fd)
      | Some (rf, wf) =>
          fd0 <- fdalloc rf ;;
          if fd0 <? 0 then
            fileclose rf ;;
            fileclose wf ;;
            ret (-1, fd)
          else
            fd1 <- fdalloc wf ;;
            if fd1 <? 0 then
              modify (fun s =>
                        with_ofile s (<[Z.to_nat fd0 := None]> (ofile s))) ;;
              fileclose rf ;;
              fileclose wf ;;
              ret (-1, fd)
            else ret (0, Some (fd0, fd1))
      end
  end.

(** ** Predicates of the statements *)

(** The events of a call that open or close the transaction bracket. *)
Definition is_txn (e : event) : bool :=
  match e with EvBegin | EvCommit => true | _ => false end.

(** The view of an inode that the references and the lock do not touch. *)
Definition strip (i : inode) : inode := set_ref 0 (set_locked false i).

(** Relations between the state before and the state after a step. *)

(** Nothing is asked of the log. *)
Definition R_silent (s s' : kernel) : Prop :=
  log_busy s' = log_busy s /\ trace s' = trace s.

(** The bracket stays as it is; durable writes may happen. *)
Definition R_quiet (s s' : kernel) : Prop :=
  log_busy s' = log_busy s /\
  exists mid, trace s' = trace s ++ mid /\ Forall (fun e => is_txn e = false) mid.

(** Only reference counts and locks of inodes change. *)
Definition R_static (s s' : kernel) : Prop :=
  cwd s' = cwd s /\ forall j, strip (getino s' j) = strip (getino s j).

(** [preserves R m]: every run of [m] that returns relates its two states
    by [R]. *)
Definition preserves {A} (R : kernel -> kernel -> Prop) (m : M A) : Prop :=
  forall s a s', m s = Ok a s' -> R s s'.

(** [closes m]: every run of [m] that returns has committed exactly once,
    as its last event, and has begun no transaction. *)
Definition closes {A} (m : M A) : Prop :=
  forall s a s', m s = Ok a s' ->
    log_busy s' = false /\
    exists mid, trace s' = trace s ++ mid ++ [EvCommit] /\
                Forall (fun e => is_txn e = false) mid.

(** One transaction: the bracket is closed at the end of the call, and the
    events of the call are one begin, durable writes, and one commit as the
    last event. *)
Definition one_txn (s s' : kernel) : Prop :=
  log_busy s' = false /\
  exists mid, trace s' = trace s ++ EvBegin :: mid ++ [EvCommit] /\
              Forall (fun e => is_txn e = false) mid.

(** No transaction: nothing is asked of the log. *)
Definition no_txn (s s' : kernel) : Prop :=
  log_busy s' = false /\ trace s' = trace s.

(** [opens_one m]: started with no transaction open, every run of [m]
    that returns has opened and committed one transaction. *)
Definition opens_one {A} (m : M A) : Prop :=
  forall s a s', log_busy s = false -> m s = Ok a s' -> one_txn s s'.

(** The fetch helper gave the argument; also: the lookup gave an inode. *)
Definition fetched {A} (o : option A) : bool :=
  match o with Some _ => true | None => false end.

(** The descriptor test of argfd: in range, and the slot holds a file. *)
Definition fd_open (s : kernel) (fd : option Z) : bool :=
  match fd with
  | Some z =>
      (0 <=? z) && (z <? Z.of_nat NOFILE) &&
      match ofile s !! Z.to_nat z with Some (Some _) => true | _ => false end
  | None => false
  end.

(** The entry validation of a call: the tests it makes before its
    begin_trans.  sys_link fetches both paths and resolves the old one,
    sys_unlink fetches the path and resolves its parent, sys_symlink
    fetches both strings, the tag calls check the descriptor and fetch
    their strings; sys_open begins a transaction when both arguments are
    fetched and the mode has the CREATE flag. *)
Definition link_valid (s : kernel) (old new : option string) : bool :=
  match old, new with
  | Some o, Some _ => fetched (resolve s o)
  | _, _ => false
  end.

Definition unlink_valid (s : kernel) (path : option string) : bool :=
  match path with
  | Some p => fetched (resolve_parent s p)
  | None => false
  end.

Definition open_creates (path : option string) (omode : option Z) : bool :=
  match path, omode with
  | Some _, Some m => negb (Z.land m O_CREATE =? 0)
  | _, _ => false
  end.

Definition symlink_valid (target path : option string) : bool :=
  fetched target && fetched path.

Definition ftag_valid (s : kernel) (fd : option Z) (key val : option string)
  : bool :=
  fd_open s fd && fetched key && fetched val.

Definition funtag_valid (s : kernel) (fd : option Z) (key : option string)
  : bool :=
  fd_open s fd && fetched key.

(** The state after a begin and a commit with nothing in between. *)
Definition begin_commit (s : kernel) : kernel :=
  with_log (with_log s true [EvBegin]) false [EvCommit].

(** [validates_first m]: a call whose entry validation fails has opened no
    transaction; [m] is the call at arguments that fail validation. *)
Definition validates_first {A} (m : M A) : Prop :=
  forall s a s', m s = Ok a s' -> trace s' = trace s.

(** ** A small file system to run the calls on *)

Definition mkdir_inode (inum parent : nat) (nl : Z) (es : list dirent)
  : inode :=
  Inode 1 0 false 0 T_DIR 0 0 nl (DESZ * Z.of_nat (2 + length es)) ""
        (Dirent inum "." :: Dirent parent ".." :: es) [].

Definition mkfile_inode (nl : Z) : inode :=
  Inode 1 0 false 0 T_FILE 0 0 nl 0 "" [] [].

Definition mklink_inode (target : string) : inode :=
  Inode 1 0 false I_SYMLNK T_FILE 0 0 1 0 target [] [].

Definition closed_file : file := File FD_NONE 0 false false 0 0.

(** The root holds a file f, an empty directory d, a directory e with one
    file x, the links a -> /f and b -> /a, a link loop that points to
    itself, and a link gone whose target does not exist. *)
Definition fs0 : kernel :=
  Kernel
    (list_to_map
       [(1%nat, mkdir_inode 1 1 3
                  [Dirent 2 "f"; Dirent 3 "d"; Dirent 4 "a"; Dirent 5 "loop";
                   Dirent 6 "e"; Dirent 8 "b"; Dirent 9 "gone"]);
        (2%nat, mkfile_inode 1);
        (3%nat, mkdir_inode 3 1 1 []);
        (4%nat, mklink_inode "/f");
        (5%nat, mklink_inode "/loop");
        (6%nat, mkdir_inode 6 1 1 [Dirent 7 "x"]);
        (7%nat, mkfile_inode 1);
        (8%nat, mklink_inode "/a");
        (9%nat, mklink_inode "/nothing")])
    20 (replicate 4 closed_file) (replicate 16 None) 1 false [].

(** The directory tree that path resolution reads: the kinds and the
    directory contents of the inodes, and the working directory. *)
Definition same_tree (s s' : kernel) : Prop :=
  cwd s' = cwd s /\
  forall j, i_type (getino s' j) = i_type (getino s j) /\
            i_dents (getino s' j) = i_dents (getino s j).

(** The size of a directory inode covers its entries exactly. *)
Definition dir_sized (i : inode) : bool :=
  i_size i =? DESZ * Z.of_nat (length (i_dents i)).

(** Every entry of the list is free (inode number 0). *)
Definition only_free (des : list dirent) : bool :=
  forallb (fun de => (de_inum de =? 0)%nat) des.

(** ** Symlink chains *)

(** [chain s d ip t]: starting at the inode ip, exactly d symlinks are
    followed before the first inode without the symlink flag, which is t;
    the target of every link resolves to an inode that is in use and not
    locked. *)
Fixpoint chain (s : kernel) (d : nat) (ip t : nat) : bool :=
  match d with
  | O => negb (is_symlnk (getino s ip)) && (ip =? t)%nat
  | S d' =>
      is_symlnk (getino s ip) &&
      match resolve s (i_addrs (getino s ip)) with
      | Some next =>
          negb (i_type (getino s next) =? 0) &&
          negb (i_locked (getino s next)) &&
          chain s d' next t
      | None => false
      end
  end.

(** [links s n ip]: starting at ip, at least n symlinks are followed (a
    loop has any number of them). *)
Fixpoint links (s : kernel) (n : nat) (ip : nat) : bool :=
  match n with
  | O => true
  | S n' =>
      is_symlnk (getino s ip) &&
      match resolve s (i_addrs (getino s ip)) with
      | Some next =>
          negb (i_type (getino s next) =? 0) &&
          negb (i_locked (getino s next)) &&
          links s n' next
      | None => false
      end
  end.

(** [tracks s0 s ip]: while a chain is followed from the state s0, the
    state s differs from s0 in reference counts only, and in the lock of
    the inode ip at hand, which the caller holds. *)
Definition tracks (s0 s : kernel) (ip : nat) : Prop :=
  R_static s0 s /\
  (forall j, i_locked (getino s j) =
             if decide (j = ip) then true else i_locked (getino s0 j)) /\
  i_locked (getino s0 ip) = false /\
  i_ref (getino s ip) <> 0%nat /\
  ftable s = ftable s0 /\ ofile s = ofile s0.

(** How sys_open comes by its first inode ip0: by path resolution, or,
    with O_CREATE, by create on a name that exists as a plain file. *)
Definition open_finds (s : kernel) (path : string) (omode : Z) (ip0 : nat)
  : Prop :=
  if Z.land omode O_CREATE =? 0 then
    resolve s path = Some ip0 /\
    ~ (i_type (getino s ip0) = T_DIR /\ omode <> O_RDONLY)
  else
    log_busy s = false /\
    i_type (getino s ip0) = T_FILE /\
    exists dp name off,
      resolve_parent s path = Some (dp, name) /\
      dirfind (getino s dp) name = Some (ip0, off) /\
      i_locked (getino s dp) = false.

(** The state in which create looks at the kind of an entry ip that it
    found in the directory dp: the parent has been locked, unlocked and
    released, and the entry is referenced and locked. *)
Definition create_found (dp ip : nat) (s : kernel) : kernel :=
  imod ip (set_locked true)
    (imod dp (fun i => set_ref (Nat.pred (i_ref i)) i)
       (imod dp (set_locked false)
          (iget ip (imod dp (set_locked true) (iget dp s))))).

(** A root directory with a file z and sixteen links a -> /b -> ... ->
    /p -> /z. *)
Definition chain_names : list string :=
  ["a"; "b"; "c"; "d"; "e"; "f"; "g"; "h";
   "i"; "j"; "k"; "l"; "m"; "n"; "o"; "p"].

Definition chain_targets : list string :=
  ["/b"; "/c"; "/d"; "/e"; "/f"; "/g"; "/h"; "/i";
   "/j"; "/k"; "/l"; "/m"; "/n"; "/o"; "/p"; "/z"].

Definition fs16 : kernel :=
  Kernel
    (list_to_map
       ((1%nat, mkdir_inode 1 1 1
                  (Dirent 2 "z" ::
                   imap (fun k n => Dirent (3 + k) n) chain_names)) ::
        (2%nat, mkfile_inode 1) ::
        imap (fun k t => ((3 + k)%nat, mklink_inode t)) chain_targets))
    40 (replicate 4 closed_file) (replicate 16 None) 1 false [].

(** [dangles s n ip]: following the links from the symlink ip, within n
    rounds a target does not resolve to any inode. *)
Fixpoint dangles (s : kernel) (n : nat) (ip : nat) : bool :=
  match n with
  | O => false
  | S n' =>
      match resolve s (i_addrs (getino s ip)) with
      | None => true
      | Some next =>
          is_symlnk (getino s next) &&
          negb (i_type (getino s next) =? 0) &&
          negb (i_locked (getino s next)) &&
          dangles s n' next
      end
  end.

(** [loops s n ip]: following the links from the symlink ip, each of n
    rounds finds another symlink. *)
Fixpoint loops (s : kernel) (n : nat) (ip : nat) : bool :=
  match n with
  | O => true
  | S n' =>
      match resolve s (i_addrs (getino s ip)) with
      | None => false
      | Some next =>
          is_symlnk (getino s next) &&
          negb (i_type (getino s next) =? 0) &&
          negb (i_locked (getino s next)) &&
          loops s n' next
      end
  end.

(** ** What create writes *)

(** The directory inode after insert_entry has put the entry de into its
    first free slot, or at the end of its content. *)
Definition dir_add (de : dirent) (d : inode) : inode :=
  let idx := free_slot (i_dents d) in
  let off := DESZ * Z.of_nat idx in
  let d1 := set_dents (put_dent idx de (i_dents d)) d in
  if i_size d <? off + DESZ then set_size (off + DESZ) d1 else d1.

(** The durable writes of that insertion into the directory dp. *)
Definition dir_add_events (dp : nat) (de : dirent) (d : inode)
  : list event :=
  let off := DESZ * Z.of_nat (free_slot (i_dents d)) in
  EvDirWrite dp off de ::
  (if i_size d <? off + DESZ
   then [EvIupdate dp (dinode_of (dir_add de d))] else []).

(** The process state and the log flag, which create does not touch. *)
Definition R_proc (s s' : kernel) : Prop :=
  ftable s' = ftable s /\ ofile s' = ofile s /\ cwd s' = cwd s /\
  ninodes s' = ninodes s /\ log_busy s' = log_busy s.

(** The state after insert_entry has written the entry de into dp. *)
Definition dir_write (dp : nat) (de : dirent) (s : kernel) : kernel :=
  let d := getino s dp in
  let idx := free_slot (i_dents d) in
  let off := DESZ * Z.of_nat idx in
  let s1 := emit (EvDirWrite dp off de)
              (imod dp (set_dents (put_dent idx de (i_dents d))) s) in
  if i_size d <? off + DESZ
  then emit (EvIupdate dp (dinode_of (dir_add de d)))
         (imod dp (set_size (off + DESZ)) s1)
  else s1.

(** The state in which create has allocated the inode ip under the locked
    parent dp, set its fields and persisted it. *)
Definition create_alloc (dp ip : nat) (type major minor : Z) (s : kernel)
  : kernel :=
  emit (EvIupdate ip (Dinode type major minor 1 0 ""))
    (imod ip (fun i => set_nlink 1 (set_minor minor (set_major major i)))
       (imod ip (set_locked true)
          (iget ip
             (emit (EvIalloc ip type)
                (imod ip (fresh_inode (i_dev (getino s dp)) type)
                   (imod dp (set_locked true) (iget dp s))))))).

(** ** Predicates and states for the descriptor calls *)

(** [n] is the least free descriptor of the calling process. *)
Definition least_free (s : kernel) (n : nat) : Prop :=
  (n < NOFILE)%nat /\ ofile s !! n = Some None /\
  forall j, (j < n)%nat -> ofile s !! j <> Some None.

(** An open-file object without a reference has the kind FD_NONE, which
    is how fileclose leaves it. *)
Definition free_slots_clean (s : kernel) : Prop :=
  forall f fl, ftable s !! f = Some fl -> f_ref fl = 0%nat ->
               f_type fl = FD_NONE.

(** The outcome of sys_readlink with the code -2 of a broken link replaced
    by -1. *)
Definition broken_as_failure (r : result (Z * string)) : result (Z * string) :=
  match r with
  | Ok (v, b) s => Ok (if v =? -2 then -1 else v, b) s
  | Panic msg => Panic msg
  | Blocked => Blocked
  end.

(** The word at the index [i] of the argument vector at [uargv] is a
    pointer to the string [str]. *)
Definition arg_at (fetchint : Z -> option Z) (fetchstr : Z -> option string)
    (uargv i : Z) (str : string) : Prop :=
  exists p, fetchint (wrapu32 (uargv + 4 * i)) = Some p /\ p <> 0 /\
            fetchstr p = Some str.

(** The memory of the caller holds at [uargv] the pointers to the strings
    of [argv], in order, and then a null pointer, within [n] words. *)
Definition arg_vector (fetchint : Z -> option Z)
    (fetchstr : Z -> option string) (n : nat) (uargv : Z)
    (argv : list string) : Prop :=
  (length argv < n)%nat /\
  (forall k str, argv !! k = Some str ->
                 arg_at fetchint fetchstr uargv (Z.of_nat k) str) /\
  fetchint (wrapu32 (uargv + 4 * Z.of_nat (length argv))) = Some 0.

(** The tree after an entry has been added to the directory dp for the
    inode ip, which is no directory of the tree before. *)
Definition grown (s s' : kernel) (dp ip : nat) (name : string) : Prop :=
  cwd s' = cwd s /\
  i_type (getino s ip) <> T_DIR /\
  dirfind (getino s dp) name = None /\
  (forall j, j <> ip -> i_type (getino s' j) = i_type (getino s j)) /\
  (forall j, j <> ip -> j <> dp ->
             i_dents (getino s' j) = i_dents (getino s j)) /\
  i_dents (getino s' dp) =
    put_dent (free_slot (i_dents (getino s dp)))
      (Dirent ip (strtake DIRSIZ name)) (i_dents (getino s dp)).

(** The call has changed nothing but the log, where it has opened and
    committed a transaction without a write. *)
Definition empty_txn (s s' : kernel) : Prop :=
  (forall j, getino s' j = getino s j) /\
  ftable s' = ftable s /\ ofile s' = ofile s /\ cwd s' = cwd s /\
  log_busy s' = false /\ trace s' = trace s ++ [EvBegin; EvCommit].

(** fs0 with the file f open for reading as descriptor 0. *)
Definition fs_open : kernel :=
  with_ofile
    (with_ftable (imod 2 (set_ref 1) fs0)
       (<[0%nat := File FD_INODE 1 true false 2 0]> (ftable fs0)))
    (<[0%nat := Some 0%nat]> (ofile fs0)).

(** fs0 with every descriptor of the process taken by that open file. *)
Definition fs_full : kernel :=
  with_ofile
    (with_ftable (imod 2 (set_ref 1) fs0)
       (<[0%nat := File FD_INODE 16 true false 2 0]> (ftable fs0)))
    (replicate 16 (Some 0%nat)).

(** fs0 with the link a pointing to the directory d. *)
Definition fs_dirlink : kernel := imod 4 (set_addrs "/d") fs0.

(** A caller memory for sys_exec: the words at 100 and 104 point to the
    strings at 200 and 300, the word at 108 is null. *)
Definition mem_words (a : Z) : option Z :=
  if a =? 100 then Some 200
  else if a =? 104 then Some 300
  else if a =? 108 then Some 0
  else None.

Definition mem_strings (a : Z) : option string :=
  if a =? 200 then Some "ls"
  else if a =? 300 then Some "-l"
  else None.

(** At most one entry in use of the directory content carries the name. *)
Definition unique_name (des : list dirent) (name : string) : Prop :=
  forall i j di dj,
    des !! i = Some di -> des !! j = Some dj ->
    de_inum di <> 0%nat -> de_inum dj <> 0%nat ->
    namecmp name (de_name di) = true -> namecmp name (de_name dj) = true ->
    i = j.

(** The tree after the entry at the index k of the directory dp has been
    zeroed. *)
Definition shrunk (s s' : kernel) (dp : nat) (k : nat) : Prop :=
  cwd s' = cwd s /\
  (forall j, i_type (getino s' j) = i_type (getino s j)) /\
  (forall j, j <> dp -> i_dents (getino s' j) = i_dents (getino s j)) /\
  i_dents (getino s' dp) = <[k := zero_dirent]> (i_dents (getino s dp)).

(** Every inode in use has a link.  Releasing a reference then reclaims
    nothing, so the release of the inode layer is the reference-count drop
    that [iput] models. *)
Definition all_linked (s : kernel) : Prop :=
  forall j, i_type (getino s j) <> 0 -> 1 <= i_nlink (getino s j).

(** fs0 with the reference that the process holds on its working
    directory. *)
Definition fs_cwd : kernel := iget 1 fs0.

(** A free inode has no reference. *)
Definition free_unreferenced (s : kernel) : Prop :=
  forall j, i_type (getino s j) = 0 -> i_ref (getino s j) = 0%nat.

(** ** Predicates for symlink *)

(** The transaction of sys_symlink (its begin_trans, create and
    commit_trans), with the inode that create gave. *)
Definition symlink_txn (path : string) : M (option nat) :=
  begin_trans ;;
  r <- create path T_FILE 0 0 ;;
  commit_trans ;;
  ret r.

(** The event persists an image of the inode ip whose inline buffer holds
    the string a. *)
Definition persists_addrs (ip : nat) (a : string) (e : event) : bool :=
  match e with
  | EvIupdate j d => (j =? ip)%nat && String.eqb (d_addrs d) a
  | _ => false
  end.

(** What is left of sys_symlink after its transaction, for the inode that
    create gave. *)
Definition symlink_store (cap : Z) (target : string) (ip : nat) : M Z :=
  r <- filealloc ;;
  match r with
  | None => iunlockput ip ;; ret (-1)
  | Some f =>
      if cap <? strlen target
      then panic "target soft link path is too long "
      else
        modify (imod ip (fun i =>
          set_size 0
            (set_flags (Z.lor (i_flags i) I_SYMLNK)
               (set_addrs (safestrcpy (i_addrs i) target cap) i)))) ;;
        iunlock ip ;;
        modify (fun s => with_ftable s
                  (alter (symlink_file ip) f (ftable s))) ;;
        ret 0
  end.

(** * Properties *)

(** ** The monad *)

Lemma bind_Ok {A B} (m : M A) (k : A -> M B) s b s' :
  bind m k s = Ok b s' ->
  exists a s1, m s = Ok a s1 /\ k a s1 = Ok b s'.
Proof.
  unfold bind. destruct (m s) as [a s1| |]; try discriminate.
  intros H. exists a, s1. split; [reflexivity | exact H].
Qed.

Lemma bind_step {A B} (m : M A) (k : A -> M B) s a s1 :
  m s = Ok a s1 -> bind m k s = k a s1.
Proof. unfold bind. intros ->. reflexivity. Qed.

Lemma Ok_inv {A} (a b : A) (s t : kernel) :
  Ok a s = Ok b t -> a = b /\ s = t.
Proof. intros H. inversion H. split; reflexivity. Qed.

(** ** The inode table *)

Lemma getino_imod ip f s j :
  getino (imod ip f s) j = if decide (ip = j) then f (getino s ip) else getino s j.
Proof.
  unfold getino, imod. simpl. rewrite lookup_insert.
  destruct (decide (ip = j)); reflexivity.
Qed.

Lemma getino_imod_eq ip f s : getino (imod ip f s) ip = f (getino s ip).
Proof. rewrite getino_imod. destruct (decide (ip = ip)); congruence. Qed.

Lemma getino_imod_ne ip f s j : ip <> j -> getino (imod ip f s) j = getino s j.
Proof. intros H. rewrite getino_imod. destruct (decide (ip = j)); congruence. Qed.

(** Reduce the field selections of stored and updated inodes. *)
Ltac fields :=
  cbn [i_dev i_ref i_locked i_flags i_type i_major i_minor i_nlink i_size
       i_addrs i_dents i_tags set_ref set_locked set_flags set_major
       set_minor set_nlink set_size set_addrs set_dents set_tags nlink_inc
       nlink_dec fresh_inode dinode_of] in *.

Lemma getino_iget_eq ip s :
  getino (iget ip s) ip = set_ref (S (i_ref (getino s ip))) (getino s ip).
Proof. unfold iget. rewrite getino_imod_eq. reflexivity. Qed.

Lemma getino_iget_ne ip s j : ip <> j -> getino (iget ip s) j = getino s j.
Proof. intros H. unfold iget. apply getino_imod_ne, H. Qed.

Lemma inode_eta i :
  Inode (i_dev i) (i_ref i) (i_locked i) (i_flags i) (i_type i) (i_major i)
        (i_minor i) (i_nlink i) (i_size i) (i_addrs i) (i_dents i) (i_tags i) = i.
Proof. destruct i; reflexivity. Qed.

(** ** Locks and references *)

Lemma ilock_Ok s ip :
  i_ref (getino s ip) <> 0%nat ->
  i_locked (getino s ip) = false ->
  i_type (getino s ip) <> 0 ->
  ilock ip s = Ok tt (imod ip (set_locked true) s).
Proof.
  intros Hr Hl Ht. unfold ilock. cbv zeta.
  destruct (Nat.eqb_spec (i_ref (getino s ip)) 0); [contradiction|].
  rewrite Hl. destruct (Z.eqb_spec (i_type (getino s ip)) 0); [contradiction|].
  reflexivity.
Qed.

Lemma iunlock_Ok s ip :
  i_ref (getino s ip) <> 0%nat ->
  i_locked (getino s ip) = true ->
  iunlock ip s = Ok tt (imod ip (set_locked false) s).
Proof.
  intros Hr Hl. unfold iunlock. cbv zeta. rewrite Hl. simpl.
  destruct (Nat.eqb_spec (i_ref (getino s ip)) 0); [contradiction|].
  reflexivity.
Qed.

Lemma iunlockput_Ok s ip :
  i_ref (getino s ip) <> 0%nat ->
  i_locked (getino s ip) = true ->
  iunlockput ip s =
  Ok tt (imod ip (fun i => set_ref (Nat.pred (i_ref i)) i)
           (imod ip (set_locked false) s)).
Proof.
  intros Hr Hl. unfold iunlockput.
  rewrite (bind_step _ _ _ _ _ (iunlock_Ok s ip Hr Hl)). reflexivity.
Qed.

(** ** Opening a directory for writing *)

(** open without the CREATE flag on a path whose resolution, which does
    not follow a symbolic link in the last component, ends at a directory
    inode: with a mode other than exactly read-only the call returns -1;
    the descriptor table and the file table are as before, and so is every
    inode, the reference count of the directory included (the reference
    taken by the resolution is released, and so is the lock). *)
Theorem sys_open_dir_not_rdonly s path omode ip :
  Z.land omode O_CREATE = 0 ->
  resolve s path = Some ip ->
  i_type (getino s ip) = T_DIR ->
  omode <> O_RDONLY ->
  i_locked (getino s ip) = false ->
  exists s',
    sys_open (Some path) (Some omode) s = Ok (-1) s' /\
    -1 < 0 /\
    ofile s' = ofile s /\ ftable s' = ftable s /\ trace s' = trace s /\
    forall j, getino s' j = getino s j.
Proof.
  intros Hc Hr Ht Hm Hl.
  unfold sys_open. rewrite Hc. change (negb (0 =? 0)) with false. cbv iota.
  assert (Hn : namei path s = Ok (Some ip) (iget ip s))
    by (unfold namei; rewrite Hr; reflexivity).
  rewrite (bind_step _ _ _ _ _ Hn).
  pose proof (getino_iget_eq ip s) as Hg.
  assert (Hk : ilock ip (iget ip s) = Ok tt (imod ip (set_locked true) (iget ip s))).
  { apply ilock_Ok; rewrite Hg; fields; [lia | exact Hl | rewrite Ht; discriminate]. }
  rewrite (bind_step _ _ _ _ _ Hk).
  unfold gets at 1. unfold bind at 1.
  rewrite getino_imod_eq, Hg. fields. rewrite Ht, Z.eqb_refl.
  destruct (Z.eqb_spec omode O_RDONLY) as [|_]; [contradiction|].
  cbn [andb negb].
  rewrite (bind_step _ _ _ _ _
             (iunlockput_Ok (imod ip (set_locked true) (iget ip s)) ip
                ltac:(rewrite getino_imod_eq, Hg; fields; lia)
                ltac:(rewrite getino_imod_eq; reflexivity))).
  eexists. split; [reflexivity|].
  repeat split; try lia.
  intros j. destruct (decide (ip = j)) as [<-|Hne].
  - rewrite !getino_imod_eq, Hg. unfold set_ref, set_locked. fields.
    rewrite <- Hl. apply inode_eta.
  - rewrite !getino_imod_ne by assumption. unfold iget.
    apply getino_imod_ne; assumption.
Qed.

Lemma sys_open_dir_not_rdonly_witness :
  exists s',
    sys_open (Some "/d") (Some O_WRONLY) fs0 = Ok (-1) s' /\
    -1 < 0 /\
    ofile s' = ofile fs0 /\ ftable s' = ftable fs0 /\ trace s' = trace fs0 /\
    forall j, getino s' j = getino fs0 j.
Proof.
  apply (sys_open_dir_not_rdonly fs0 "/d" O_WRONLY 3%nat).
  - reflexivity.
  - vm_compute. reflexivity.
  - vm_compute. reflexivity.
  - discriminate.
  - vm_compute. reflexivity.
Defined.

(** C10 fails on the code: sys_open tests the kind of the inode that the
    path names before its loop follows symbolic links, so the test does
    not see a directory that is reached through a link.  After
    symlink("/d", "/l") on the small file system, where /d is a directory,
    open("/d", O_WRONLY) is refused and takes no descriptor, but
    open("/l", O_WRONLY) returns descriptor 0, of a writable open-file
    object on the directory inode, which keeps the reference taken for
    it. *)
Theorem sys_open_symlink_to_directory :
  exists s1 s2 s3,
    sys_symlink 64 (Some "/d") (Some "/l") fs0 = Ok 0 s1 /\
    resolve s1 "/d" = Some 3%nat /\ i_type (getino s1 3) = T_DIR /\
    Z.land O_WRONLY O_CREATE = 0 /\ O_WRONLY <> O_RDONLY /\
    sys_open (Some "/d") (Some O_WRONLY) s1 = Ok (-1) s2 /\
    ofile s2 = ofile s1 /\
    sys_open (Some "/l") (Some O_WRONLY) s1 = Ok 0 s3 /\
    ofile s1 !! 0%nat = Some None /\
    ofile s3 !! 0%nat = Some (Some 1%nat) /\
    ftable s3 !! 1%nat = Some (File FD_INODE 1 false true 3 0) /\
    i_type (getino s3 3) = T_DIR /\
    i_ref (getino s3 3) = S (i_ref (getino s1 3)).
Proof.
  eexists. eexists. eexists.
  split; [vm_compute; reflexivity|].
  split; [vm_compute; reflexivity|].
  split; [vm_compute; reflexivity|].
  split; [reflexivity|].
  split; [discriminate|].
  split; [vm_compute; reflexivity|].
  split; [reflexivity|].
  split; [vm_compute; reflexivity|].
  split; [reflexivity|].
  split; [reflexivity|].
  split; [reflexivity|].
  split; vm_compute; reflexivity.
Qed.

(** ** Steps that preserve a relation between the states *)

Section Preserves.
Context (R : kernel -> kernel -> Prop) `{!PreOrder R}.

Lemma preserves_ret {A} (a : A) : preserves R (ret a).
Proof. intros s a' s' H. inversion H; subst. reflexivity. Qed.

Lemma preserves_panic {A} msg : preserves R (@panic A msg).
Proof. intros s a s' H. discriminate. Qed.

Lemma preserves_gets {A} (f : kernel -> A) : preserves R (gets f).
Proof. intros s a s' H. inversion H; subst. reflexivity. Qed.

Lemma preserves_bind {A B} (m : M A) (k : A -> M B) :
  preserves R m -> (forall a, preserves R (k a)) -> preserves R (bind m k).
Proof.
  intros Hm Hk s b s' H. apply bind_Ok in H as (a & s1 & H1 & H2).
  transitivity s1; [eapply Hm | eapply Hk]; eassumption.
Qed.
End Preserves.

#[export] Instance R_silent_preorder : PreOrder R_silent.
Proof.
  split.
  - intros s. split; reflexivity.
  - intros s1 s2 s3 [H1 H2] [H3 H4]. split; congruence.
Qed.

#[export] Instance R_quiet_preorder : PreOrder R_quiet.
Proof.
  split.
  - intros s. split; [reflexivity|]. exists []. rewrite app_nil_r. auto.
  - intros s1 s2 s3 [H1 (m1 & H2 & F1)] [H3 (m2 & H4 & F2)].
    split; [congruence|]. exists (m1 ++ m2). split.
    + rewrite H4, H2, app_assoc. reflexivity.
    + apply Forall_app; auto.
Qed.

#[export] Instance R_static_preorder : PreOrder R_static.
Proof.
  split.
  - intros s. split; reflexivity.
  - intros s1 s2 s3 [H1 H2] [H3 H4]. split; [congruence|].
    intros j. rewrite H4. apply H2.
Qed.

Lemma silent_quiet s s' : R_silent s s' -> R_quiet s s'.
Proof.
  intros [H1 H2]. split; [exact H1|]. exists []. rewrite app_nil_r. auto.
Qed.

Lemma preserves_silent_quiet {A} (m : M A) :
  preserves R_silent m -> preserves R_quiet m.
Proof. intros H s a s' E. apply silent_quiet. eapply H, E. Qed.

(** Structural steps of a proof that a piece of kernel code preserves a
    relation: follow the binds and the branches. *)
Ltac pres_step :=
  lazymatch goal with
  | |- preserves _ (bind _ _) => apply preserves_bind; [typeclasses eauto | | intros ?]
  | |- preserves _ (ret _) => apply preserves_ret; typeclasses eauto
  | |- preserves _ (panic _) => apply preserves_panic
  | |- preserves _ (gets _) => apply preserves_gets; typeclasses eauto
  | |- preserves _ (if ?b then _ else _) =>
      first [progress cbv beta iota | destruct b]
  | |- preserves _ (match ?x with _ => _ end) =>
      first [progress cbv beta iota | destruct x]
  end.

(** A step that returns [Ok] of an explicit state, after tests. *)
Ltac prim_cases H :=
  repeat match type of H with
         | context [if ?b then _ else _] => destruct b eqn:?
         | context [match ?x with _ => _ end] => destruct x eqn:?
         end;
  try discriminate; inversion H; subst; clear H.

Lemma strip_getino_imod ip f s j :
  (forall i, strip (f i) = strip i) ->
  strip (getino (imod ip f s) j) = strip (getino s j).
Proof.
  intros Hf. rewrite getino_imod. destruct (decide (ip = j)) as [<-|]; auto.
Qed.

Lemma R_static_imod ip f s :
  (forall i, strip (f i) = strip i) -> R_static s (imod ip f s).
Proof.
  intros Hf. split; [reflexivity|]. intros j. apply strip_getino_imod, Hf.
Qed.

Lemma R_static_same_icache s s' :
  cwd s' = cwd s -> icache s' = icache s -> R_static s s'.
Proof.
  intros Hc Hi. split; [exact Hc|]. intros j. unfold getino. rewrite Hi.
  reflexivity.
Qed.

Lemma ilock_inv ip s a s' :
  ilock ip s = Ok a s' ->
  s' = imod ip (set_locked true) s /\
  i_ref (getino s ip) <> 0%nat /\ i_locked (getino s ip) = false /\
  i_type (getino s ip) <> 0.
Proof.
  unfold ilock. cbv zeta. intros H.
  destruct (Nat.eqb_spec (i_ref (getino s ip)) 0); try discriminate.
  destruct (i_locked (getino s ip)); try discriminate.
  destruct (Z.eqb_spec (i_type (getino s ip)) 0); try discriminate.
  inversion H. auto.
Qed.

Lemma iunlock_inv ip s a s' :
  iunlock ip s = Ok a s' ->
  s' = imod ip (set_locked false) s /\
  i_ref (getino s ip) <> 0%nat /\ i_locked (getino s ip) = true.
Proof.
  unfold iunlock. cbv zeta. intros H.
  destruct (i_locked (getino s ip)); try discriminate.
  destruct (Nat.eqb_spec (i_ref (getino s ip)) 0); try discriminate.
  inversion H. auto.
Qed.

Lemma ilock_silent ip : preserves R_silent (ilock ip).
Proof. intros s a s' H. apply ilock_inv in H as [-> _]. split; reflexivity. Qed.

Lemma ilock_static ip : preserves R_static (ilock ip).
Proof.
  intros s a s' H. apply ilock_inv in H as [-> _].
  apply R_static_imod. reflexivity.
Qed.

Lemma iunlock_silent ip : preserves R_silent (iunlock ip).
Proof. intros s a s' H. apply iunlock_inv in H as [-> _]. split; reflexivity. Qed.

Lemma iunlock_static ip : preserves R_static (iunlock ip).
Proof.
  intros s a s' H. apply iunlock_inv in H as [-> _].
  apply R_static_imod. reflexivity.
Qed.

Lemma iput_silent ip : preserves R_silent (iput ip).
Proof. intros s a s' H. inversion H; subst. split; reflexivity. Qed.

Lemma iput_static ip : preserves R_static (iput ip).
Proof.
  intros s a s' H. inversion H; subst. apply R_static_imod. reflexivity.
Qed.

Lemma iget_static ip s : R_static s (iget ip s).
Proof. apply R_static_imod. reflexivity. Qed.

Lemma iunlockput_silent ip : preserves R_silent (iunlockput ip).
Proof.
  unfold iunlockput. pres_step; auto using iunlock_silent, iput_silent.
Qed.

Lemma iunlockput_static ip : preserves R_static (iunlockput ip).
Proof.
  unfold iunlockput. pres_step; auto using iunlock_static, iput_static.
Qed.

Lemma namei_silent p : preserves R_silent (namei p).
Proof. intros s a s' H. unfold namei in H. prim_cases H; split; reflexivity. Qed.

Lemma namei_static p : preserves R_static (namei p).
Proof.
  intros s a s' H. unfold namei in H. prim_cases H;
    [apply iget_static | reflexivity].
Qed.

Lemma nameiparent_silent p : preserves R_silent (nameiparent p).
Proof.
  intros s a s' H. unfold nameiparent in H. prim_cases H; split; reflexivity.
Qed.

Lemma nameiparent_static p : preserves R_static (nameiparent p).
Proof.
  intros s a s' H. unfold nameiparent in H. prim_cases H;
    [apply iget_static | reflexivity].
Qed.

Lemma dirlookup_silent dp name : preserves R_silent (dirlookup dp name).
Proof.
  intros s a s' H. unfold dirlookup in H. prim_cases H; split; reflexivity.
Qed.

Lemma dirlookup_static dp name : preserves R_static (dirlookup dp name).
Proof.
  intros s a s' H. unfold dirlookup in H. prim_cases H;
    [apply iget_static | reflexivity].
Qed.

Lemma iupdate_quiet ip : preserves R_quiet (iupdate ip).
Proof.
  intros s a s' H. inversion H; subst. split; [reflexivity|].
  eexists. split; [reflexivity|]. repeat constructor.
Qed.

Lemma iupdate_static ip : preserves R_static (iupdate ip).
Proof.
  intros s a s' H. inversion H; subst. apply R_static_same_icache; reflexivity.
Qed.

Lemma begin_trans_static : preserves R_static begin_trans.
Proof.
  intros s a s' H. unfold begin_trans in H. prim_cases H.
  apply R_static_same_icache; reflexivity.
Qed.

Lemma commit_trans_static : preserves R_static commit_trans.
Proof.
  intros s a s' H. inversion H; subst. apply R_static_same_icache; reflexivity.
Qed.

Lemma modify_imod_silent ip f : preserves R_silent (modify (imod ip f)).
Proof. intros s a s' H. inversion H; subst. split; reflexivity. Qed.

Lemma modify_ftable_silent g :
  preserves R_silent (modify (fun s => with_ftable s (g s))).
Proof. intros s a s' H. inversion H; subst. split; reflexivity. Qed.

Lemma modify_ftable_static g :
  preserves R_static (modify (fun s => with_ftable s (g s))).
Proof.
  intros s a s' H. inversion H; subst. apply R_static_same_icache; reflexivity.
Qed.

Lemma filealloc_silent : preserves R_silent filealloc.
Proof.
  intros s a s' H. unfold filealloc in H. prim_cases H; split; reflexivity.
Qed.

Lemma filealloc_static : preserves R_static filealloc.
Proof.
  intros s a s' H. unfold filealloc in H. prim_cases H;
    apply R_static_same_icache; reflexivity.
Qed.

Lemma fdalloc_silent f : preserves R_silent (fdalloc f).
Proof.
  intros s a s' H. unfold fdalloc in H. prim_cases H; split; reflexivity.
Qed.

Lemma fdalloc_static f : preserves R_static (fdalloc f).
Proof.
  intros s a s' H. unfold fdalloc in H. prim_cases H;
    apply R_static_same_icache; reflexivity.
Qed.

Lemma fileclose_silent f : preserves R_silent (fileclose f).
Proof.
  intros s a s' H. unfold fileclose in H. prim_cases H; split; reflexivity.
Qed.

Lemma argfd_silent a : preserves R_silent (argfd a).
Proof.
  intros s x s' H. unfold argfd in H. prim_cases H; split; reflexivity.
Qed.

Lemma writei_de_quiet dp off de : preserves R_quiet (writei_de dp off de).
Proof.
  intros s a s' H. unfold writei_de in H. cbv zeta in H.
  destruct ((off <? 0) || (i_size (getino s dp) <? off)).
  - inversion H; subst. reflexivity.
  - destruct (i_size (getino s dp) <? off + DESZ).
    + inversion H; subst. split; [reflexivity|]. eexists. split.
      * simpl. rewrite <- app_assoc. reflexivity.
      * repeat constructor.
    + inversion H; subst. split; [reflexivity|]. eexists. split.
      * simpl. reflexivity.
      * repeat constructor.
Qed.

Create HintDb silent discriminated.
Create HintDb quiet discriminated.
Create HintDb static discriminated.

#[export] Hint Resolve ilock_silent iunlock_silent iput_silent iunlockput_silent
  namei_silent nameiparent_silent dirlookup_silent modify_imod_silent
  modify_ftable_silent filealloc_silent fdalloc_silent fileclose_silent
  argfd_silent : silent.

#[export] Hint Resolve ilock_static iunlock_static iput_static iunlockput_static
  namei_static nameiparent_static dirlookup_static iupdate_static
  begin_trans_static commit_trans_static modify_ftable_static
  filealloc_static fdalloc_static : static.

Ltac silent := repeat pres_step; auto with silent.
Ltac static := repeat pres_step; auto with static.

#[export] Hint Extern 3 (preserves R_quiet _) =>
  (apply preserves_silent_quiet; solve [silent]) : quiet.
#[export] Hint Resolve iupdate_quiet writei_de_quiet : quiet.

Ltac quiet := repeat pres_step; auto with quiet.

Lemma dirlink_quiet dp name inum : preserves R_quiet (dirlink dp name inum).
Proof. unfold dirlink. quiet. Qed.

Lemma ialloc_quiet dev type : preserves R_quiet (ialloc dev type).
Proof.
  intros s a s' H. unfold ialloc in H. prim_cases H; [|reflexivity].
  split; [reflexivity|]. eexists. split; [simpl; reflexivity|].
  repeat constructor.
Qed.

#[export] Hint Resolve dirlink_quiet ialloc_quiet : quiet.

Lemma create_quiet path type major minor :
  preserves R_quiet (create path type major minor).
Proof. unfold create. quiet. Qed.

(** ** The transaction bracket *)

Lemma closes_bind {A B} (m : M A) (k : A -> M B) :
  preserves R_quiet m -> (forall a, closes (k a)) -> closes (bind m k).
Proof.
  intros Hm Hk s b s' H. apply bind_Ok in H as (a & s1 & H1 & H2).
  apply Hm in H1 as [_ (m1 & E1 & F1)].
  apply Hk in H2 as [L (m2 & E2 & F2)]. split; [exact L|].
  exists (m1 ++ m2). split.
  - rewrite E2, E1, <- !app_assoc. reflexivity.
  - apply Forall_app; auto.
Qed.

Lemma closes_commit {A} (k : M A) :
  preserves R_silent k -> closes (commit_trans ;; k).
Proof.
  intros Hk s b s' H. apply bind_Ok in H as (a & s1 & H1 & H2).
  inversion H1; subst. apply Hk in H2 as [L T]. split.
  - rewrite L. reflexivity.
  - exists []. split; [rewrite T; reflexivity | constructor].
Qed.

Lemma closes_panic {A} msg : closes (@panic A msg).
Proof. intros s a s' H. discriminate. Qed.

Lemma isdirempty_from_silent fuel d off :
  preserves R_silent (isdirempty_from fuel d off).
Proof.
  revert off. induction fuel as [|fuel IH]; intros off; simpl.
  - intros s a s' H. discriminate.
  - destruct (off <? i_size d); [|silent].
    destruct (readi_de d off) as [n de]. silent.
Qed.

Lemma isdirempty_silent dp : preserves R_silent (isdirempty dp).
Proof. unfold isdirempty. silent. apply isdirempty_from_silent. Qed.

Lemma open_symloop_silent n ip : preserves R_silent (open_symloop n ip).
Proof. revert ip. induction n as [|n IH]; intros ip; simpl; silent. Qed.

Lemma readlink_loop_silent n ip : preserves R_silent (readlink_loop n ip).
Proof. revert ip. induction n as [|n IH]; intros ip; simpl; silent. Qed.

#[export] Hint Resolve isdirempty_silent open_symloop_silent
  readlink_loop_silent : silent.

Lemma open_rest_silent omode ip : preserves R_silent (open_rest omode ip).
Proof. unfold open_rest. silent. Qed.

#[export] Hint Resolve open_rest_silent : silent.
#[export] Hint Resolve create_quiet : quiet.

Lemma fs_ftag_quiet f key val : preserves R_quiet (fs_ftag f key val).
Proof.
  intros s a s' H. unfold fs_ftag in H. prim_cases H; [|reflexivity].
  split; [reflexivity|]. eexists. split; [simpl; reflexivity|].
  repeat constructor.
Qed.

Lemma fs_funtag_quiet f key : preserves R_quiet (fs_funtag f key).
Proof.
  intros s a s' H. unfold fs_funtag in H. prim_cases H; try reflexivity.
  split; [reflexivity|]. eexists. split; [simpl; reflexivity|].
  repeat constructor.
Qed.

Lemma fs_gettag_silent f key buf : preserves R_silent (fs_gettag f key buf).
Proof.
  intros s a s' H. unfold fs_gettag in H. prim_cases H; split; reflexivity.
Qed.

#[export] Hint Resolve fs_ftag_quiet fs_funtag_quiet : quiet.
#[export] Hint Resolve fs_gettag_silent : silent.

Ltac closes_step :=
  lazymatch goal with
  | |- closes (bind commit_trans _) => apply closes_commit; solve [silent]
  | |- closes (bind _ _) => apply closes_bind; [solve [quiet] | intros ?]
  | |- closes (panic _) => apply closes_panic
  | |- closes (if ?b then _ else _) => destruct b
  | |- closes (match ?x with _ => _ end) => destruct x
  end.

Lemma link_bad_closes ip : closes (link_bad ip).
Proof. unfold link_bad. repeat closes_step. Qed.

Lemma unlink_bad_closes dp : closes (unlink_bad dp).
Proof. unfold unlink_bad. repeat closes_step. Qed.

(** ** Running the code forward *)

Lemma bind_gets {A B} (f : kernel -> A) (k : A -> M B) s :
  bind (gets f) k s = k (f s) s.
Proof. reflexivity. Qed.

Lemma bind_ret {A B} (a : A) (k : A -> M B) s : bind (ret a) k s = k a s.
Proof. reflexivity. Qed.

Lemma bind_modify {B} (f : kernel -> kernel) (k : unit -> M B) s :
  bind (modify f) k s = k tt (f s).
Proof. reflexivity. Qed.

Lemma bind_bind {A B C} (m : M A) (k : A -> M B) (h : B -> M C) s :
  bind (bind m k) h s = bind m (fun a => bind (k a) h) s.
Proof. unfold bind. destruct (m s); reflexivity. Qed.

Lemma getino_with_log s b e j : getino (with_log s b e) j = getino s j.
Proof. reflexivity. Qed.

Lemma getino_emit e s j : getino (emit e s) j = getino s j.
Proof. reflexivity. Qed.

Lemma getino_with_ftable s t j : getino (with_ftable s t) j = getino s j.
Proof. reflexivity. Qed.

Lemma getino_with_ofile s o j : getino (with_ofile s o) j = getino s j.
Proof. reflexivity. Qed.

(** Read an inode of a state built by stores into other and the same
    inodes. *)
Ltac gi :=
  repeat first
    [ rewrite getino_with_log | rewrite getino_emit
    | rewrite getino_with_ftable | rewrite getino_with_ofile
    | rewrite getino_imod_eq | rewrite getino_iget_eq
    | rewrite getino_imod_ne by congruence
    | rewrite getino_iget_ne by congruence ];
  fields.

Lemma iput_Ok ip s :
  iput ip s = Ok tt (imod ip (fun i => set_ref (Nat.pred (i_ref i)) i) s).
Proof. reflexivity. Qed.

Lemma iupdate_Ok ip s :
  iupdate ip s = Ok tt (emit (EvIupdate ip (dinode_of (getino s ip))) s).
Proof. reflexivity. Qed.

Lemma begin_trans_Ok s :
  log_busy s = false -> begin_trans s = Ok tt (with_log s true [EvBegin]).
Proof. intros H. unfold begin_trans. rewrite H. reflexivity. Qed.

Lemma commit_trans_Ok s : commit_trans s = Ok tt (with_log s false [EvCommit]).
Proof. reflexivity. Qed.

Lemma namei_Some p s ip :
  resolve s p = Some ip -> namei p s = Ok (Some ip) (iget ip s).
Proof. intros H. unfold namei. rewrite H. reflexivity. Qed.

Lemma namei_None p s : resolve s p = None -> namei p s = Ok None s.
Proof. intros H. unfold namei. rewrite H. reflexivity. Qed.

Lemma nameiparent_Some p s dp name :
  resolve_parent s p = Some (dp, name) ->
  nameiparent p s = Ok (Some (dp, name)) (iget dp s).
Proof. intros H. unfold nameiparent. rewrite H. reflexivity. Qed.

Lemma nameiparent_None p s :
  resolve_parent s p = None -> nameiparent p s = Ok None s.
Proof. intros H. unfold nameiparent. rewrite H. reflexivity. Qed.

Lemma dirlookup_Some dp name s inum off :
  i_type (getino s dp) = T_DIR ->
  dirfind (getino s dp) name = Some (inum, off) ->
  dirlookup dp name s = Ok (Some (inum, off)) (iget inum s).
Proof.
  intros Ht Hf. unfold dirlookup. rewrite Ht, Hf. reflexivity.
Qed.

Lemma dirlookup_None dp name s :
  i_type (getino s dp) = T_DIR ->
  dirfind (getino s dp) name = None ->
  dirlookup dp name s = Ok None s.
Proof.
  intros Ht Hf. unfold dirlookup. rewrite Ht, Hf. reflexivity.
Qed.

(** ** One transaction for each call *)

Lemma opens_one_begin {A} (k : M A) : closes k -> opens_one (begin_trans ;; k).
Proof.
  intros Hk s b s' Hb H. apply bind_Ok in H as (a & s1 & H1 & H2).
  unfold begin_trans in H1. rewrite Hb in H1. inversion H1; subst.
  apply Hk in H2 as [L (mid & E & F)]. split; [exact L|].
  exists mid. split; [|exact F].
  rewrite E. simpl. rewrite <- app_assoc. reflexivity.
Qed.

Lemma no_txn_silent {A} (m : M A) s a s' :
  preserves R_silent m -> log_busy s = false -> m s = Ok a s' -> no_txn s s'.
Proof. intros Hm Hb H. apply Hm in H as [L T]. split; congruence. Qed.

Lemma argfd_fd_open fd s :
  exists a, argfd fd s = Ok a s /\ fetched a = fd_open s fd.
Proof.
  unfold argfd, fd_open. destruct fd as [z|]; [|eexists; split; reflexivity].
  destruct (Z.ltb_spec z 0), (Z.leb_spec (Z.of_nat NOFILE) z),
    (Z.leb_spec 0 z), (Z.ltb_spec z (Z.of_nat NOFILE)); try lia; cbn [orb andb];
    try (eexists; split; reflexivity).
  destruct (ofile s !! Z.to_nat z) as [[f|]|]; eexists; split; reflexivity.
Qed.

Lemma one_txn_from s1 s s' :
  R_silent s s1 -> one_txn s1 s' -> one_txn s s'.
Proof.
  intros [_ T] [L (mid & E & F)]. split; [exact L|].
  exists mid. rewrite <- T. auto.
Qed.

Lemma sys_link_one_txn o n ip s r s' :
  log_busy s = false -> resolve s o = Some ip ->
  sys_link (Some o) (Some n) s = Ok r s' -> one_txn s s'.
Proof.
  intros Hb Hr H. unfold sys_link in H.
  rewrite (bind_step _ _ _ _ _ (namei_Some _ _ _ Hr)) in H.
  apply (one_txn_from (iget ip s)); [split; reflexivity|].
  revert H. apply opens_one_begin; [|exact Hb].
  repeat closes_step; apply link_bad_closes.
Qed.

Lemma sys_unlink_one_txn p dp name s r s' :
  log_busy s = false -> resolve_parent s p = Some (dp, name) ->
  sys_unlink (Some p) s = Ok r s' -> one_txn s s'.
Proof.
  intros Hb Hr H. unfold sys_unlink in H.
  rewrite (bind_step _ _ _ _ _ (nameiparent_Some _ _ _ _ Hr)) in H.
  apply (one_txn_from (iget dp s)); [split; reflexivity|].
  revert H. apply opens_one_begin; [|exact Hb].
  repeat closes_step; try apply unlink_bad_closes.
Qed.

Lemma sys_open_one_txn p m s r s' :
  log_busy s = false -> Z.land m O_CREATE <> 0 ->
  sys_open (Some p) (Some m) s = Ok r s' -> one_txn s s'.
Proof.
  intros Hb Hm. unfold sys_open.
  destruct (Z.eqb_spec (Z.land m O_CREATE) 0) as [|_]; [contradiction|].
  cbn [negb]. apply opens_one_begin; [|exact Hb]. repeat closes_step.
Qed.

Lemma sys_open_no_txn path omode s r s' :
  log_busy s = false -> open_creates path omode = false ->
  sys_open path omode s = Ok r s' -> no_txn s s'.
Proof.
  intros Hb Hc. apply no_txn_silent; [|exact Hb].
  unfold sys_open. destruct path as [p|], omode as [m|]; try solve [silent].
  cbn [open_creates] in Hc. rewrite Hc. silent.
Qed.

Lemma sys_mkdir_opens_one path : opens_one (sys_mkdir path).
Proof. unfold sys_mkdir. apply opens_one_begin. repeat closes_step. Qed.

Lemma sys_mknod_opens_one path major minor :
  opens_one (sys_mknod path major minor).
Proof. unfold sys_mknod. apply opens_one_begin. repeat closes_step. Qed.

Lemma sys_symlink_opens_one cap t p : opens_one (sys_symlink cap (Some t) (Some p)).
Proof. unfold sys_symlink. apply opens_one_begin. repeat closes_step. Qed.

Lemma tag_call_total {A} (m : M A) s :
  log_busy s = false -> preserves R_quiet m ->
  (exists r s1, m (with_log s true [EvBegin]) = Ok r s1) ->
  exists r s', (begin_trans ;; r <- m ;; commit_trans ;; ret r) s = Ok r s' /\
               one_txn s s'.
Proof.
  intros Hb Hq (r & s1 & Hm).
  assert (E : (begin_trans ;; r <- m ;; commit_trans ;; ret r) s =
              Ok r (with_log s1 false [EvCommit])).
  { unfold bind at 1. unfold begin_trans. rewrite Hb.
    rewrite (bind_step _ _ _ _ _ Hm). reflexivity. }
  exists r, (with_log s1 false [EvCommit]). split; [exact E|].
  revert E. apply opens_one_begin; [|exact Hb]. repeat closes_step.
Qed.

Lemma sys_ftag_txn fd key val s :
  log_busy s = false -> ftag_valid s fd key val = true ->
  exists r s', sys_ftag fd key val s = Ok r s' /\ one_txn s s'.
Proof.
  intros Hb. unfold sys_ftag, ftag_valid.
  destruct (argfd_fd_open fd s) as (a & Ha & <-).
  rewrite (bind_step _ _ _ _ _ Ha).
  destruct a as [[n f]|], key as [k|], val as [v|]; cbn [fetched andb];
    try discriminate.
  intros _. apply tag_call_total; [exact Hb | auto with quiet |].
  unfold fs_ftag. destruct (tag_inode _ _); eauto.
Qed.

Lemma sys_ftag_invalid fd key val s :
  ftag_valid s fd key val = false -> sys_ftag fd key val s = Ok (-1) s.
Proof.
  unfold sys_ftag, ftag_valid.
  destruct (argfd_fd_open fd s) as (a & Ha & <-).
  rewrite (bind_step _ _ _ _ _ Ha).
  destruct a as [[n f]|], key as [k|], val as [v|]; cbn [fetched andb];
    try discriminate; reflexivity.
Qed.

Lemma sys_funtag_txn fd key s :
  log_busy s = false -> funtag_valid s fd key = true ->
  exists r s', sys_funtag fd key s = Ok r s' /\ one_txn s s'.
Proof.
  intros Hb. unfold sys_funtag, funtag_valid.
  destruct (argfd_fd_open fd s) as (a & Ha & <-).
  rewrite (bind_step _ _ _ _ _ Ha).
  destruct a as [[n f]|], key as [k|]; cbn [fetched andb]; try discriminate.
  intros _. apply tag_call_total; [exact Hb | auto with quiet |].
  unfold fs_funtag. destruct (tag_inode _ _); [destruct (tag_find _ _)|]; eauto.
Qed.

Lemma sys_funtag_invalid fd key s :
  funtag_valid s fd key = false -> sys_funtag fd key s = Ok (-1) s.
Proof.
  unfold sys_funtag, funtag_valid.
  destruct (argfd_fd_open fd s) as (a & Ha & <-).
  rewrite (bind_step _ _ _ _ _ Ha).
  destruct a as [[n f]|], key as [k|]; cbn [fetched andb];
    try discriminate; reflexivity.
Qed.

Lemma sys_gettag_txn fd key buf s :
  log_busy s = false -> ftag_valid s fd key buf = true ->
  exists r s', sys_gettag fd key buf s = Ok r s' /\ one_txn s s'.
Proof.
  intros Hb. unfold sys_gettag, ftag_valid.
  destruct (argfd_fd_open fd s) as (a & Ha & <-).
  rewrite (bind_step _ _ _ _ _ Ha).
  destruct a as [[n f]|], key as [k|], buf as [v|]; cbn [fetched andb];
    try discriminate.
  intros _. apply tag_call_total; [exact Hb | auto with quiet |].
  unfold fs_gettag. destruct (tag_inode _ _); [destruct (tag_find _ _)|]; eauto.
Qed.

Lemma sys_gettag_invalid fd key buf s :
  ftag_valid s fd key buf = false ->
  sys_gettag fd key buf s = Ok (-1, default "" buf) s.
Proof.
  unfold sys_gettag, ftag_valid.
  destruct (argfd_fd_open fd s) as (a & Ha & <-).
  rewrite (bind_step _ _ _ _ _ Ha).
  destruct a as [[n f]|], key as [k|], buf as [v|]; cbn [fetched andb];
    try discriminate; reflexivity.
Qed.

(** C2, as stated, fails for mkdir (and mknod): the transaction is opened
    before the path argument is fetched, so a call whose argument fetch
    fails has opened and committed a transaction. *)
Lemma sys_mkdir_opens_before_validation :
  sys_mkdir None fs0 =
    Ok (-1) (with_log (with_log fs0 true [EvBegin]) false [EvCommit]) /\
  ~ validates_first (sys_mkdir None).
Proof.
  split; [reflexivity|].
  intros H. specialize (H fs0 _ _ eq_refl). discriminate H.
Qed.

(** C2 (amended): started with no transaction open, a call of link,
    unlink, open with the CREATE flag, mkdir, mknod, symlink, ftag, funtag
    or gettag that passes its entry validation and returns has opened
    exactly one transaction and committed it exactly once: its events are
    one begin, durable writes, and one commit as the last event, and the
    bracket is closed; a tag call that passes its validation always
    returns.  link, unlink, open, symlink and the tag calls open the
    transaction after their entry validation: when an argument cannot be
    fetched, the old path of link or the parent of unlink does not resolve,
    or the descriptor of a tag call is out of range or not open, the call
    returns -1 with the state as it was; an open without the CREATE flag
    asks nothing of the log.  mkdir and mknod open the transaction before
    they fetch their arguments: with an argument that cannot be fetched
    they return -1 after a begin and a commit. *)
Theorem transaction_bracket s :
  log_busy s = false ->
  (forall old new,
     if link_valid s old new
     then forall r s', sys_link old new s = Ok r s' -> one_txn s s'
     else sys_link old new s = Ok (-1) s) /\
  (forall path,
     if unlink_valid s path
     then forall r s', sys_unlink path s = Ok r s' -> one_txn s s'
     else sys_unlink path s = Ok (-1) s) /\
  (forall path omode,
     if open_creates path omode
     then forall r s', sys_open path omode s = Ok r s' -> one_txn s s'
     else (forall r s', sys_open path omode s = Ok r s' -> no_txn s s') /\
          (fetched path && fetched omode = false ->
           sys_open path omode s = Ok (-1) s)) /\
  (forall path r s', sys_mkdir path s = Ok r s' -> one_txn s s') /\
  sys_mkdir None s = Ok (-1) (begin_commit s) /\
  (forall path major minor r s',
     sys_mknod path major minor s = Ok r s' -> one_txn s s') /\
  (forall path major minor,
     fetched path && fetched major && fetched minor = false ->
     sys_mknod path major minor s = Ok (-1) (begin_commit s)) /\
  (forall cap target path,
     if symlink_valid target path
     then forall r s', sys_symlink cap target path s = Ok r s' -> one_txn s s'
     else sys_symlink cap target path s = Ok (-1) s) /\
  (forall fd key val,
     if ftag_valid s fd key val
     then exists r s', sys_ftag fd key val s = Ok r s' /\ one_txn s s'
     else sys_ftag fd key val s = Ok (-1) s) /\
  (forall fd key,
     if funtag_valid s fd key
     then exists r s', sys_funtag fd key s = Ok r s' /\ one_txn s s'
     else sys_funtag fd key s = Ok (-1) s) /\
  (forall fd key buf,
     if ftag_valid s fd key buf
     then exists r s', sys_gettag fd key buf s = Ok r s' /\ one_txn s s'
     else sys_gettag fd key buf s = Ok (-1, default "" buf) s).
Proof.
  intros Hb.
  split; [|split; [|split; [|split; [|split; [|split; [|split; [|split;
    [|split; [|split]]]]]]]]].
  - intros old new. unfold link_valid.
    destruct old as [o|], new as [n|]; try reflexivity.
    destruct (resolve s o) as [ip|] eqn:Hr; cbn [fetched].
    + intros r s'. eapply sys_link_one_txn; eassumption.
    + unfold sys_link.
      rewrite (bind_step _ _ _ _ _ (namei_None _ _ Hr)). reflexivity.
  - intros path. unfold unlink_valid.
    destruct path as [p|]; try reflexivity.
    destruct (resolve_parent s p) as [[dp name]|] eqn:Hr; cbn [fetched].
    + intros r s'. eapply sys_unlink_one_txn; eassumption.
    + unfold sys_unlink.
      rewrite (bind_step _ _ _ _ _ (nameiparent_None _ _ Hr)). reflexivity.
  - intros path omode.
    destruct (open_creates path omode) eqn:Hc.
    + destruct path as [p|], omode as [m|]; try discriminate Hc.
      cbn [open_creates] in Hc. intros r s'.
      apply sys_open_one_txn; [exact Hb|].
      intros Hz. rewrite Hz in Hc. discriminate Hc.
    + split.
      * intros r s'. apply sys_open_no_txn; assumption.
      * destruct path as [p|], omode as [m|]; try discriminate; reflexivity.
  - intros path r s' H. eapply sys_mkdir_opens_one; eassumption.
  - unfold sys_mkdir, bind, begin_trans. rewrite Hb. reflexivity.
  - intros path major minor r s' H. eapply sys_mknod_opens_one; eassumption.
  - intros path major minor Hf. unfold sys_mknod, bind, begin_trans.
    rewrite Hb.
    destruct path as [p|], major as [ma|], minor as [mi|];
      try discriminate Hf; reflexivity.
  - intros cap target path. unfold symlink_valid.
    destruct target as [t|], path as [p|]; cbn [fetched andb];
      try reflexivity.
    intros r s' H. eapply sys_symlink_opens_one; eassumption.
  - intros fd key val. destruct (ftag_valid s fd key val) eqn:Hv.
    + apply sys_ftag_txn; assumption.
    + apply sys_ftag_invalid, Hv.
  - intros fd key. destruct (funtag_valid s fd key) eqn:Hv.
    + apply sys_funtag_txn; assumption.
    + apply sys_funtag_invalid, Hv.
  - intros fd key buf. destruct (ftag_valid s fd key buf) eqn:Hv.
    + apply sys_gettag_txn; assumption.
    + apply sys_gettag_invalid, Hv.
Qed.

Lemma transaction_bracket_witness :
  log_busy fs0 = false /\
  exists s', sys_unlink (Some "/d") fs0 = Ok 0 s' /\ one_txn fs0 s'.
Proof.
  split; [reflexivity|].
  eexists. split; [vm_compute; reflexivity|].
  destruct (transaction_bracket fs0 eq_refl) as (_ & H & _).
  apply (H (Some "/d") 0). vm_compute. reflexivity.
Defined.

(** ** Path resolution reads the tree only *)

#[export] Instance same_tree_preorder : PreOrder same_tree.
Proof.
  split.
  - intros s. split; [reflexivity|]. intros j. split; reflexivity.
  - intros s1 s2 s3 [C1 H1] [C2 H2]. split; [congruence|].
    intros j. destruct (H1 j), (H2 j). split; congruence.
Qed.

Lemma R_static_same_tree s s' : R_static s s' -> same_tree s s'.
Proof.
  intros [C H]. split; [exact C|]. intros j. specialize (H j).
  split.
  - change (i_type (strip (getino s' j)) = i_type (strip (getino s j))).
    rewrite H. reflexivity.
  - change (i_dents (strip (getino s' j)) = i_dents (strip (getino s j))).
    rewrite H. reflexivity.
Qed.

Lemma same_tree_imod ip f s :
  (forall i, i_type (f i) = i_type i /\ i_dents (f i) = i_dents i) ->
  same_tree s (imod ip f s).
Proof.
  intros Hf. split; [reflexivity|]. intros j. rewrite getino_imod.
  destruct (decide (ip = j)) as [<-|]; [apply Hf | split; reflexivity].
Qed.

Lemma walk_same_tree s s' ip elems :
  same_tree s s' -> walk s' ip elems = walk s ip elems.
Proof.
  intros [_ H]. revert ip. induction elems as [|name rest IH]; intros ip.
  - reflexivity.
  - simpl. unfold dirfind. destruct (H ip) as [-> ->].
    destruct (i_type (getino s ip) =? T_DIR); [|reflexivity].
    destruct (dirscan name 0 (i_dents (getino s ip))) as [[next off]|];
      [apply IH | reflexivity].
Qed.

Lemma path_start_same_tree s s' p :
  same_tree s s' -> path_start s' p = path_start s p.
Proof. intros [C _]. unfold path_start. rewrite C. reflexivity. Qed.

Lemma resolve_same_tree s s' p :
  same_tree s s' -> resolve s' p = resolve s p.
Proof.
  intros H. unfold resolve.
  rewrite (path_start_same_tree _ _ _ H). apply walk_same_tree, H.
Qed.

Lemma resolve_parent_same_tree s s' p :
  same_tree s s' -> resolve_parent s' p = resolve_parent s p.
Proof.
  intros H. unfold resolve_parent.
  destruct (unsnoc (path_elems p)) as [[init name]|]; [|reflexivity].
  rewrite (path_start_same_tree _ _ _ H), (walk_same_tree _ _ _ _ H).
  destruct (walk s (path_start s p) init) as [dp|]; [|reflexivity].
  destruct H as [_ H]. destruct (H dp) as [-> _]. reflexivity.
Qed.

Lemma resolve_parent_is_dir s p dp name :
  resolve_parent s p = Some (dp, name) -> i_type (getino s dp) = T_DIR.
Proof.
  unfold resolve_parent.
  destruct (unsnoc (path_elems p)) as [[init n]|]; [|discriminate].
  destruct (walk s (path_start s p) init) as [d|]; [|discriminate].
  destruct (Z.eqb_spec (i_type (getino s d)) T_DIR); [|discriminate].
  intros H. inversion H; subst. assumption.
Qed.

(** ** Link counts of a failed link *)

Tactic Notation "inv_bind" hyp(H) :=
  let a := fresh "a" in
  let s := fresh "s" in
  let E := fresh "E" in
  apply bind_Ok in H as (a & s & E & H).

Tactic Notation "inv_bind" hyp(H) "as" ident(a) ident(s) ident(E) :=
  apply bind_Ok in H as (a & s & E & H).

Lemma wrap16_inc_dec n :
  in_short n = true -> wrap16 (wrap16 (n + 1) - 1) = n.
Proof.
  unfold in_short, wrap16. intros H.
  apply andb_true_iff in H as [H1 H2].
  apply Z.leb_le in H1, H2.
  destruct (Z.eq_dec n 32767) as [->|Hn]; [reflexivity|].
  rewrite (Z.mod_small (n + 1 + 32768)) by lia.
  replace (n + 1 + 32768 - 32768 - 1 + 32768) with (n + 32768) by lia.
  rewrite Z.mod_small by lia. lia.
Qed.

Lemma static_nlink s s' j :
  R_static s s' -> i_nlink (getino s' j) = i_nlink (getino s j).
Proof.
  intros [_ H].
  change (i_nlink (strip (getino s' j)) = i_nlink (strip (getino s j))).
  rewrite H. reflexivity.
Qed.

Lemma static_type s s' j :
  R_static s s' -> i_type (getino s' j) = i_type (getino s j).
Proof.
  intros [_ H].
  change (i_type (strip (getino s' j)) = i_type (strip (getino s j))).
  rewrite H. reflexivity.
Qed.

Lemma link_bad_nlink ip s r s' :
  link_bad ip s = Ok r s' ->
  r = -1 /\
  forall j, i_nlink (getino s' j) =
            if decide (ip = j) then wrap16 (i_nlink (getino s ip) - 1)
            else i_nlink (getino s j).
Proof.
  unfold link_bad. intros H.
  inv_bind H. apply ilock_static in E.
  rewrite bind_modify in H.
  assert (T : preserves R_static
            (iupdate ip;; iunlockput ip;; commit_trans;; ret (-1)))
    by static.
  assert (r = -1) as ->.
  { repeat inv_bind H. inversion H. reflexivity. }
  apply T in H. split; [reflexivity|]. intros j.
  rewrite (static_nlink _ _ j H), getino_imod.
  destruct (decide (ip = j)) as [<-|].
  - fields. rewrite (static_nlink _ _ ip E). reflexivity.
  - apply static_nlink, E.
Qed.

Lemma dirlink_fail_static dp name inum s n s' :
  dirlink dp name inum s = Ok n s' -> n < 0 -> R_static s s'.
Proof.
  unfold dirlink. intros H Hn. inv_bind H.
  apply dirlookup_static in E. destruct a as [[x off]|].
  - transitivity s0; [exact E|].
    assert (T : preserves R_static (iput x;; ret (-1))) by static.
    eapply T, H.
  - rewrite bind_gets in H. inv_bind H.
    destruct (a =? DESZ); [|discriminate].
    inversion H; subst. lia.
Qed.

Lemma sys_link_fail_nlink s old new ip r s' :
  resolve s old = Some ip ->
  in_short (i_nlink (getino s ip)) = true ->
  sys_link (Some old) (Some new) s = Ok r s' -> r < 0 ->
  forall j, i_nlink (getino s' j) = i_nlink (getino s j).
Proof.
  intros Hr Hs H Hneg. unfold sys_link in H.
  rewrite (bind_step _ _ _ _ _ (namei_Some _ _ _ Hr)) in H.
  pose proof (iget_static ip s) as S1.
  inv_bind H as u1 s1 E1. apply begin_trans_static in E1.
  inv_bind H as u2 s2 E2. apply ilock_static in E2.
  assert (S3 : R_static s s2)
    by (etransitivity; [exact S1|]; etransitivity; eassumption).
  clear S1 E1 E2.
  rewrite bind_gets in H.
  destruct (i_type (getino s2 ip) =? T_DIR).
  { assert (T : preserves R_static (iunlockput ip;; commit_trans;; ret (-1)))
      by static.
    apply T in H. intros j. apply static_nlink. etransitivity; eassumption. }
  rewrite bind_modify in H.
  inv_bind H as u3 s3 E3. apply iupdate_static in E3.
  inv_bind H as u4 s4 E4. apply iunlock_static in E4.
  inv_bind H as par s5 E5. apply nameiparent_static in E5.
  assert (S6 : R_static (imod ip nlink_inc s2) s5)
    by (etransitivity; [exact E3|]; etransitivity; eassumption).
  clear E3 E4 E5.
  assert (Fin : forall sa, R_static s5 sa -> link_bad ip sa = Ok r s' ->
            forall j, i_nlink (getino s' j) = i_nlink (getino s j)).
  { intros sa Sa Hb j. apply link_bad_nlink in Hb as [_ Hb]. rewrite Hb.
    assert (Sx : R_static (imod ip nlink_inc s2) sa)
      by (etransitivity; eassumption).
    destruct (decide (ip = j)) as [<-|Hne].
    - rewrite (static_nlink _ _ ip Sx). gi.
      rewrite (static_nlink _ _ ip S3). apply wrap16_inc_dec, Hs.
    - rewrite (static_nlink _ _ j Sx). gi. apply static_nlink, S3. }
  destruct par as [[dp name]|]; [|eapply Fin; [reflexivity | exact H]].
  inv_bind H as u6 s6 E6. apply ilock_static in E6.
  rewrite !bind_gets in H.
  destruct (negb (i_dev (getino s6 dp) =? i_dev (getino s6 ip))).
  { inv_bind H as u7 s7 E7. apply iunlockput_static in E7.
    eapply Fin; [|exact H]. etransitivity; eassumption. }
  inv_bind H as n s7 E7. destruct (Z.ltb_spec n 0) as [Hlt|Hge].
  - apply dirlink_fail_static in E7; [|exact Hlt].
    inv_bind H as u8 s8 E8. apply iunlockput_static in E8.
    eapply Fin; [|exact H].
    etransitivity; [exact E6|]. etransitivity; eassumption.
  - repeat inv_bind H. inversion H; subst. lia.
Qed.

(** Run one step whose result is known. *)
Ltac side :=
  gi;
  first [ eassumption | reflexivity | congruence | lia
        | match goal with
          | H : ?x = _ |- ?x <> _ => rewrite H; discriminate
          end ].

Ltac run lem :=
  erewrite bind_step by (apply lem; side);
  cbv beta iota.

Lemma set_ref_pred_S i :
  set_ref (Nat.pred (S (i_ref i))) i = i.
Proof. destruct i; reflexivity. Qed.

Lemma sys_link_dir s old new ip :
  resolve s old = Some ip ->
  i_type (getino s ip) = T_DIR ->
  i_locked (getino s ip) = false ->
  log_busy s = false ->
  exists s',
    sys_link (Some old) (Some new) s = Ok (-1) s' /\
    trace s' = trace s ++ [EvBegin; EvCommit] /\
    forall j, getino s' j = getino s j.
Proof.
  intros Hr Ht Hl Hb. eexists. split; [|split].
  - unfold sys_link.
    run namei_Some. run begin_trans_Ok. run ilock_Ok.
    rewrite bind_gets. gi. rewrite Ht, Z.eqb_refl.
    run iunlockput_Ok. run commit_trans_Ok. reflexivity.
  - simpl. rewrite <- app_assoc. reflexivity.
  - intros j. destruct (decide (ip = j)) as [<-|Hne]; gi; [|reflexivity].
    rewrite <- Hl. destruct (getino s ip); reflexivity.
Qed.

Lemma link_bad_run ip s :
  i_ref (getino s ip) <> 0%nat ->
  i_locked (getino s ip) = false ->
  i_type (getino s ip) <> 0 ->
  exists s',
    link_bad ip s = Ok (-1) s' /\
    trace s' =
      trace s ++ [EvIupdate ip (dinode_of (nlink_dec (getino s ip))); EvCommit] /\
    forall j, getino s' j =
              if decide (ip = j)
              then set_ref (Nat.pred (i_ref (getino s ip))) (nlink_dec (getino s ip))
              else getino s j.
Proof.
  intros Hr Hl Ht. eexists. split; [|split].
  - unfold link_bad. run ilock_Ok. rewrite bind_modify.
    run iupdate_Ok. run iunlockput_Ok. run commit_trans_Ok. reflexivity.
  - simpl. rewrite <- app_assoc. gi. reflexivity.
  - intros j. destruct (decide (ip = j)) as [<-|Hne]; gi; [|reflexivity].
    rewrite <- Hl. destruct (getino s ip); reflexivity.
Qed.

Ltac run_with lem tac :=
  erewrite bind_step by (apply lem; gi; tac; side);
  cbv beta iota.

Lemma getino_iput_iget x s j :
  getino (imod x (fun i => set_ref (Nat.pred (i_ref i)) i) (iget x s)) j =
  getino s j.
Proof.
  destruct (decide (x = j)) as [<-|Hne]; gi; [|reflexivity].
  destruct (getino s x); reflexivity.
Qed.

Lemma unlocked_roundtrip i :
  i_locked i = false ->
  set_ref (Nat.pred (S (i_ref i)))
    (set_locked false (set_locked true (set_ref (S (i_ref i)) i))) = i.
Proof. intros H. destruct i. cbn in *. subst. reflexivity. Qed.

Lemma dirlink_exists dp name inum s x off :
  i_type (getino s dp) = T_DIR ->
  dirfind (getino s dp) name = Some (x, off) ->
  dirlink dp name inum s =
  Ok (-1) (imod x (fun i => set_ref (Nat.pred (i_ref i)) i) (iget x s)).
Proof.
  intros Ht Hf. unfold dirlink.
  rewrite (bind_step _ _ _ _ _ (dirlookup_Some _ _ _ _ _ Ht Hf)).
  reflexivity.
Qed.

Lemma inode_restore i :
  in_short (i_nlink i) = true ->
  i_locked i = false ->
  let x := set_locked false (nlink_inc (set_ref (S (i_ref i)) i)) in
  set_ref (Nat.pred (i_ref x)) (nlink_dec x) = i.
Proof.
  intros Hs Hl. destruct i. cbn in *. unfold nlink_dec, nlink_inc. cbn.
  rewrite (wrap16_inc_dec _ Hs). subst. reflexivity.
Qed.

Lemma sys_link_late_failure s old new ip :
  resolve s old = Some ip ->
  in_short (i_nlink (getino s ip)) = true ->
  i_type (getino s ip) <> T_DIR ->
  i_type (getino s ip) <> 0 ->
  i_locked (getino s ip) = false ->
  log_busy s = false ->
  (resolve_parent s new = None \/
   exists dp name,
     resolve_parent s new = Some (dp, name) /\
     i_locked (getino s dp) = false /\
     (i_dev (getino s dp) <> i_dev (getino s ip) \/
      exists x off, dirfind (getino s dp) name = Some (x, off))) ->
  exists s',
    sys_link (Some old) (Some new) s = Ok (-1) s' /\
    trace s' =
      trace s ++ [EvBegin;
                  EvIupdate ip (dinode_of (nlink_inc (getino s ip)));
                  EvIupdate ip (dinode_of (getino s ip));
                  EvCommit] /\
    forall j, getino s' j = getino s j.
Proof.
  intros Hr Hs Htd Ht0 Hl Hb Hcase.
  set (s6 := imod ip (set_locked false)
               (emit (EvIupdate ip (dinode_of (nlink_inc (getino s ip))))
                  (imod ip nlink_inc
                     (imod ip (set_locked true)
                        (with_log (iget ip s) true [EvBegin]))))).
  assert (Epre : sys_link (Some old) (Some new) s =
                 (r <- nameiparent new ;;
                  match r with
                  | Some (dp, name) =>
                      ilock dp;;
                      d <- gets (fun s0 => getino s0 dp);;
                      i <- gets (fun s0 => getino s0 ip);;
                      (if negb (i_dev d =? i_dev i)
                       then iunlockput dp;; link_bad ip
                       else
                         n <- dirlink dp name ip;;
                         (if n <? 0
                          then iunlockput dp;; link_bad ip
                          else iunlockput dp;; iput ip;; commit_trans;; ret 0))
                  | None => link_bad ip
                  end) s6).
  { unfold sys_link.
    run namei_Some. run begin_trans_Ok. run ilock_Ok.
    rewrite bind_gets. gi.
    destruct (Z.eqb_spec (i_type (getino s ip)) T_DIR); [contradiction|].
    rewrite bind_modify. run iupdate_Ok. run iunlock_Ok.
    gi. unfold s6. destruct (getino s ip); reflexivity. }
  assert (Tr : same_tree s s6).
  { split; [reflexivity|]. intros j. unfold s6.
    destruct (decide (ip = j)) as [<-|Hne]; gi; split; reflexivity. }
  assert (G6 : getino s6 ip =
               set_locked false (nlink_inc (set_ref (S (i_ref (getino s ip)))
                                              (getino s ip)))).
  { unfold s6. gi. reflexivity. }
  assert (O6 : forall j, ip <> j -> getino s6 j = getino s j).
  { intros j Hne. unfold s6. gi. reflexivity. }
  assert (T6 : trace s6 = trace s ++ [EvBegin;
                 EvIupdate ip (dinode_of (nlink_inc (getino s ip)))]).
  { unfold s6. simpl. rewrite <- app_assoc. reflexivity. }
  assert (Fin : forall sa,
            trace sa = trace s6 ->
            (forall j, getino sa j = getino s6 j) ->
            exists s', link_bad ip sa = Ok (-1) s' /\
              trace s' = trace s ++ [EvBegin;
                  EvIupdate ip (dinode_of (nlink_inc (getino s ip)));
                  EvIupdate ip (dinode_of (getino s ip));
                  EvCommit] /\
              forall j, getino s' j = getino s j).
  { intros sa Ta Ga.
    destruct (link_bad_run ip sa) as (s' & E & T & G).
    - rewrite Ga, G6. fields. lia.
    - rewrite Ga, G6. reflexivity.
    - rewrite Ga, G6. exact Ht0.
    - exists s'. split; [exact E|]. split.
      + rewrite T, Ta, T6, <- app_assoc, Ga, G6. simpl.
        unfold dinode_of. fields.
        rewrite (wrap16_inc_dec _ Hs). reflexivity.
      + intros j. rewrite G. destruct (decide (ip = j)) as [<-|Hne].
        * rewrite Ga, G6. apply (inode_restore _ Hs Hl).
        * rewrite Ga. apply O6, Hne. }
  rewrite Epre.
  destruct Hcase as [Hnone | (dp & name & Hpar & Hdl & Hwhy)].
  - rewrite <- (resolve_parent_same_tree _ _ _ Tr) in Hnone.
    run nameiparent_None. apply Fin; reflexivity.
  - pose proof (resolve_parent_is_dir _ _ _ _ Hpar) as Hdt.
    assert (Hne : ip <> dp) by congruence.
    rewrite <- (resolve_parent_same_tree _ _ _ Tr) in Hpar.
    run nameiparent_Some.
    assert (Gd : getino (iget dp s6) dp =
                 set_ref (S (i_ref (getino s dp))) (getino s dp)).
    { gi. rewrite O6 by exact Hne. reflexivity. }
    assert (Ld : i_locked (getino s6 dp) = false)
      by (rewrite O6 by exact Hne; exact Hdl).
    run_with ilock_Ok ltac:(rewrite ?O6 by congruence).
    rewrite !bind_gets. gi. rewrite G6, (O6 dp Hne). fields.
    assert (Back : forall sm,
              (forall j, getino sm j =
                         getino (imod dp (set_locked true) (iget dp s6)) j) ->
              forall j,
                getino (imod dp (fun i => set_ref (Nat.pred (i_ref i)) i)
                          (imod dp (set_locked false) sm)) j = getino s6 j).
    { intros sm Hsm j. destruct (decide (dp = j)) as [<-|Hnj].
      - rewrite !getino_imod_eq, Hsm. gi. apply unlocked_roundtrip, Ld.
      - rewrite !getino_imod_ne by exact Hnj. rewrite Hsm. gi. reflexivity. }
    destruct (Z.eqb_spec (i_dev (getino s dp)) (i_dev (getino s ip)))
      as [Hdev|Hdev]; cbn [negb].
    + destruct Hwhy as [Hx | (x & off & Hx)]; [contradiction|].
      erewrite bind_step
        by (apply dirlink_exists with (x := x) (off := off);
            gi; rewrite ?O6 by congruence; unfold dirfind in *; fields;
            assumption).
      change (-1 <? 0) with true. cbv beta iota.
      run_with iunlockput_Ok ltac:(rewrite ?getino_iput_iget; gi; rewrite ?O6 by congruence).
      apply Fin; [reflexivity|].
      apply Back. intros j. apply getino_iput_iget.
    + run_with iunlockput_Ok ltac:(rewrite ?O6 by congruence).
      apply Fin; [reflexivity|]. apply Back. reflexivity.
Qed.

(** C3: for link(old, new) with old resolving to the inode ip: when ip is
    a directory the call returns -1 and changes no inode; every call that
    returns a negative value leaves the link_count of every inode as it
    was; and when the call fails after the increment (no parent for new, a
    parent on another device, or the name present in the parent) it
    returns -1 after persisting the increment and its compensating
    decrement inside the one transaction, every inode being as before. *)
Theorem sys_link_failure_compensated s old new ip :
  resolve s old = Some ip ->
  in_short (i_nlink (getino s ip)) = true ->
  i_locked (getino s ip) = false ->
  log_busy s = false ->
  (i_type (getino s ip) = T_DIR ->
   exists s',
     sys_link (Some old) (Some new) s = Ok (-1) s' /\
     trace s' = trace s ++ [EvBegin; EvCommit] /\
     forall j, getino s' j = getino s j) /\
  (forall r s',
     sys_link (Some old) (Some new) s = Ok r s' -> r < 0 ->
     forall j, i_nlink (getino s' j) = i_nlink (getino s j)) /\
  (i_type (getino s ip) <> T_DIR ->
   i_type (getino s ip) <> 0 ->
   (resolve_parent s new = None \/
    exists dp name,
      resolve_parent s new = Some (dp, name) /\
      i_locked (getino s dp) = false /\
      (i_dev (getino s dp) <> i_dev (getino s ip) \/
       exists x off, dirfind (getino s dp) name = Some (x, off))) ->
   exists s',
     sys_link (Some old) (Some new) s = Ok (-1) s' /\
     trace s' =
       trace s ++ [EvBegin;
                   EvIupdate ip (dinode_of (nlink_inc (getino s ip)));
                   EvIupdate ip (dinode_of (getino s ip));
                   EvCommit] /\
     forall j, getino s' j = getino s j).
Proof.
  intros Hr Hs Hl Hb. split; [|split].
  - intros Ht. apply (sys_link_dir s old new ip); assumption.
  - intros r s' H Hneg. eapply sys_link_fail_nlink; eassumption.
  - intros Htd Ht0 Hcase. apply sys_link_late_failure; assumption.
Qed.

Lemma sys_link_failure_compensated_witness :
  (exists s',
     sys_link (Some "/d") (Some "/g") fs0 = Ok (-1) s' /\
     trace s' = trace fs0 ++ [EvBegin; EvCommit] /\
     forall j, getino s' j = getino fs0 j) /\
  (exists s',
     sys_link (Some "/f") (Some "/a") fs0 = Ok (-1) s' /\
     trace s' =
       trace fs0 ++ [EvBegin;
                     EvIupdate 2 (dinode_of (nlink_inc (getino fs0 2)));
                     EvIupdate 2 (dinode_of (getino fs0 2));
                     EvCommit] /\
     forall j, getino s' j = getino fs0 j).
Proof.
  split.
  - apply (sys_link_failure_compensated fs0 "/d" "/g" 3%nat);
      vm_compute; reflexivity.
  - apply (sys_link_failure_compensated fs0 "/f" "/a" 2%nat);
      try (vm_compute; reflexivity).
    + vm_compute. discriminate.
    + vm_compute. discriminate.
    + right. exists 1%nat, "a". split; [vm_compute; reflexivity|].
      split; [vm_compute; reflexivity|].
      right. exists 4%nat, 64. vm_compute. reflexivity.
Defined.

(** ** Removing a directory *)

Lemma isdirempty_from_sized fuel d k s :
  i_size d = DESZ * Z.of_nat (length (i_dents d)) ->
  (length (i_dents d) - k < fuel)%nat ->
  isdirempty_from fuel d (DESZ * Z.of_nat k) s =
  Ok (if only_free (drop k (i_dents d)) then 1 else 0) s.
Proof.
  intros Hsz. revert k. induction fuel as [|fuel IH]; intros k Hf; [lia|].
  simpl. rewrite Hsz. unfold DESZ in *.
  destruct (Z.ltb_spec (16 * Z.of_nat k) (16 * Z.of_nat (length (i_dents d))))
    as [Hlt|Hge].
  - assert (Hk : (k < length (i_dents d))%nat) by lia.
    destruct (lookup_lt_is_Some_2 _ _ Hk) as [de Hde].
    rewrite (drop_S _ _ _ Hde). unfold readi_de. rewrite Hsz. unfold DESZ.
    destruct (Z.ltb_spec (16 * Z.of_nat k) 0); [lia|].
    destruct (Z.ltb_spec (16 * Z.of_nat (length (i_dents d))) (16 * Z.of_nat k));
      [lia|].
    cbn [orb].
    rewrite Z.min_l by lia. rewrite Z.eqb_refl. cbn [negb].
    replace (Z.to_nat (16 * Z.of_nat k / 16)) with k
      by (rewrite Z.mul_comm, Z.div_mul by lia; lia).
    rewrite (nth_lookup_Some _ _ _ _ Hde).
    cbn [only_free forallb].
    destruct (de_inum de =? 0)%nat; cbn [negb andb]; [|reflexivity].
    replace (16 * Z.of_nat k + 16) with (16 * Z.of_nat (S k)) by lia.
    apply IH. lia.
  - rewrite drop_ge by lia. reflexivity.
Qed.

Lemma isdirempty_sized ip s :
  dir_sized (getino s ip) = true ->
  isdirempty ip s =
  Ok (if only_free (drop 2 (i_dents (getino s ip))) then 1 else 0) s.
Proof.
  unfold dir_sized. intros H. apply Z.eqb_eq in H.
  unfold isdirempty. rewrite bind_gets.
  change (2 * DESZ) with (DESZ * Z.of_nat 2).
  apply isdirempty_from_sized; [exact H|].
  rewrite H. unfold DESZ. lia.
Qed.

Lemma dirscan_bounds name o des x off :
  dirscan name o des = Some (x, off) ->
  exists k, off = o + DESZ * Z.of_nat k /\ (k < length des)%nat.
Proof.
  revert o. induction des as [|de rest IH]; intros o; simpl; [discriminate|].
  destruct (negb (de_inum de =? 0)%nat && namecmp name (de_name de)).
  - intros H. inversion H; subst. exists 0%nat. split; [lia|]. lia.
  - intros H. apply IH in H as (k & -> & Hk). exists (S k).
    split; [unfold DESZ; lia | lia].
Qed.

Section UnlinkDirectory.
Variables (s : kernel) (path : string) (dp ip : nat) (name : string)
          (off : Z).
Hypothesis Hpar : resolve_parent s path = Some (dp, name).
Hypothesis Hdot : namecmp name "." = false.
Hypothesis Hdotdot : namecmp name ".." = false.
Hypothesis Hfind : dirfind (getino s dp) name = Some (ip, off).
Hypothesis Hne : ip <> dp.
Hypothesis Hdir : i_type (getino s ip) = T_DIR.
Hypothesis Hnl : 1 <= i_nlink (getino s ip).
Hypothesis Hldp : i_locked (getino s dp) = false.
Hypothesis Hlip : i_locked (getino s ip) = false.
Hypothesis Hidle : log_busy s = false.
Hypothesis Hsip : dir_sized (getino s ip) = true.

(** The state in which sys_unlink tests the directory for emptiness. *)
Let s5 : kernel :=
  imod ip (set_locked true)
    (iget ip (imod dp (set_locked true)
                (with_log (iget dp s) true [EvBegin]))).

Lemma unlink_prefix :
  sys_unlink (Some path) s =
  (e <- isdirempty ip ;;
   if (T_DIR =? T_DIR) && (e =? 0) then iunlockput ip ;; unlink_bad dp
   else
     n <- writei_de dp off zero_dirent ;;
     if negb (n =? DESZ) then panic "unlink: writei"
     else
       i <- gets (fun s => getino s ip) ;;
       (if i_type i =? T_DIR then
          modify (imod dp nlink_dec) ;;
          iupdate dp
        else ret tt) ;;
       iunlockput dp ;;
       modify (imod ip nlink_dec) ;;
       iupdate ip ;;
       iunlockput ip ;;
       commit_trans ;;
       ret 0) s5.
Proof.
  pose proof (resolve_parent_is_dir _ _ _ _ Hpar) as Hdt.
  unfold sys_unlink.
  run nameiparent_Some. run begin_trans_Ok. run ilock_Ok.
  rewrite Hdot, Hdotdot. cbn [orb]. cbv iota.
  erewrite bind_step
    by (apply dirlookup_Some with (inum := ip) (off := off);
        gi; unfold dirfind in *; fields; assumption).
  cbv beta iota.
  run ilock_Ok.
  rewrite bind_gets. gi.
  destruct (Z.ltb_spec (i_nlink (getino s ip)) 1); [lia|].
  rewrite Hdir. rewrite (Z.eqb_refl T_DIR). reflexivity.
Qed.

Lemma s5_ip :
  getino s5 ip =
  set_locked true (set_ref (S (i_ref (getino s ip))) (getino s ip)).
Proof. unfold s5. gi. reflexivity. Qed.

Lemma s5_dp :
  getino s5 dp =
  set_locked true (set_ref (S (i_ref (getino s dp))) (getino s dp)).
Proof. unfold s5. gi. reflexivity. Qed.

Lemma s5_other j : j <> ip -> j <> dp -> getino s5 j = getino s j.
Proof. intros H1 H2. unfold s5. gi. reflexivity. Qed.

Lemma s5_isdirempty :
  isdirempty ip s5 =
  Ok (if only_free (drop 2 (i_dents (getino s ip))) then 1 else 0) s5.
Proof.
  rewrite isdirempty_sized; rewrite s5_ip; fields; [reflexivity|].
  exact Hsip.
Qed.

Lemma sys_unlink_nonempty :
  only_free (drop 2 (i_dents (getino s ip))) = false ->
  exists s',
    sys_unlink (Some path) s = Ok (-1) s' /\
    trace s' = trace s ++ [EvBegin; EvCommit] /\
    forall j, getino s' j = getino s j.
Proof.
  intros Hfull. rewrite unlink_prefix.
  rewrite (bind_step _ _ _ _ _ s5_isdirempty). rewrite Hfull.
  rewrite Z.eqb_refl. cbn [andb]. change (0 =? 0) with true. cbv iota.
  eexists. split; [|split].
  - erewrite bind_step by (apply iunlockput_Ok; rewrite s5_ip; fields; [lia|reflexivity]).
    unfold unlink_bad.
    erewrite bind_step
      by (apply iunlockput_Ok; gi; rewrite s5_dp; fields; [lia|reflexivity]).
    run commit_trans_Ok. reflexivity.
  - simpl. rewrite <- app_assoc. reflexivity.
  - intros j. destruct (decide (j = dp)) as [->|Hjd].
    + gi. rewrite s5_dp. fields. apply unlocked_roundtrip, Hldp.
    + destruct (decide (j = ip)) as [->|Hji].
      * gi. rewrite s5_ip. fields. apply unlocked_roundtrip, Hlip.
      * gi. apply s5_other; assumption.
Qed.

Hypothesis Hsdp : dir_sized (getino s dp) = true.

Lemma unlink_off_bounds :
  0 <= off /\ off + DESZ <= i_size (getino s dp) /\
  (Z.to_nat (off / DESZ) < length (i_dents (getino s dp)))%nat.
Proof.
  unfold dirfind in Hfind. apply dirscan_bounds in Hfind as (k & -> & Hk).
  unfold dir_sized in Hsdp. apply Z.eqb_eq in Hsdp. rewrite Hsdp.
  unfold DESZ.
  replace ((0 + 16 * Z.of_nat k) / 16) with (Z.of_nat k)
    by (apply Z.div_unique with (r := 0); lia).
  lia.
Qed.

Lemma sys_unlink_empty :
  only_free (drop 2 (i_dents (getino s ip))) = true ->
  exists s',
    sys_unlink (Some path) s = Ok 0 s' /\
    trace s' =
      trace s ++
      [EvBegin; EvDirWrite dp off zero_dirent;
       EvIupdate dp (dinode_of (nlink_dec (getino s dp)));
       EvIupdate ip (dinode_of (nlink_dec (getino s ip)));
       EvCommit] /\
    i_dents (getino s' dp) =
      <[Z.to_nat (off / DESZ) := zero_dirent]> (i_dents (getino s dp)) /\
    i_nlink (getino s' dp) = wrap16 (i_nlink (getino s dp) - 1) /\
    i_nlink (getino s' ip) = wrap16 (i_nlink (getino s ip) - 1).
Proof.
  intros Hempty. destruct unlink_off_bounds as (Ho1 & Ho2 & Ho3).
  assert (HD : DESZ = 16) by reflexivity.
  rewrite unlink_prefix.
  rewrite (bind_step _ _ _ _ _ s5_isdirempty). rewrite Hempty.
  rewrite Z.eqb_refl. change (1 =? 0) with false. cbn [andb]. cbv iota.
  assert (W : writei_de dp off zero_dirent s5 =
              Ok DESZ
                (emit (EvDirWrite dp off zero_dirent)
                   (imod dp
                      (set_dents
                         (<[Z.to_nat (off / DESZ) := zero_dirent]>
                            (i_dents (getino s dp)))) s5))).
  { unfold writei_de. cbv zeta. rewrite s5_dp. fields.
    destruct (Z.ltb_spec off 0); [lia|].
    destruct (Z.ltb_spec (i_size (getino s dp)) off); [lia|].
    cbn [orb]. cbv iota.
    destruct (Z.ltb_spec (i_size (getino s dp)) (off + DESZ)); [lia|].
    unfold put_dent.
    destruct (Nat.ltb_spec (Z.to_nat (off / DESZ))
                (length (i_dents (getino s dp)))); [reflexivity | lia]. }
  rewrite (bind_step _ _ _ _ _ W). rewrite Z.eqb_refl. cbn [negb]. cbv iota.
  rewrite bind_gets. gi. rewrite s5_ip. fields. rewrite Hdir, Z.eqb_refl.
  eexists. split; [|split; [|split; [|split]]].
  - rewrite bind_bind. rewrite bind_modify.
    run iupdate_Ok.
    erewrite bind_step
      by (apply iunlockput_Ok; gi; rewrite s5_dp; fields; [lia|reflexivity]).
    rewrite bind_modify. run iupdate_Ok.
    erewrite bind_step
      by (apply iunlockput_Ok; gi; rewrite s5_ip; fields; [lia|reflexivity]).
    run commit_trans_Ok. reflexivity.
  - simpl. rewrite <- !app_assoc. simpl. gi. rewrite s5_dp, s5_ip.
    reflexivity.
  - gi. reflexivity.
  - gi. rewrite s5_dp. reflexivity.
  - gi. rewrite s5_ip. reflexivity.
Qed.
End UnlinkDirectory.

(** C4: unlink of a name that the parent directory dp maps to the
    directory ip.  When every entry of ip past the two reserved slots is
    free, the call returns 0: the entry of dp is zeroed and both link
    counts are decremented, all inside one transaction.  When some entry
    past the two slots is in use, the call returns -1 and every inode is as
    before, with its content and its link_count; the transaction has no
    durable event. *)
Theorem sys_unlink_directory s path dp ip name off :
  resolve_parent s path = Some (dp, name) ->
  namecmp name "." = false ->
  namecmp name ".." = false ->
  dirfind (getino s dp) name = Some (ip, off) ->
  ip <> dp ->
  i_type (getino s ip) = T_DIR ->
  1 <= i_nlink (getino s ip) ->
  i_locked (getino s dp) = false ->
  i_locked (getino s ip) = false ->
  log_busy s = false ->
  dir_sized (getino s ip) = true ->
  dir_sized (getino s dp) = true ->
  (only_free (drop 2 (i_dents (getino s ip))) = true ->
   exists s',
     sys_unlink (Some path) s = Ok 0 s' /\
     trace s' =
       trace s ++
       [EvBegin; EvDirWrite dp off zero_dirent;
        EvIupdate dp (dinode_of (nlink_dec (getino s dp)));
        EvIupdate ip (dinode_of (nlink_dec (getino s ip)));
        EvCommit] /\
     i_dents (getino s' dp) =
       <[Z.to_nat (off / DESZ) := zero_dirent]> (i_dents (getino s dp)) /\
     i_nlink (getino s' dp) = wrap16 (i_nlink (getino s dp) - 1) /\
     i_nlink (getino s' ip) = wrap16 (i_nlink (getino s ip) - 1)) /\
  (only_free (drop 2 (i_dents (getino s ip))) = false ->
   exists s',
     sys_unlink (Some path) s = Ok (-1) s' /\
     trace s' = trace s ++ [EvBegin; EvCommit] /\
     forall j, getino s' j = getino s j).
Proof.
  intros. split; intros.
  - apply (sys_unlink_empty s path dp ip name off); assumption.
  - apply (sys_unlink_nonempty s path dp ip name off); assumption.
Qed.

Lemma sys_unlink_directory_witness :
  (exists s',
     sys_unlink (Some "/d") fs0 = Ok 0 s' /\
     trace s' =
       trace fs0 ++
       [EvBegin; EvDirWrite 1 48 zero_dirent;
        EvIupdate 1 (dinode_of (nlink_dec (getino fs0 1)));
        EvIupdate 3 (dinode_of (nlink_dec (getino fs0 3)));
        EvCommit] /\
     i_dents (getino s' 1) =
       <[Z.to_nat (48 / DESZ) := zero_dirent]> (i_dents (getino fs0 1)) /\
     i_nlink (getino s' 1) = wrap16 (i_nlink (getino fs0 1) - 1) /\
     i_nlink (getino s' 3) = wrap16 (i_nlink (getino fs0 3) - 1)) /\
  (exists s',
     sys_unlink (Some "/e") fs0 = Ok (-1) s' /\
     trace s' = trace fs0 ++ [EvBegin; EvCommit] /\
     forall j, getino s' j = getino fs0 j).
Proof.
  split.
  - apply (sys_unlink_directory fs0 "/d" 1%nat 3%nat "d" 48);
      try (vm_compute; reflexivity).
    + discriminate.
    + vm_compute. discriminate.
  - apply (sys_unlink_directory fs0 "/e" 1%nat 6%nat "e" 96);
      try (vm_compute; reflexivity).
    + discriminate.
    + vm_compute. discriminate.
Defined.

(** ** create on a name that exists *)

Section CreateExisting.
Variables (s : kernel) (path : string) (dp ip : nat) (name : string) (off : Z).
Variables (type major minor : Z).
Hypothesis Hpar : resolve_parent s path = Some (dp, name).
Hypothesis Hfind : dirfind (getino s dp) name = Some (ip, off).
Hypothesis Hldp : i_locked (getino s dp) = false.
Hypothesis Hlip : i_locked (getino s ip) = false.
Hypothesis Htip : i_type (getino s ip) <> 0.

Local Abbreviation s4 := (create_found dp ip s).

Lemma create_prefix :
  create path type major minor s =
  (if (type =? T_FILE) && (i_type (getino s ip) =? T_FILE)
   then ret (Some ip)
   else iunlockput ip ;; ret None) s4.
Proof.
  pose proof (resolve_parent_is_dir _ _ _ _ Hpar) as Hdt.
  unfold create.
  run nameiparent_Some. run ilock_Ok.
  erewrite bind_step
    by (apply dirlookup_Some with (inum := ip) (off := off);
        gi; unfold dirfind in *; fields; assumption).
  cbv beta iota.
  destruct (decide (ip = dp)) as [->|Hne].
  - run iunlockput_Ok. run ilock_Ok.
    rewrite bind_gets. unfold create_found. gi. reflexivity.
  - run iunlockput_Ok. run ilock_Ok.
    rewrite bind_gets. unfold create_found. gi. reflexivity.
Qed.

Lemma s4_ip :
  getino s4 ip =
  set_locked true (set_ref (S (i_ref (getino s ip))) (getino s ip)).
Proof.
  unfold create_found. destruct (decide (ip = dp)) as [->|Hne]; gi.
  - destruct (getino s dp); reflexivity.
  - reflexivity.
Qed.

Lemma s4_other j : j <> ip -> getino s4 j = getino s j.
Proof.
  intros Hj. unfold create_found. destruct (decide (j = dp)) as [->|Hne]; gi.
  - apply unlocked_roundtrip, Hldp.
  - reflexivity.
Qed.

Lemma create_existing_file :
  type = T_FILE ->
  i_type (getino s ip) = T_FILE ->
  create path type major minor s = Ok (Some ip) s4.
Proof.
  intros Hty Ht. rewrite create_prefix, Hty, Ht. reflexivity.
Qed.

Lemma create_existing_other :
  type <> T_FILE \/ i_type (getino s ip) <> T_FILE ->
  exists s',
    create path type major minor s = Ok None s' /\
    trace s' = trace s /\ log_busy s' = log_busy s /\
    ftable s' = ftable s /\ ofile s' = ofile s /\
    forall j, getino s' j = getino s j.
Proof.
  intros Hk. rewrite create_prefix.
  assert ((type =? T_FILE) && (i_type (getino s ip) =? T_FILE) = false) as ->.
  { apply andb_false_iff. destruct Hk as [Hk|Hk]; [left|right];
      apply Z.eqb_neq, Hk. }
  eexists. split.
  - erewrite bind_step
      by (apply iunlockput_Ok; rewrite s4_ip; fields; [lia|reflexivity]).
    reflexivity.
  - repeat split. intros j. destruct (decide (j = ip)) as [->|Hj].
    + gi. rewrite s4_ip. fields. apply unlocked_roundtrip, Hlip.
    + gi. apply s4_other, Hj.
Qed.

Lemma s4_static : R_static s s4.
Proof.
  split; [reflexivity|]. intros j. destruct (decide (j = ip)) as [->|Hj].
  - rewrite s4_ip. reflexivity.
  - rewrite s4_other by exact Hj. reflexivity.
Qed.
End CreateExisting.

(** ** Following a chain of symlinks *)

Lemma static_flags s s' j :
  R_static s s' -> i_flags (getino s' j) = i_flags (getino s j).
Proof.
  intros [_ H].
  change (i_flags (strip (getino s' j)) = i_flags (strip (getino s j))).
  rewrite H. reflexivity.
Qed.

Lemma static_addrs s s' j :
  R_static s s' -> i_addrs (getino s' j) = i_addrs (getino s j).
Proof.
  intros [_ H].
  change (i_addrs (strip (getino s' j)) = i_addrs (strip (getino s j))).
  rewrite H. reflexivity.
Qed.

Lemma static_is_symlnk s s' j :
  R_static s s' -> is_symlnk (getino s' j) = is_symlnk (getino s j).
Proof. intros H. unfold is_symlnk. rewrite (static_flags _ _ _ H). reflexivity. Qed.

Lemma static_resolve s s' p : R_static s s' -> resolve s' p = resolve s p.
Proof. intros H. apply resolve_same_tree, R_static_same_tree, H. Qed.

(** One round of the loop of sys_open keeps the invariant. *)
Lemma tracks_step s0 sk ip next :
  tracks s0 sk ip ->
  i_type (getino s0 next) <> 0 ->
  i_locked (getino s0 next) = false ->
  let sk' := imod next (set_locked true)
               (imod ip (set_locked false) (iget next sk)) in
  iunlock ip (iget next sk) = Ok tt (imod ip (set_locked false) (iget next sk)) /\
  ilock next (imod ip (set_locked false) (iget next sk)) = Ok tt sk' /\
  tracks s0 sk' next.
Proof.
  intros (St & Lk & L0 & Rf & Ft & Of) Ht Hl. cbv zeta.
  assert (Lip : i_locked (getino sk ip) = true).
  { rewrite Lk. destruct (decide (ip = ip)); congruence. }
  assert (Lnx : ip <> next -> i_locked (getino sk next) = false).
  { intros Hne. rewrite Lk. destruct (decide (next = ip)); congruence. }
  assert (Tnx : i_type (getino sk next) <> 0)
    by (rewrite (static_type _ _ _ St); exact Ht).
  split; [|split].
  - apply iunlock_Ok; destruct (decide (next = ip)) as [->|Hne]; gi;
      try lia; assumption.
  - apply ilock_Ok; destruct (decide (next = ip)) as [->|Hne]; gi;
      try lia; try reflexivity; try assumption.
    apply Lnx. congruence.
  - split; [|split; [|split; [|split; [|split]]]].
    + etransitivity; [exact St|].
      etransitivity; [apply iget_static|].
      etransitivity; apply R_static_imod; reflexivity.
    + intros j. destruct (decide (j = next)) as [->|Hj].
      * gi. reflexivity.
      * rewrite getino_imod_ne by congruence.
        destruct (decide (j = ip)) as [->|Hji].
        -- gi. symmetry. exact L0.
        -- gi. rewrite Lk. destruct (decide (j = ip)); congruence.
    + exact Hl.
    + gi. destruct (decide (next = ip)) as [->|Hne]; gi; lia.
    + exact Ft.
    + exact Of.
Qed.

Lemma chain_S s d ip t :
  chain s (S d) ip t = true ->
  is_symlnk (getino s ip) = true /\
  exists next,
    resolve s (i_addrs (getino s ip)) = Some next /\
    i_type (getino s next) <> 0 /\
    i_locked (getino s next) = false /\
    chain s d next t = true.
Proof.
  simpl. intros H. apply andb_true_iff in H as [H1 H2]. split; [exact H1|].
  destruct (resolve s (i_addrs (getino s ip))) as [next|]; [|discriminate].
  exists next. apply andb_true_iff in H2 as [H2 H3].
  apply andb_true_iff in H2 as [H2 H4].
  apply negb_true_iff in H2, H4. apply Z.eqb_neq in H2. auto.
Qed.

Lemma links_S s n ip :
  links s (S n) ip = true ->
  is_symlnk (getino s ip) = true /\
  exists next,
    resolve s (i_addrs (getino s ip)) = Some next /\
    i_type (getino s next) <> 0 /\
    i_locked (getino s next) = false /\
    links s n next = true.
Proof.
  simpl. intros H. apply andb_true_iff in H as [H1 H2]. split; [exact H1|].
  destruct (resolve s (i_addrs (getino s ip))) as [next|]; [|discriminate].
  exists next. apply andb_true_iff in H2 as [H2 H3].
  apply andb_true_iff in H2 as [H2 H4].
  apply negb_true_iff in H2, H4. apply Z.eqb_neq in H2. auto.
Qed.

(** A round of the loop of sys_open on a symlink whose target resolves. *)
Lemma open_symloop_round s0 sk n ip next :
  tracks s0 sk ip ->
  is_symlnk (getino s0 ip) = true ->
  resolve s0 (i_addrs (getino s0 ip)) = Some next ->
  i_type (getino s0 next) <> 0 ->
  i_locked (getino s0 next) = false ->
  exists sk',
    open_symloop (S n) ip sk = open_symloop n next sk' /\ tracks s0 sk' next.
Proof.
  intros Tk Hsym Hres Ht Hl.
  destruct (tracks_step _ _ _ next Tk Ht Hl) as (E1 & E2 & Tk').
  destruct Tk as (St & _).
  eexists. split; [|exact Tk'].
  simpl. rewrite bind_gets.
  rewrite (static_is_symlnk _ _ _ St), Hsym.
  rewrite (static_addrs _ _ _ St).
  erewrite bind_step
    by (apply namei_Some; rewrite (static_resolve _ _ _ St); exact Hres).
  cbv beta iota.
  rewrite (bind_step _ _ _ _ _ E1). rewrite (bind_step _ _ _ _ _ E2).
  reflexivity.
Qed.

Lemma open_symloop_chain s0 d : forall n sk ip t,
  (d < n)%nat ->
  chain s0 d ip t = true ->
  tracks s0 sk ip ->
  exists sk',
    open_symloop n ip sk = Ok (Broke t) sk' /\ tracks s0 sk' t /\
    is_symlnk (getino s0 t) = false.
Proof.
  induction d as [|d IH]; intros n sk ip t Hn Hc Tk.
  - destruct n as [|n]; [lia|]. simpl in Hc.
    apply andb_true_iff in Hc as [Hc1 Hc2].
    apply negb_true_iff in Hc1. apply Nat.eqb_eq in Hc2. subst t.
    exists sk. split; [|split; [exact Tk | exact Hc1]].
    simpl. rewrite bind_gets. destruct Tk as (St & _).
    rewrite (static_is_symlnk _ _ _ St), Hc1. reflexivity.
  - destruct n as [|n]; [lia|].
    apply chain_S in Hc as (Hsym & next & Hres & Ht & Hl & Hc).
    destruct (open_symloop_round s0 sk n ip next Tk Hsym Hres Ht Hl)
      as (sk' & E & Tk').
    rewrite E. apply IH; [lia | exact Hc | exact Tk'].
Qed.

Lemma open_symloop_links s0 n : forall sk ip,
  links s0 n ip = true ->
  tracks s0 sk ip ->
  exists sk' ip', open_symloop n ip sk = Ok (RanOut ip') sk'.
Proof.
  induction n as [|n IH]; intros sk ip Hc Tk.
  - exists sk, ip. reflexivity.
  - apply links_S in Hc as (Hsym & next & Hres & Ht & Hl & Hc).
    destruct (open_symloop_round s0 sk n ip next Tk Hsym Hres Ht Hl)
      as (sk' & E & Tk').
    rewrite E. apply IH; [exact Hc | exact Tk'].
Qed.

(** The descriptor and the file object that sys_open hands out. *)
Lemma filealloc_Ok s fi f0 :
  list_find (fun f => f_ref f = 0%nat) (ftable s) = Some (fi, f0) ->
  filealloc s =
  Ok (Some fi) (with_ftable s (<[fi := file_with_ref 1 f0]> (ftable s))).
Proof. intros H. unfold filealloc. rewrite H. reflexivity. Qed.

Lemma fdalloc_Ok s f fd o :
  list_find (fun o => o = None) (take NOFILE (ofile s)) = Some (fd, o) ->
  fdalloc f s = Ok (Z.of_nat fd) (with_ofile s (<[fd := Some f]> (ofile s))).
Proof. intros H. unfold fdalloc. rewrite H. reflexivity. Qed.

Lemma open_rest_chain s0 sk omode ip d t fi f0 fd o :
  (d <= 15)%nat ->
  chain s0 d ip t = true ->
  tracks s0 sk ip ->
  list_find (fun f => f_ref f = 0%nat) (ftable s0) = Some (fi, f0) ->
  list_find (fun o => o = None) (take NOFILE (ofile s0)) = Some (fd, o) ->
  exists s',
    open_rest omode ip sk = Ok (Z.of_nat fd) s' /\
    ofile s' !! fd = Some (Some fi) /\
    ftable s' !! fi = Some (open_file omode t (file_with_ref 1 f0)) /\
    R_static s0 s' /\
    (forall j, i_locked (getino s' j) = i_locked (getino s0 j)) /\
    is_symlnk (getino s' t) = false.
Proof.
  intros Hd Hc Tk Hfi Hfd.
  destruct (open_symloop_chain s0 d 16 sk ip t ltac:(lia) Hc Tk)
    as (sk' & E & (St & Lk & L0 & Rf & Ft & Of) & Hns).
  apply list_find_Some in Hfi as Hfi'. destruct Hfi' as (Hfi1 & _).
  apply list_find_Some in Hfd as Hfd'. destruct Hfd' as (Hfd1 & _).
  apply lookup_take_Some in Hfd1 as [Hfd1 _].
  pose proof (lookup_lt_Some _ _ _ Hfi1) as Hfilt.
  pose proof (lookup_lt_Some _ _ _ Hfd1) as Hfdlt.
  eexists. split; [|split; [|split; [|split; [|split]]]].
  - unfold open_rest. rewrite (bind_step _ _ _ _ _ E). cbv beta iota.
    erewrite bind_step by (apply filealloc_Ok; rewrite Ft; exact Hfi).
    cbv beta iota.
    erewrite bind_step
      by (apply (fdalloc_Ok _ _ fd o); simpl; rewrite Of; exact Hfd).
    cbv beta iota.
    destruct (Z.ltb_spec (Z.of_nat fd) 0); [lia|].
    erewrite bind_step
      by (apply iunlock_Ok; gi;
          [exact Rf | rewrite Lk; destruct (decide (t = t)); congruence]).
    cbv beta iota. rewrite bind_modify. reflexivity.
  - simpl. rewrite Of. apply list_lookup_insert_eq. exact Hfdlt.
  - simpl. rewrite Ft, list_lookup_alter_eq, list_lookup_insert_eq by exact Hfilt.
    reflexivity.
  - etransitivity; [exact St|].
    split; [reflexivity|]. intros j.
    rewrite getino_with_ftable, strip_getino_imod by reflexivity.
    reflexivity.
  - intros j. destruct (decide (j = t)) as [->|Hj]; gi.
    + symmetry. exact L0.
    + rewrite Lk. destruct (decide (j = t)); congruence.
  - gi. unfold is_symlnk in *. fields.
    rewrite (static_flags _ _ _ St). exact Hns.
Qed.

Lemma open_rest_links s0 sk omode ip :
  links s0 16 ip = true ->
  tracks s0 sk ip ->
  open_rest omode ip sk = Panic "symbolic link exceeds 16 links ".
Proof.
  intros Hc Tk.
  destruct (open_symloop_links s0 16 sk ip Hc Tk) as (sk' & ip' & E).
  unfold open_rest. rewrite (bind_step _ _ _ _ _ E). reflexivity.
Qed.

(** From the entry of sys_open to its chain-following loop. *)
Lemma sys_open_prefix s path omode ip0 :
  open_finds s path omode ip0 ->
  i_locked (getino s ip0) = false ->
  i_type (getino s ip0) <> 0 ->
  exists sk,
    sys_open (Some path) (Some omode) s = open_rest omode ip0 sk /\
    tracks s sk ip0 /\
    trace sk =
      trace s ++
      (if Z.land omode O_CREATE =? 0 then [] else [EvBegin; EvCommit]).
Proof.
  unfold open_finds. intros Hf Hl Ht.
  destruct (Z.eqb_spec (Z.land omode O_CREATE) 0) as [Hc|Hc].
  - destruct Hf as [Hr Hnd].
    exists (imod ip0 (set_locked true) (iget ip0 s)).
    split; [|split; [|simpl; rewrite app_nil_r; reflexivity]].
    + unfold sys_open. rewrite Hc. change (negb (0 =? 0)) with false.
      cbv iota. run namei_Some. run ilock_Ok.
      rewrite bind_gets. gi.
      destruct (Z.eqb_spec (i_type (getino s ip0)) T_DIR) as [Hd|Hd];
        [|reflexivity].
      destruct (Z.eqb_spec omode O_RDONLY) as [Ho|Ho]; [reflexivity|].
      exfalso. apply Hnd. split; assumption.
    + split; [|split; [|split; [|split; [|split]]]]; try reflexivity.
      * etransitivity; [apply iget_static|]. apply R_static_imod. reflexivity.
      * intros j. destruct (decide (j = ip0)) as [->|Hj]; gi; reflexivity.
      * exact Hl.
      * gi. lia.
  - destruct Hf as (Hb & Htf & dp & name & off & Hpar & Hfind & Hldp).
    set (s1 := with_log s true [EvBegin]).
    assert (Hpar1 : resolve_parent s1 path = Some (dp, name)).
    { rewrite <- Hpar. apply resolve_parent_same_tree.
      split; [reflexivity|]. intros j. split; reflexivity. }
    exists (with_log (create_found dp ip0 s1) false [EvCommit]).
    apply Z.eqb_neq in Hc.
    split; [|split; [|simpl; rewrite <- app_assoc; reflexivity]].
    + unfold sys_open. rewrite Hc. cbn [negb].
      cbv iota. run begin_trans_Ok. fold s1.
      rewrite (bind_step _ _ _ _ _
                 (create_existing_file s1 path dp ip0
                    name off T_FILE 0 0 Hpar1 Hfind Hldp Hl Ht eq_refl Htf)).
      run commit_trans_Ok. reflexivity.
    + pose proof (s4_ip s1 dp ip0 name off Hfind Hldp Hl Ht) as Gip.
      pose proof (s4_other s1 dp ip0 Hldp) as Got.
      split; [|split; [|split; [|split; [|split]]]]; try reflexivity.
      * split; [reflexivity|]. intros j. gi.
        destruct (decide (j = ip0)) as [->|Hj].
        -- rewrite Gip. reflexivity.
        -- rewrite Got by exact Hj. reflexivity.
      * intros j. gi.
        destruct (decide (j = ip0)) as [->|Hj].
        -- rewrite Gip. reflexivity.
        -- rewrite Got by exact Hj. reflexivity.
      * exact Hl.
      * gi. rewrite Gip. fields. lia.
Qed.




Lemma static_dents s s' j :
  R_static s s' -> i_dents (getino s' j) = i_dents (getino s j).
Proof.
  intros [_ H].
  change (i_dents (strip (getino s' j)) = i_dents (strip (getino s j))).
  rewrite H. reflexivity.
Qed.

(** open with O_CREATE on a plain file that exists and is no symlink. *)
Lemma sys_open_create_existing s path dp name ip off omode fi f0 fd o :
  resolve_parent s path = Some (dp, name) ->
  dirfind (getino s dp) name = Some (ip, off) ->
  i_locked (getino s dp) = false ->
  i_locked (getino s ip) = false ->
  i_type (getino s ip) = T_FILE ->
  is_symlnk (getino s ip) = false ->
  log_busy s = false ->
  Z.land omode O_CREATE <> 0 ->
  list_find (fun f => f_ref f = 0%nat) (ftable s) = Some (fi, f0) ->
  list_find (fun o => o = None) (take NOFILE (ofile s)) = Some (fd, o) ->
  exists s',
    sys_open (Some path) (Some omode) s = Ok (Z.of_nat fd) s' /\
    ofile s' !! fd = Some (Some fi) /\
    ftable s' !! fi = Some (open_file omode ip (file_with_ref 1 f0)) /\
    trace s' = trace s ++ [EvBegin; EvCommit] /\
    (forall j, strip (getino s' j) = strip (getino s j)) /\
    (forall j, i_locked (getino s' j) = i_locked (getino s j)) /\
    resolve_parent s' path = Some (dp, name) /\
    dirfind (getino s' dp) name = Some (ip, off).
Proof.
  intros Hpar Hfind Hldp Hlip Htf Hns Hb Hc Hfi Hfd.
  assert (Hof : open_finds s path omode ip).
  { unfold open_finds. apply Z.eqb_neq in Hc. rewrite Hc.
    split; [exact Hb|]. split; [exact Htf|]. exists dp, name, off. auto. }
  assert (Ht0 : i_type (getino s ip) <> 0) by (rewrite Htf; discriminate).
  destruct (sys_open_prefix s path omode ip Hof Hlip Ht0)
    as (sk & E & Tk & Tr).
  assert (Hch : chain s 0 ip ip = true).
  { simpl. rewrite Hns, Nat.eqb_refl. reflexivity. }
  destruct (open_rest_chain s sk omode ip 0 ip fi f0 fd o
              ltac:(lia) Hch Tk Hfi Hfd)
    as (s' & E' & H1 & H2 & St & Lk & _).
  exists s'. rewrite E.
  split; [exact E'|]. split; [exact H1|]. split; [exact H2|].
  split; [|split; [|split; [|split]]].
  - apply open_rest_silent in E' as [_ T]. rewrite T, Tr.
    apply Z.eqb_neq in Hc. rewrite Hc. reflexivity.
  - apply St.
  - exact Lk.
  - rewrite <- Hpar. apply resolve_parent_same_tree, R_static_same_tree, St.
  - unfold dirfind in *. rewrite (static_dents _ _ _ St). exact Hfind.
Qed.



(** ** readlink *)

Lemma readlink_round s0 sk n ip next :
  tracks s0 sk ip ->
  resolve s0 (i_addrs (getino s0 ip)) = Some next ->
  is_symlnk (getino s0 next) = true ->
  i_type (getino s0 next) <> 0 ->
  i_locked (getino s0 next) = false ->
  exists sk',
    readlink_loop (S n) ip sk = readlink_loop n next sk' /\
    tracks s0 sk' next.
Proof.
  intros Tk Hres Hsym Ht Hl.
  destruct (tracks_step _ _ _ next Tk Ht Hl) as (E1 & E2 & Tk').
  destruct Tk as (St & _).
  eexists. split; [|exact Tk'].
  simpl. rewrite bind_gets.
  rewrite (static_addrs _ _ _ St).
  erewrite bind_step
    by (apply namei_Some; rewrite (static_resolve _ _ _ St); exact Hres).
  cbv beta iota. rewrite bind_gets.
  assert (is_symlnk (getino (iget next sk) next) = true) as ->.
  { unfold is_symlnk in *. gi. rewrite (static_flags _ _ _ St). exact Hsym. }
  rewrite (bind_step _ _ _ _ _ E1). rewrite (bind_step _ _ _ _ _ E2).
  reflexivity.
Qed.

Lemma readlink_loop_dangles s0 n : forall sk ip,
  dangles s0 n ip = true ->
  tracks s0 sk ip ->
  exists sk', readlink_loop n ip sk = Ok (Returned (-2)) sk'.
Proof.
  induction n as [|n IH]; intros sk ip Hd Tk; [discriminate|].
  simpl in Hd.
  destruct (resolve s0 (i_addrs (getino s0 ip))) as [next|] eqn:Hres.
  - apply andb_true_iff in Hd as [Hd H4].
    apply andb_true_iff in Hd as [Hd H3].
    apply andb_true_iff in Hd as [H1 H2].
    apply negb_true_iff in H2, H3. apply Z.eqb_neq in H2.
    destruct (readlink_round s0 sk n ip next Tk Hres H1 H2 H3)
      as (sk' & E & Tk').
    rewrite E. apply IH; assumption.
  - destruct Tk as (St & Lk & L0 & Rf & _).
    eexists. simpl. rewrite bind_gets.
    rewrite (static_addrs _ _ _ St).
    erewrite bind_step
      by (apply namei_None; rewrite (static_resolve _ _ _ St); exact Hres).
    cbv beta iota.
    erewrite bind_step
      by (apply iunlock_Ok;
          [exact Rf | rewrite Lk; destruct (decide (ip = ip)); congruence]).
    reflexivity.
Qed.

Lemma readlink_loop_loops s0 n : forall sk ip,
  loops s0 n ip = true ->
  tracks s0 sk ip ->
  exists sk' ip', readlink_loop n ip sk = Ok (RanOut ip') sk'.
Proof.
  induction n as [|n IH]; intros sk ip Hd Tk.
  - exists sk, ip. reflexivity.
  - simpl in Hd.
    destruct (resolve s0 (i_addrs (getino s0 ip))) as [next|] eqn:Hres;
      [|discriminate].
    apply andb_true_iff in Hd as [Hd H4].
    apply andb_true_iff in Hd as [Hd H3].
    apply andb_true_iff in Hd as [H1 H2].
    apply negb_true_iff in H2, H3. apply Z.eqb_neq in H2.
    destruct (readlink_round s0 sk n ip next Tk Hres H1 H2 H3)
      as (sk' & E & Tk').
    rewrite E. apply IH; assumption.
Qed.

(** From the entry of sys_readlink to its loop, on a symlink. *)
Lemma sys_readlink_prefix s path buf bufsiz ip :
  resolve s path = Some ip ->
  i_locked (getino s ip) = false ->
  i_type (getino s ip) <> 0 ->
  is_symlnk (getino s ip) = true ->
  let sk := imod ip (set_locked true) (iget ip s) in
  sys_readlink (Some path) (Some buf) (Some bufsiz) s =
  (x <- readlink_loop 16 ip ;;
   match x with
   | Returned v => ret (v, buf)
   | RanOut _ => panic "symbolic link exceeds 16 links "
   | Broke ip =>
       i <- gets (fun s => getino s ip) ;;
       if (i_type i =? T_FILE) && is_symlnk i then
         let buf' := safestrcpy buf (i_addrs i) bufsiz in
         iunlock ip ;;
         ret (strlen buf', buf')
       else
         iunlock ip ;;
         ret (-1, buf)
   end) sk /\
  tracks s sk ip.
Proof.
  intros Hr Hl Ht Hs. cbv zeta. split.
  - unfold sys_readlink. run namei_Some. run ilock_Ok.
    rewrite bind_gets.
    assert (is_symlnk (getino (imod ip (set_locked true) (iget ip s)) ip)
            = true) as ->.
    { unfold is_symlnk in *. gi. exact Hs. }
    reflexivity.
  - split; [|split; [|split; [|split; [|split]]]]; try reflexivity.
    + etransitivity; [apply iget_static|]. apply R_static_imod. reflexivity.
    + intros j. destruct (decide (j = ip)) as [->|Hj]; gi; reflexivity.
    + exact Hl.
    + gi. lia.
Qed.

(** C8, as stated, fails: on a link that points to itself sys_readlink
    halts the system. *)
Lemma sys_readlink_loop_halts :
  resolve fs0 "/loop" = Some 5%nat /\
  loops fs0 16 5 = true /\
  sys_readlink (Some "/loop") (Some "") (Some 64) fs0 =
    Panic "symbolic link exceeds 16 links " /\
  ~ (exists r s',
       sys_readlink (Some "/loop") (Some "") (Some 64) fs0 = Ok r s').
Proof.
  assert (E : sys_readlink (Some "/loop") (Some "") (Some 64) fs0 =
              Panic "symbolic link exceeds 16 links ")
    by (vm_compute; reflexivity).
  split; [vm_compute; reflexivity|].
  split; [vm_compute; reflexivity|].
  split; [exact E|].
  intros (r & s' & H). rewrite E in H. discriminate H.
Qed.

(** C8 (amended): for a path that resolves to the inode ip: when ip is no
    symlink, sys_readlink returns -1 and leaves the buffer; when ip is a
    symlink and, following the links, a target does not resolve within
    the 16 rounds, it returns -2, a value other than -1; in both cases the
    call returns.  When each of the 16 rounds finds another symlink (a
    chain of more than 16 links, or a loop), the call halts the system. *)
Theorem sys_readlink_errors s path buf bufsiz ip :
  resolve s path = Some ip ->
  i_locked (getino s ip) = false ->
  i_type (getino s ip) <> 0 ->
  (is_symlnk (getino s ip) = false ->
   exists s',
     sys_readlink (Some path) (Some buf) (Some bufsiz) s = Ok (-1, buf) s') /\
  (is_symlnk (getino s ip) = true ->
   dangles s 16 ip = true ->
   exists s',
     sys_readlink (Some path) (Some buf) (Some bufsiz) s = Ok (-2, buf) s') /\
  -2 <> -1 /\
  (is_symlnk (getino s ip) = true ->
   loops s 16 ip = true ->
   sys_readlink (Some path) (Some buf) (Some bufsiz) s =
     Panic "symbolic link exceeds 16 links ").
Proof.
  intros Hr Hl Ht. split; [|split; [|split]].
  - intros Hns. eexists. unfold sys_readlink.
    run namei_Some. run ilock_Ok. rewrite bind_gets.
    assert (is_symlnk (getino (imod ip (set_locked true) (iget ip s)) ip)
            = false) as ->.
    { unfold is_symlnk in *. gi. exact Hns. }
    cbn [negb]. cbv iota. run iunlock_Ok. reflexivity.
  - intros Hs Hd.
    destruct (sys_readlink_prefix s path buf bufsiz ip Hr Hl Ht Hs) as [E Tk].
    destruct (readlink_loop_dangles s 16 _ ip Hd Tk) as (sk' & E').
    rewrite E, (bind_step _ _ _ _ _ E'). exists sk'. reflexivity.
  - lia.
  - intros Hs Hd.
    destruct (sys_readlink_prefix s path buf bufsiz ip Hr Hl Ht Hs) as [E Tk].
    destruct (readlink_loop_loops s 16 _ ip Hd Tk) as (sk' & ip' & E').
    rewrite E, (bind_step _ _ _ _ _ E'). reflexivity.
Qed.

Lemma sys_readlink_errors_witness :
  (exists s',
     sys_readlink (Some "/f") (Some "") (Some 64) fs0 = Ok (-1, "") s') /\
  (exists s',
     sys_readlink (Some "/gone") (Some "") (Some 64) fs0 = Ok (-2, "") s') /\
  sys_readlink (Some "/loop") (Some "") (Some 64) fs0 =
    Panic "symbolic link exceeds 16 links ".
Proof.
  split; [|split].
  - apply (sys_readlink_errors fs0 "/f" "" 64 2%nat);
      try (vm_compute; reflexivity).
    vm_compute. discriminate.
  - apply (sys_readlink_errors fs0 "/gone" "" 64 9%nat);
      try (vm_compute; reflexivity).
    vm_compute. discriminate.
  - apply (sys_readlink_errors fs0 "/loop" "" 64 5%nat);
      try (vm_compute; reflexivity).
    vm_compute. discriminate.
Defined.

(** ** create on a name that does not exist *)

Lemma writei_de_at_slot dp k de s :
  let d := getino s dp in
  let off := DESZ * Z.of_nat k in
  writei_de dp off de s =
  if i_size d <? off then Ok (-1) s
  else
    let s1 := emit (EvDirWrite dp off de)
                (imod dp (set_dents (put_dent k de (i_dents d))) s) in
    if i_size d <? off + DESZ
    then Ok DESZ (emit (EvIupdate dp
                          (dinode_of (set_size (off + DESZ)
                                        (set_dents (put_dent k de (i_dents d)) d))))
                    (imod dp (set_size (off + DESZ)) s1))
    else Ok DESZ s1.
Proof.
  cbv zeta. unfold writei_de. cbv zeta.
  assert (Hk : Z.to_nat (DESZ * Z.of_nat k / DESZ) = k).
  { unfold DESZ. rewrite Z.mul_comm, Z.div_mul by lia. lia. }
  rewrite Hk.
  destruct (Z.ltb_spec (DESZ * Z.of_nat k) 0) as [H|_];
    [unfold DESZ in H; lia|].
  cbn [orb].
  destruct (i_size (getino s dp) <? DESZ * Z.of_nat k); [reflexivity|].
  destruct (i_size (getino s dp) <? DESZ * Z.of_nat k + DESZ);
    [|reflexivity].
  rewrite bind_modify. unfold iupdate, bind, ret. gi. reflexivity.
Qed.

Lemma dirlink_add dp name inum s :
  i_type (getino s dp) = T_DIR ->
  dirfind (getino s dp) name = None ->
  dirlink dp name inum s =
  if i_size (getino s dp) <? DESZ * Z.of_nat (free_slot (i_dents (getino s dp)))
  then Panic "dirlink"
  else Ok 0 (dir_write dp (Dirent inum (strtake DIRSIZ name)) s).
Proof.
  intros Ht Hf. unfold dirlink.
  rewrite (bind_step _ _ _ _ _ (dirlookup_None _ _ _ Ht Hf)).
  rewrite bind_gets. unfold bind at 1.
  rewrite writei_de_at_slot. cbv zeta. unfold dir_write. cbv zeta.
  destruct (i_size (getino s dp) <?
            DESZ * Z.of_nat (free_slot (i_dents (getino s dp)))).
  - reflexivity.
  - destruct (i_size (getino s dp) <?
              DESZ * Z.of_nat (free_slot (i_dents (getino s dp))) + DESZ)
      eqn:E.
    + rewrite Z.eqb_refl. unfold dir_add. cbv zeta. rewrite E. reflexivity.
    + rewrite Z.eqb_refl. reflexivity.
Qed.

Lemma dir_write_dp dp de s :
  getino (dir_write dp de s) dp = dir_add de (getino s dp).
Proof.
  unfold dir_write, dir_add. cbv zeta.
  destruct (i_size (getino s dp) <?
            DESZ * Z.of_nat (free_slot (i_dents (getino s dp))) + DESZ);
    gi; destruct (getino s dp); reflexivity.
Qed.

Lemma dir_write_other dp de s j :
  j <> dp -> getino (dir_write dp de s) j = getino s j.
Proof.
  intros Hj. unfold dir_write. cbv zeta.
  destruct (i_size (getino s dp) <?
            DESZ * Z.of_nat (free_slot (i_dents (getino s dp))) + DESZ);
    gi; reflexivity.
Qed.

Lemma dir_write_trace dp de s :
  trace (dir_write dp de s) = trace s ++ dir_add_events dp de (getino s dp).
Proof.
  unfold dir_write, dir_add_events. cbv zeta.
  destruct (i_size (getino s dp) <?
            DESZ * Z.of_nat (free_slot (i_dents (getino s dp))) + DESZ);
    simpl; rewrite <- ?app_assoc; reflexivity.
Qed.

Lemma dir_add_unlocked de d r :
  i_locked d = false ->
  set_ref (Nat.pred (S r))
    (set_locked false (dir_add de (set_locked true (set_ref (S r) d)))) =
  dir_add de (set_ref r d).
Proof.
  intros H. destruct d. cbn in *. subst. unfold dir_add. cbn.
  destruct (_ <? _); reflexivity.
Qed.

Lemma first_free_Some s ip :
  first_free s = Some ip -> i_type (getino s ip) = 0 /\ ip <> 0%nat.
Proof.
  unfold first_free. intros H. apply find_some in H as [Hin Hf].
  apply Z.eqb_eq in Hf. apply in_seq in Hin. split; [exact Hf | lia].
Qed.

Lemma find_ext_pred {A} (f g : A -> bool) l :
  (forall x, f x = g x) -> find f l = find g l.
Proof.
  intros H. induction l as [|x l IH]; simpl; [reflexivity|].
  rewrite H, IH. reflexivity.
Qed.

Lemma first_free_same_tree s s' :
  same_tree s s' -> ninodes s' = ninodes s -> first_free s' = first_free s.
Proof.
  intros [_ H] Hn. unfold first_free. rewrite Hn.
  apply find_ext_pred. intros x. destruct (H x) as [-> _]. reflexivity.
Qed.

Lemma create_alloc_ip dp ip type major minor s :
  ip <> dp ->
  getino (create_alloc dp ip type major minor s) ip =
  Inode (i_dev (getino s dp)) (S (i_ref (getino s ip))) true 0 type major
        minor 1 0 "" [] [].
Proof. intros Hne. unfold create_alloc. gi. reflexivity. Qed.

Lemma create_alloc_dp dp ip type major minor s :
  ip <> dp ->
  getino (create_alloc dp ip type major minor s) dp =
  set_locked true (set_ref (S (i_ref (getino s dp))) (getino s dp)).
Proof. intros Hne. unfold create_alloc. gi. reflexivity. Qed.

Lemma create_alloc_other dp ip type major minor s j :
  j <> ip -> j <> dp ->
  getino (create_alloc dp ip type major minor s) j = getino s j.
Proof. intros H1 H2. unfold create_alloc. gi. reflexivity. Qed.

Lemma create_alloc_trace dp ip type major minor s :
  trace (create_alloc dp ip type major minor s) =
  trace s ++ [EvIalloc ip type; EvIupdate ip (Dinode type major minor 1 0 "")].
Proof. unfold create_alloc. simpl. rewrite <- app_assoc. reflexivity. Qed.

(** A run of create that returns, on a name that the parent does not
    hold, has allocated the first free inode. *)
Lemma create_fresh_prefix s path type major minor dp name r s' :
  resolve_parent s path = Some (dp, name) ->
  dirfind (getino s dp) name = None ->
  create path type major minor s = Ok r s' ->
  exists ip,
    first_free s = Some ip /\
    i_locked (getino s dp) = false /\
    i_locked (getino s ip) = false /\
    type <> 0 /\ ip <> dp /\ ip <> 0%nat /\
    ((if type =? T_DIR then
        modify (imod dp nlink_inc) ;;
        iupdate dp ;;
        n1 <- dirlink ip "." ip ;;
        if n1 <? 0 then panic "create dots"
        else
          n2 <- dirlink ip ".." dp ;;
          if n2 <? 0 then panic "create dots" else ret tt
      else ret tt) ;;
     n <- dirlink dp name ip ;;
     if n <? 0 then panic "create: dirlink"
     else iunlockput dp ;; ret (Some ip))
      (create_alloc dp ip type major minor s) = Ok r s'.
Proof.
  intros Hpar Hnone H.
  pose proof (resolve_parent_is_dir _ _ _ _ Hpar) as Hdt.
  unfold create in H.
  rewrite (bind_step _ _ _ _ _ (nameiparent_Some _ _ _ _ Hpar)) in H.
  cbv beta iota in H.
  inv_bind H as u1 s2 E1. apply ilock_inv in E1 as (-> & R1 & L1 & T1).
  rewrite getino_iget_eq in L1. fields.
  erewrite bind_step in H
    by (apply dirlookup_None; gi; unfold dirfind in *; fields; assumption).
  cbv beta iota in H. rewrite bind_gets in H.
  inv_bind H as a s3 E3. unfold ialloc in E3.
  assert (Hff : first_free (imod dp (set_locked true) (iget dp s)) =
                first_free s).
  { apply first_free_same_tree; [|reflexivity].
    split; [reflexivity|]. intros j.
    destruct (decide (j = dp)) as [->|Hj]; gi; split; reflexivity. }
  rewrite Hff in E3.
  destruct (first_free s) as [ip|] eqn:Hfree; inversion E3; subst a s3;
    clear E3; [|discriminate H].
  apply first_free_Some in Hfree as Hfr. destruct Hfr as [Hfr0 Hnz].
  assert (Hne : ip <> dp) by (intros ->; rewrite Hdt in Hfr0; discriminate).
  exists ip.
  inv_bind H as u4 s4 E4. apply ilock_inv in E4 as (-> & R4 & L4 & T4).
  revert L4 T4. gi. intros L4 T4.
  rewrite bind_modify in H.
  rewrite (bind_step _ _ _ _ _ (iupdate_Ok _ _)) in H.
  repeat split; try assumption.
  revert H. gi. unfold create_alloc. gi. intros H. exact H.
Qed.

Lemma dir_add_events_held dp de d r :
  dir_add_events dp de (set_locked true (set_ref r d)) =
  dir_add_events dp de d.
Proof.
  destruct d. unfold dir_add_events, dir_add. cbn.
  destruct (_ <? _); reflexivity.
Qed.

Lemma dir_add_released de d :
  i_locked d = false ->
  let x := dir_add de (set_locked true (set_ref (S (i_ref d)) d)) in
  set_ref (Nat.pred (i_ref x)) (set_locked false x) = dir_add de d.
Proof.
  intros H. destruct d. cbn in *. subst. unfold dir_add. cbn.
  destruct (_ <? _); reflexivity.
Qed.

Lemma dir_write_proc dp de s : R_proc s (dir_write dp de s).
Proof.
  unfold dir_write. cbv zeta. destruct (_ <? _); repeat split.
Qed.
Lemma iunlockput_inv ip s a s' :
  iunlockput ip s = Ok a s' ->
  s' = imod ip (fun i => set_ref (Nat.pred (i_ref i)) i)
         (imod ip (set_locked false) s) /\
  i_ref (getino s ip) <> 0%nat /\ i_locked (getino s ip) = true.
Proof.
  unfold iunlockput. intros H. inv_bind H as u s1 E.
  apply iunlock_inv in E as (-> & H1 & H2).
  rewrite iput_Ok in H. apply Ok_inv in H as [_ <-]. auto.
Qed.

Lemma create_alloc_proc dp ip type major minor s :
  R_proc s (create_alloc dp ip type major minor s).
Proof. repeat split. Qed.


(** The effect of a returning create of a file or device on a name that
    the parent does not hold. *)
Lemma create_fresh_file s path type major minor dp name r s' :
  type <> T_DIR ->
  resolve_parent s path = Some (dp, name) ->
  dirfind (getino s dp) name = None ->
  create path type major minor s = Ok r s' ->
  exists ip,
    r = Some ip /\ first_free s = Some ip /\ ip <> dp /\ ip <> 0%nat /\
    getino s' ip =
      Inode (i_dev (getino s dp)) (S (i_ref (getino s ip))) true 0 type major
            minor 1 0 "" [] [] /\
    getino s' dp = dir_add (Dirent ip (strtake DIRSIZ name)) (getino s dp) /\
    (forall j, j <> ip -> j <> dp -> getino s' j = getino s j) /\
    trace s' =
      trace s ++
      [EvIalloc ip type; EvIupdate ip (Dinode type major minor 1 0 "")] ++
      dir_add_events dp (Dirent ip (strtake DIRSIZ name)) (getino s dp) /\
    R_proc s s'.
Proof.
  intros Hnd Hpar Hnone H.
  pose proof (resolve_parent_is_dir _ _ _ _ Hpar) as Hdt.
  destruct (create_fresh_prefix _ _ _ _ _ _ _ _ _ Hpar Hnone H)
    as (ip & Hfree & Ldp & Lip & Ht0 & Hne & Hnz & H').
  clear H. exists ip.
  apply Z.eqb_neq in Hnd. rewrite Hnd in H'. rewrite bind_ret in H'.
  set (sa := create_alloc dp ip type major minor s) in *.
  pose proof (create_alloc_dp dp ip type major minor s Hne) as Gdp.
  pose proof (create_alloc_ip dp ip type major minor s Hne) as Gip.
  pose proof (create_alloc_other dp ip type major minor s) as Got.
  pose proof (create_alloc_trace dp ip type major minor s) as Gtr.
  pose proof (create_alloc_proc dp ip type major minor s) as Gpr.
  fold sa in Gdp, Gip, Got, Gtr, Gpr. clearbody sa.
  inv_bind H' as n s5 E5.
  rewrite dirlink_add in E5
    by (rewrite Gdp; fields; unfold dirfind in *; fields; assumption).
  destruct (i_size (getino sa dp) <? _); [discriminate E5|].
  apply Ok_inv in E5 as [<- <-].
  rewrite Z.ltb_irrefl in H'.
  inv_bind H' as u6 s6 E6. apply iunlockput_inv in E6 as (-> & _ & _).
  unfold ret in H'. apply Ok_inv in H' as [<- <-].
  set (de := Dirent ip (strtake DIRSIZ name)) in *.
  set (sb := dir_write dp de sa) in *.
  pose proof (dir_write_dp dp de sa) as Wdp.
  pose proof (dir_write_other dp de sa) as Wot.
  pose proof (dir_write_trace dp de sa) as Wtr.
  pose proof (dir_write_proc dp de sa) as Wpr.
  fold sb in Wdp, Wot, Wtr, Wpr. clearbody sb.
  split; [reflexivity|]. split; [exact Hfree|].
  split; [exact Hne|]. split; [exact Hnz|].
  split; [|split; [|split; [|split]]].
  - gi. rewrite Wot by exact Hne. exact Gip.
  - rewrite !getino_imod_eq, Wdp, Gdp.
    apply (dir_add_released de (getino s dp)), Ldp.
  - intros j Hj1 Hj2. gi. rewrite Wot by exact Hj2.
    apply Got; assumption.
  - unfold imod at 1 2. cbn [trace with_icache].
    rewrite Wtr, Gdp, dir_add_events_held, Gtr, <- app_assoc. reflexivity.
  - destruct Wpr as (P1 & P2 & P3 & P4 & P5).
    destruct Gpr as (Q1 & Q2 & Q3 & Q4 & Q5).
    unfold R_proc, imod.
    cbn [ftable ofile cwd ninodes log_busy with_icache].
    rewrite P1, P2, P3, P4, P5. repeat apply conj; assumption.
Qed.

Lemma dir_add_dot dev r maj min ip :
  dir_add (Dirent ip ".") (Inode dev r true 0 T_DIR maj min 1 0 "" [] []) =
  Inode dev r true 0 T_DIR maj min 1 DESZ "" [Dirent ip "."] [].
Proof. reflexivity. Qed.

Lemma dir_add_dotdot dev r maj min ip dp :
  ip <> 0%nat ->
  dir_add (Dirent dp "..")
    (Inode dev r true 0 T_DIR maj min 1 DESZ "" [Dirent ip "."] []) =
  Inode dev r true 0 T_DIR maj min 1 (2 * DESZ) ""
        [Dirent ip "."; Dirent dp ".."] [].
Proof.
  intros H. unfold dir_add. cbn [free_slot i_dents de_inum].
  rewrite (proj2 (Nat.eqb_neq ip 0) H). reflexivity.
Qed.

Lemma dir_add_events_dot dev r maj min ip :
  dir_add_events ip (Dirent ip ".")
    (Inode dev r true 0 T_DIR maj min 1 0 "" [] []) =
  [EvDirWrite ip 0 (Dirent ip "."); EvIupdate ip (Dinode T_DIR maj min 1 DESZ "")].
Proof. reflexivity. Qed.

Lemma dir_add_events_dotdot dev r maj min ip dp :
  ip <> 0%nat ->
  dir_add_events ip (Dirent dp "..")
    (Inode dev r true 0 T_DIR maj min 1 DESZ "" [Dirent ip "."] []) =
  [EvDirWrite ip DESZ (Dirent dp "..");
   EvIupdate ip (Dinode T_DIR maj min 1 (2 * DESZ) "")].
Proof.
  intros H. unfold dir_add_events, dir_add. cbn [free_slot i_dents de_inum].
  rewrite (proj2 (Nat.eqb_neq ip 0) H). reflexivity.
Qed.

Lemma dirlink_dot_ok d :
  i_size d = 0 -> i_dents d = [] ->
  (i_size d <? DESZ * Z.of_nat (free_slot (i_dents d))) = false.
Proof. intros -> ->. reflexivity. Qed.

Lemma dirlink_dotdot_ok d ip :
  ip <> 0%nat -> i_size d = DESZ -> i_dents d = [Dirent ip "."] ->
  (i_size d <? DESZ * Z.of_nat (free_slot (i_dents d))) = false /\
  dirfind d ".." = None.
Proof.
  intros H Hs Hd. unfold dirfind. rewrite Hs, Hd.
  cbn [free_slot dirscan de_inum de_name].
  rewrite (proj2 (Nat.eqb_neq ip 0) H). split; reflexivity.
Qed.
(** The effect of a returning create of a directory. *)
Lemma create_fresh_dir s path major minor ip s' :
  create path T_DIR major minor s = Ok (Some ip) s' ->
  exists dp name,
    resolve_parent s path = Some (dp, name) /\
    dirfind (getino s dp) name = None /\
    first_free s = Some ip /\ ip <> dp /\ ip <> 0%nat /\
    getino s' ip =
      Inode (i_dev (getino s dp)) (S (i_ref (getino s ip))) true 0 T_DIR
            major minor 1 (2 * DESZ) ""
            [Dirent ip "."; Dirent dp ".."] [] /\
    getino s' dp =
      dir_add (Dirent ip (strtake DIRSIZ name)) (nlink_inc (getino s dp)) /\
    (forall j, j <> ip -> j <> dp -> getino s' j = getino s j) /\
    trace s' =
      trace s ++
      [EvIalloc ip T_DIR;
       EvIupdate ip (Dinode T_DIR major minor 1 0 "");
       EvIupdate dp (dinode_of (nlink_inc (getino s dp)));
       EvDirWrite ip 0 (Dirent ip ".");
       EvIupdate ip (Dinode T_DIR major minor 1 DESZ "");
       EvDirWrite ip DESZ (Dirent dp "..");
       EvIupdate ip (Dinode T_DIR major minor 1 (2 * DESZ) "")] ++
      dir_add_events dp (Dirent ip (strtake DIRSIZ name))
        (nlink_inc (getino s dp)).
Proof.
  intros H.
  (* the parent and the name *)
  assert (Hp : exists dp name, resolve_parent s path = Some (dp, name) /\
                               dirfind (getino s dp) name = None).
  { unfold create in H. inv_bind H as r1 s1 E1. unfold nameiparent in E1.
    destruct (resolve_parent s path) as [[dp name]|] eqn:Hpar;
      inversion E1; subst r1 s1; clear E1; [|discriminate H].
    pose proof (resolve_parent_is_dir _ _ _ _ Hpar) as Hdt.
    exists dp, name. split; [reflexivity|].
    inv_bind H as u2 s2 E2. apply ilock_inv in E2 as (-> & _ & _ & _).
    inv_bind H as r3 s3 E3. unfold dirlookup in E3. revert E3. gi.
    rewrite Hdt, Z.eqb_refl. cbn [negb]. cbv iota.
    unfold dirfind. fields.
    destruct (dirscan name 0 (i_dents (getino s dp))) as [[x off]|];
      [|reflexivity].
    intros E3. inversion E3; subst r3 s3; clear E3. exfalso.
    inv_bind H as u4 s4 E4. inv_bind H as u5 s5 E5.
    rewrite bind_gets in H. change (T_DIR =? T_FILE) with false in H.
    cbn [andb] in H. cbv iota in H.
    inv_bind H as u6 s6 E6. discriminate H. }
  destruct Hp as (dp & name & Hpar & Hnone). exists dp, name.
  pose proof (resolve_parent_is_dir _ _ _ _ Hpar) as Hdt.
  destruct (create_fresh_prefix _ _ _ _ _ _ _ _ _ Hpar Hnone H)
    as (ip' & Hfree & Ldp & Lip & Ht0 & Hne & Hnz & H').
  clear H. rewrite Z.eqb_refl in H'.
  set (sa := create_alloc dp ip' T_DIR major minor s) in *.
  pose proof (create_alloc_dp dp ip' T_DIR major minor s Hne) as Gdp.
  pose proof (create_alloc_ip dp ip' T_DIR major minor s Hne) as Gip.
  pose proof (create_alloc_other dp ip' T_DIR major minor s) as Got.
  pose proof (create_alloc_trace dp ip' T_DIR major minor s) as Gtr.
  fold sa in Gdp, Gip, Got, Gtr. clearbody sa.
  rewrite !bind_bind in H'. rewrite bind_modify in H'.
  rewrite bind_bind in H'.
  rewrite (bind_step _ _ _ _ _ (iupdate_Ok _ _)) in H'.
  rewrite bind_bind in H'.
  set (sb := emit (EvIupdate dp (dinode_of (getino (imod dp nlink_inc sa) dp)))
               (imod dp nlink_inc sa)) in *.
  assert (Gbi : getino sb ip' = getino sa ip') by (unfold sb; gi; reflexivity).
  assert (Gbd : getino sb dp = nlink_inc (getino sa dp))
    by (unfold sb; gi; reflexivity).
  assert (Gbo : forall j, j <> dp -> getino sb j = getino sa j)
    by (intros j Hj; unfold sb; gi; reflexivity).
  assert (Gbt : trace sb =
                trace sa ++ [EvIupdate dp (dinode_of (nlink_inc (getino s dp)))]).
  { unfold sb. simpl. gi. rewrite Gdp. reflexivity. }
  clearbody sb.
  (* the entry "." *)
  inv_bind H' as n1 sc E1.
  rewrite dirlink_add in E1 by (rewrite Gbi, Gip; reflexivity).
  rewrite dirlink_dot_ok in E1 by (rewrite Gbi, Gip; reflexivity).
  apply Ok_inv in E1 as [<- <-].
  rewrite Z.ltb_irrefl in H'. cbv iota in H'.
  set (sc := dir_write ip' (Dirent ip' (strtake DIRSIZ ".")) sb) in *.
  assert (Gci : getino sc ip' =
                Inode (i_dev (getino s dp)) (S (i_ref (getino s ip'))) true 0
                      T_DIR major minor 1 DESZ "" [Dirent ip' "."] []).
  { unfold sc. rewrite dir_write_dp, Gbi, Gip. apply dir_add_dot. }
  assert (Gco : forall j, j <> ip' -> getino sc j = getino sb j)
    by (intros j Hj; unfold sc; apply dir_write_other, Hj).
  assert (Gct : trace sc =
                trace sb ++ [EvDirWrite ip' 0 (Dirent ip' ".");
                             EvIupdate ip' (Dinode T_DIR major minor 1 DESZ "")]).
  { unfold sc. rewrite dir_write_trace, Gbi, Gip. f_equal. }
  clearbody sc.
  (* the entry ".." *)
  rewrite bind_bind in H'. inv_bind H' as n2 sd E2.
  destruct (dirlink_dotdot_ok (getino sc ip') ip' Hnz) as [Hok2 Hnf2];
    [rewrite Gci; reflexivity | rewrite Gci; reflexivity |].
  rewrite dirlink_add in E2 by first [exact Hnf2 | rewrite Gci; reflexivity].
  rewrite Hok2 in E2. apply Ok_inv in E2 as [<- <-].
  rewrite Z.ltb_irrefl in H'. cbv iota in H'. rewrite bind_ret in H'.
  set (sd := dir_write ip' (Dirent dp (strtake DIRSIZ "..")) sc) in *.
  assert (Gdi : getino sd ip' =
                Inode (i_dev (getino s dp)) (S (i_ref (getino s ip'))) true 0
                      T_DIR major minor 1 (2 * DESZ) ""
                      [Dirent ip' "."; Dirent dp ".."] []).
  { unfold sd. rewrite dir_write_dp, Gci. apply dir_add_dotdot, Hnz. }
  assert (Gdo : forall j, j <> ip' -> getino sd j = getino sc j)
    by (intros j Hj; unfold sd; apply dir_write_other, Hj).
  assert (Gdt : trace sd =
                trace sc ++ [EvDirWrite ip' DESZ (Dirent dp "..");
                             EvIupdate ip' (Dinode T_DIR major minor 1
                                              (2 * DESZ) "")]).
  { unfold sd. rewrite dir_write_trace, Gci. f_equal.
    apply dir_add_events_dotdot, Hnz. }
  clearbody sd.
  (* the entry in the parent *)
  assert (Gdd : getino sd dp = nlink_inc (getino sa dp)).
  { rewrite Gdo, Gco, Gbd by congruence. reflexivity. }
  inv_bind H' as n3 se E3.
  rewrite dirlink_add in E3
    by (rewrite Gdd, Gdp; fields; unfold dirfind in *; fields; assumption).
  destruct (i_size (getino sd dp) <? _); [discriminate E3|].
  apply Ok_inv in E3 as [<- <-].
  rewrite Z.ltb_irrefl in H'. cbv iota in H'.
  inv_bind H' as u6 s6 E6. apply iunlockput_inv in E6 as (-> & _ & _).
  unfold ret in H'. apply Ok_inv in H' as [Hip <-].
  injection Hip as ->.
  set (de := Dirent ip (strtake DIRSIZ name)) in *.
  set (se := dir_write dp de sd) in *.
  pose proof (dir_write_dp dp de sd) as Wdp.
  pose proof (dir_write_other dp de sd) as Wot.
  pose proof (dir_write_trace dp de sd) as Wtr.
  fold se in Wdp, Wot, Wtr. clearbody se.
  split; [exact Hpar|]. split; [exact Hnone|]. split; [exact Hfree|].
  split; [exact Hne|]. split; [exact Hnz|].
  split; [|split; [|split]].
  - rewrite !getino_imod_ne, Wot by congruence. exact Gdi.
  - rewrite !getino_imod_eq, Wdp, Gdd, Gdp.
    apply (dir_add_released de (nlink_inc (getino s dp))). exact Ldp.
  - intros j Hj1 Hj2. rewrite !getino_imod_ne, Wot by congruence.
    rewrite Gdo, Gco, Gbo by assumption. apply Got; assumption.
  - unfold imod at 1 2. cbn [trace with_icache].
    rewrite Wtr, Gdd, Gdp, Gdt, Gct, Gbt, Gtr.
    rewrite <- !app_assoc. f_equal. simpl. do 7 f_equal.
    apply (dir_add_events_held dp de (nlink_inc (getino s dp))).
Qed.

Lemma strtake_idem n s : strtake n (strtake n s) = strtake n s.
Proof.
  revert s. induction n as [|n IH]; intros [|c s]; simpl; try reflexivity.
  rewrite IH. reflexivity.
Qed.

Lemma namecmp_take name : namecmp name (strtake DIRSIZ name) = true.
Proof. unfold namecmp. rewrite strtake_idem. apply String.eqb_refl. Qed.

Lemma put_dent_cons k de d rest :
  put_dent (S k) de (d :: rest) = d :: put_dent k de rest.
Proof.
  unfold put_dent. simpl length.
  change (S k <? S (length rest))%nat with (k <? length rest)%nat.
  destruct (k <? length rest)%nat; reflexivity.
Qed.

Lemma dirscan_put name o l de :
  dirscan name o l = None ->
  de_inum de <> 0%nat ->
  namecmp name (de_name de) = true ->
  dirscan name o (put_dent (free_slot l) de l) =
  Some (de_inum de, o + DESZ * Z.of_nat (free_slot l)).
Proof.
  intros Hn Hi Hc. revert o Hn. induction l as [|d rest IH]; intros o Hn.
  - simpl. rewrite Hc, (proj2 (Nat.eqb_neq _ 0) Hi). simpl.
    f_equal. f_equal. unfold DESZ. lia.
  - simpl in Hn. simpl free_slot.
    destruct (de_inum d =? 0)%nat eqn:Hd.
    + unfold put_dent. simpl. rewrite Hc, (proj2 (Nat.eqb_neq _ 0) Hi). simpl.
      f_equal. f_equal. unfold DESZ. lia.
    + rewrite put_dent_cons. simpl. rewrite Hd in *. simpl in *.
      destruct (namecmp name (de_name d)); [discriminate|].
      rewrite (IH _ Hn). f_equal. f_equal. unfold DESZ. lia.
Qed.

Lemma dirscan_put_other n o l de :
  namecmp n (de_name de) = false ->
  dirscan n o (put_dent (free_slot l) de l) = dirscan n o l.
Proof.
  intros Hc. revert o. induction l as [|d rest IH]; intros o.
  - simpl. rewrite Hc, andb_false_r. reflexivity.
  - simpl free_slot. destruct (de_inum d =? 0)%nat eqn:Hd.
    + unfold put_dent. simpl. rewrite Hc, andb_false_r, Hd. reflexivity.
    + rewrite put_dent_cons. simpl. rewrite Hd. simpl.
      destruct (namecmp n (de_name d)); [reflexivity | apply IH].
Qed.

Lemma dir_add_dents de d :
  i_dents (dir_add de d) = put_dent (free_slot (i_dents d)) de (i_dents d).
Proof. unfold dir_add. cbv zeta. destruct (_ <? _); reflexivity. Qed.

Lemma dir_add_type de d : i_type (dir_add de d) = i_type d.
Proof. unfold dir_add. cbv zeta. destruct (_ <? _); reflexivity. Qed.

Lemma dir_add_nlink de d : i_nlink (dir_add de d) = i_nlink d.
Proof. unfold dir_add. cbv zeta. destruct (_ <? _); reflexivity. Qed.

(** C9: every create of a directory that returns the inode ip has found
    the parent dp without the name, and leaves ip with link_count 1 (not
    incremented for its own "."), the link_count of dp incremented once
    (modulo the width of a short), the entries "." -> ip and ".." -> dp as
    the content of ip, and the name -> ip in dp.  Its durable writes are,
    in this order: the new inode with link_count 1, the parent with the
    incremented link_count, the entries "." and ".." of the new directory,
    and only then the entry of the parent. *)
Theorem create_directory s path major minor ip s' :
  create path T_DIR major minor s = Ok (Some ip) s' ->
  exists dp name,
    resolve_parent s path = Some (dp, name) /\
    dirfind (getino s dp) name = None /\
    i_type (getino s' ip) = T_DIR /\
    i_nlink (getino s' ip) = 1 /\
    i_nlink (getino s' dp) = wrap16 (i_nlink (getino s dp) + 1) /\
    i_dents (getino s' ip) = [Dirent ip "."; Dirent dp ".."] /\
    dirfind (getino s' dp) name =
      Some (ip, DESZ * Z.of_nat (free_slot (i_dents (getino s dp)))) /\
    trace s' =
      trace s ++
      [EvIalloc ip T_DIR;
       EvIupdate ip (Dinode T_DIR major minor 1 0 "");
       EvIupdate dp (dinode_of (nlink_inc (getino s dp)));
       EvDirWrite ip 0 (Dirent ip ".");
       EvIupdate ip (Dinode T_DIR major minor 1 DESZ "");
       EvDirWrite ip DESZ (Dirent dp "..");
       EvIupdate ip (Dinode T_DIR major minor 1 (2 * DESZ) "")] ++
      dir_add_events dp (Dirent ip (strtake DIRSIZ name))
        (nlink_inc (getino s dp)).
Proof.
  intros H.
  destruct (create_fresh_dir _ _ _ _ _ _ H)
    as (dp & name & Hpar & Hnone & Hfree & Hne & Hnz & Gip & Gdp & _ & Tr).
  exists dp, name.
  split; [exact Hpar|]. split; [exact Hnone|].
  rewrite Gip, Gdp, dir_add_nlink. unfold dirfind. rewrite dir_add_dents.
  repeat split; try reflexivity.
  - fields. rewrite (dirscan_put name 0 _ (Dirent ip (strtake DIRSIZ name)));
      [reflexivity | exact Hnone | exact Hnz | apply namecmp_take].
  - exact Tr.
Qed.

Lemma create_directory_witness :
  exists s',
    create "/d/x" T_DIR 0 0 fs0 = Ok (Some 10%nat) s' /\
    exists dp name,
      resolve_parent fs0 "/d/x" = Some (dp, name) /\
      dirfind (getino fs0 dp) name = None /\
      i_type (getino s' 10) = T_DIR /\
      i_nlink (getino s' 10) = 1 /\
      i_nlink (getino s' dp) = wrap16 (i_nlink (getino fs0 dp) + 1) /\
      i_dents (getino s' 10) = [Dirent 10 "."; Dirent dp ".."] /\
      dirfind (getino s' dp) name =
        Some (10%nat, DESZ * Z.of_nat (free_slot (i_dents (getino fs0 dp)))) /\
      trace s' =
        trace fs0 ++
        [EvIalloc 10 T_DIR;
         EvIupdate 10 (Dinode T_DIR 0 0 1 0 "");
         EvIupdate dp (dinode_of (nlink_inc (getino fs0 dp)));
         EvDirWrite 10 0 (Dirent 10 ".");
         EvIupdate 10 (Dinode T_DIR 0 0 1 DESZ "");
         EvDirWrite 10 DESZ (Dirent dp "..");
         EvIupdate 10 (Dinode T_DIR 0 0 1 (2 * DESZ) "")] ++
        dir_add_events dp (Dirent 10 (strtake DIRSIZ name))
          (nlink_inc (getino fs0 dp)).
Proof.
  eexists. split; [vm_compute; reflexivity|].
  apply (create_directory fs0 "/d/x" 0 0 10%nat).
  vm_compute. reflexivity.
Defined.

(** ** The descriptor table *)

Lemma kernel_eta s :
  Kernel (icache s) (ninodes s) (ftable s) (ofile s) (cwd s) (log_busy s)
         (trace s) = s.
Proof. destruct s; reflexivity. Qed.

Lemma file_eta fl :
  File (f_type fl) (f_ref fl) (f_readable fl) (f_writable fl) (f_ip fl)
       (f_off fl) = fl.
Proof. destruct fl; reflexivity. Qed.

Lemma find_free_least s n o :
  list_find (fun o => o = None) (take NOFILE (ofile s)) = Some (n, o) <->
  o = None /\ least_free s n.
Proof.
  rewrite list_find_Some. unfold least_free. split.
  - intros (Hn & -> & Hlow). split; [reflexivity|].
    apply lookup_take_Some in Hn as [Hn Hlt].
    split; [exact Hlt|]. split; [exact Hn|].
    intros j Hj Hfree. apply (Hlow j None); [|exact Hj|reflexivity].
    apply lookup_take_Some. split; [exact Hfree | lia].
  - intros (-> & Hlt & Hn & Hlow). split; [|split; [reflexivity|]].
    + apply lookup_take_Some. split; assumption.
    + intros j y Hy Hj ->. apply lookup_take_Some in Hy as [Hy _].
      exact (Hlow j Hj Hy).
Qed.

Lemma find_free_None s :
  list_find (fun o => o = None) (take NOFILE (ofile s)) = None <->
  Forall (fun o => o <> None) (take NOFILE (ofile s)).
Proof. apply list_find_None. Qed.

(** X1: a descriptor that fdalloc returns is the least free slot
    of the table and lies below NOFILE; the slot holds the file afterwards
    and no other slot has changed. *)
Lemma fdalloc_least f s fd s' :
  fdalloc f s = Ok fd s' -> 0 <= fd ->
  exists n, fd = Z.of_nat n /\ least_free s n /\
            s' = with_ofile s (<[n := Some f]> (ofile s)) /\
            ofile s' !! n = Some (Some f) /\
            forall j, j <> n -> ofile s' !! j = ofile s !! j.
Proof.
  unfold fdalloc. intros H Hfd.
  destruct (list_find _ _) as [[n o]|] eqn:E.
  - apply find_free_least in E as [-> Hl].
    apply Ok_inv in H as [<- <-]. exists n.
    split; [reflexivity|]. split; [exact Hl|]. split; [reflexivity|].
    destruct Hl as (_ & Hn & _). cbn [ofile with_ofile]. split.
    + apply list_lookup_insert_eq. eapply lookup_lt_Some, Hn.
    + intros j Hj. apply list_lookup_insert_ne. congruence.
  - apply Ok_inv in H as [<- _]. lia.
Qed.

Lemma least_free_fs_open : least_free fs_open 1.
Proof.
  split; [unfold NOFILE; lia|]. split; [reflexivity|].
  intros [|j] Hj; [discriminate | lia].
Qed.

Lemma fdalloc_least_witness :
  exists s',
    fdalloc 0 fs_open = Ok 1 s' /\
    exists n, 1 = Z.of_nat n /\ least_free fs_open n /\
              s' = with_ofile fs_open (<[n := Some 0%nat]> (ofile fs_open)) /\
              ofile s' !! n = Some (Some 0%nat) /\
              forall j, j <> n -> ofile s' !! j = ofile fs_open !! j.
Proof.
  eexists. split; [vm_compute; reflexivity|].
  apply (fdalloc_least 0 fs_open 1); [vm_compute; reflexivity | lia].
Defined.

(** X2: fdalloc returns -1 exactly when none of the first NOFILE
    slots is free, and then it leaves the state as it was. *)
Lemma fdalloc_full f s s' :
  fdalloc f s = Ok (-1) s' <->
  s' = s /\ Forall (fun o => o <> None) (take NOFILE (ofile s)).
Proof.
  unfold fdalloc. split.
  - intros H. destruct (list_find _ _) as [[n o]|] eqn:E.
    + apply Ok_inv in H as [H _]. lia.
    + apply Ok_inv in H as [_ <-]. split; [reflexivity|].
      apply find_free_None, E.
  - intros [-> H]. apply find_free_None in H. rewrite H. reflexivity.
Qed.

(** X3: a descriptor that fdalloc has returned is accepted by
    argfd, which gives back the file it was allocated for. *)
Lemma fdalloc_argfd f s fd s' :
  fdalloc f s = Ok fd s' -> 0 <= fd ->
  argfd (Some fd) s' = Ok (Some (Z.to_nat fd, f)) s'.
Proof.
  intros H Hfd.
  destruct (fdalloc_least _ _ _ _ H Hfd) as (n & -> & (Hlt & _) & _ & Hn & _).
  unfold argfd. rewrite Nat2Z.id, Hn.
  replace (Z.of_nat n <? 0) with false by (symmetry; apply Z.ltb_ge; lia).
  replace (Z.of_nat NOFILE <=? Z.of_nat n) with false
    by (symmetry; apply Z.leb_gt; lia).
  reflexivity.
Qed.

Lemma fdalloc_argfd_witness :
  exists s',
    fdalloc 0 fs_open = Ok 1 s' /\
    argfd (Some 1) s' = Ok (Some (Z.to_nat 1, 0%nat)) s'.
Proof.
  eexists. split; [vm_compute; reflexivity|].
  apply (fdalloc_argfd 0 fs_open 1); [vm_compute; reflexivity | lia].
Defined.

(** ** dup and close *)

Lemma argfd_Some fd s n f s' :
  argfd fd s = Ok (Some (n, f)) s' ->
  s' = s /\ (n < NOFILE)%nat /\ fd = Some (Z.of_nat n) /\
  ofile s !! n = Some (Some f).
Proof.
  unfold argfd. destruct fd as [fd|]; [|discriminate].
  destruct (fd <? 0) eqn:E1; [discriminate|].
  destruct (Z.of_nat NOFILE <=? fd) eqn:E2; [discriminate|].
  cbn [orb]. apply Z.ltb_ge in E1. apply Z.leb_gt in E2.
  destruct (ofile s !! Z.to_nat fd) as [[g|]|] eqn:E3; try discriminate.
  intros H. apply Ok_inv in H as [H <-].
  injection H as <- <-. rewrite Z2Nat.id by lia.
  split; [reflexivity|]. split; [lia|]. split; [reflexivity | exact E3].
Qed.

Lemma argfd_Ok s n f :
  (n < NOFILE)%nat -> ofile s !! n = Some (Some f) ->
  argfd (Some (Z.of_nat n)) s = Ok (Some (n, f)) s.
Proof.
  intros Hn Ho. unfold argfd. rewrite Nat2Z.id, Ho.
  replace (Z.of_nat n <? 0) with false by (symmetry; apply Z.ltb_ge; lia).
  replace (Z.of_nat NOFILE <=? Z.of_nat n) with false
    by (symmetry; apply Z.leb_gt; lia).
  reflexivity.
Qed.

Lemma argfd_None_inv fd s a s' :
  argfd fd s = Ok a s' -> s' = s.
Proof.
  unfold argfd. intros H.
  repeat match type of H with
         | context [match ?x with _ => _ end] => destruct x
         end;
    apply Ok_inv in H as [_ <-]; reflexivity.
Qed.

Lemma argfd_free s n :
  ofile s !! n = Some None -> argfd (Some (Z.of_nat n)) s = Ok None s.
Proof.
  intros Ho. unfold argfd. rewrite Nat2Z.id, Ho.
  destruct (_ || _); reflexivity.
Qed.

Lemma filedup_Ok s f fl :
  ftable s !! f = Some fl -> (1 <= f_ref fl)%nat ->
  filedup f s =
  Ok tt (with_ftable s (<[f := file_with_ref (S (f_ref fl)) fl]> (ftable s))).
Proof.
  intros Hf Hr. unfold filedup. rewrite Hf.
  replace (f_ref fl <? 1)%nat with false
    by (symmetry; apply Nat.ltb_ge; exact Hr).
  reflexivity.
Qed.

Lemma filedup_inv f s a s' :
  filedup f s = Ok a s' ->
  exists fl, ftable s !! f = Some fl /\ (1 <= f_ref fl)%nat /\
    s' = with_ftable s (<[f := file_with_ref (S (f_ref fl)) fl]> (ftable s)).
Proof.
  unfold filedup. destruct (ftable s !! f) as [fl|]; [|discriminate].
  destruct (f_ref fl <? 1)%nat eqn:E; [discriminate|].
  apply Nat.ltb_ge in E. intros H. apply Ok_inv in H as [_ <-].
  exists fl. auto.
Qed.

(** What a returning sys_dup has done. *)
Lemma sys_dup_inv fd s r s' :
  sys_dup fd s = Ok r s' ->
  (r = -1 /\ s' = s) \/
  exists k n f fl,
    fd = Some (Z.of_nat k) /\ (k < NOFILE)%nat /\
    ofile s !! k = Some (Some f) /\
    r = Z.of_nat n /\ least_free s n /\
    ftable s !! f = Some fl /\ (1 <= f_ref fl)%nat /\
    s' = with_ftable (with_ofile s (<[n := Some f]> (ofile s)))
           (<[f := file_with_ref (S (f_ref fl)) fl]> (ftable s)).
Proof.
  unfold sys_dup. intros H. inv_bind H as a s1 E1.
  pose proof (argfd_None_inv _ _ _ _ E1) as ->.
  destruct a as [[k f]|];
    [|apply Ok_inv in H as [<- <-]; left; split; reflexivity].
  apply argfd_Some in E1 as (_ & Hk & -> & Ho).
  inv_bind H as fd' s2 E2.
  destruct (fd' <? 0) eqn:Efd.
  - apply Z.ltb_lt in Efd. apply Ok_inv in H as [<- <-]. left.
    split; [reflexivity|]. unfold fdalloc in E2.
    destruct (list_find _ _) as [[n o]|].
    + apply Ok_inv in E2 as [E2 _]. lia.
    + apply Ok_inv in E2 as [_ E2]. symmetry. exact E2.
  - apply Z.ltb_ge in Efd.
    destruct (fdalloc_least _ _ _ _ E2 Efd) as (n & -> & Hl & -> & _).
    inv_bind H as u s3 E3. apply Ok_inv in H as [<- <-].
    apply filedup_inv in E3 as (fl & Hf & Hr & ->).
    right. exists k, n, f, fl. cbn [ftable with_ofile] in *.
    split; [reflexivity|]. split; [exact Hk|]. split; [exact Ho|].
    split; [reflexivity|]. split; [exact Hl|]. split; [exact Hf|].
    split; [exact Hr | reflexivity].
Qed.

(** X5: a dup that returns a negative value has changed
    nothing. *)
Lemma sys_dup_failure_keeps_state fd s r s' :
  sys_dup fd s = Ok r s' -> r < 0 -> s' = s.
Proof.
  intros H Hr. apply sys_dup_inv in H as [[_ ->]|H]; [reflexivity|].
  destruct H as (k & n & f & fl & _ & _ & _ & -> & _). lia.
Qed.

Lemma sys_dup_failure_keeps_state_witness :
  sys_dup (Some 0) fs_full = Ok (-1) fs_full /\ -1 < 0 /\ fs_full = fs_full.
Proof.
  assert (H : sys_dup (Some 0) fs_full = Ok (-1) fs_full)
    by (vm_compute; reflexivity).
  split; [exact H|]. split; [lia|].
  apply (sys_dup_failure_keeps_state (Some 0) fs_full (-1) fs_full H). lia.
Defined.

(** X4: dup of an open descriptor returns the least free
    descriptor; both descriptors then name the same open-file object, whose
    reference count has grown by one; inodes, working directory and log
    are not touched. *)
Lemma sys_dup_shares_file s k n f fl :
  (k < NOFILE)%nat -> ofile s !! k = Some (Some f) ->
  ftable s !! f = Some fl -> (1 <= f_ref fl)%nat ->
  least_free s n ->
  exists s',
    sys_dup (Some (Z.of_nat k)) s = Ok (Z.of_nat n) s' /\
    argfd (Some (Z.of_nat k)) s' = Ok (Some (k, f)) s' /\
    argfd (Some (Z.of_nat n)) s' = Ok (Some (n, f)) s' /\
    ftable s' = <[f := file_with_ref (S (f_ref fl)) fl]> (ftable s) /\
    (forall j, j <> n -> ofile s' !! j = ofile s !! j) /\
    icache s' = icache s /\ cwd s' = cwd s /\ trace s' = trace s.
Proof.
  intros Hk Ho Hf Hr Hl.
  assert (Hfind : list_find (fun o => o = None) (take NOFILE (ofile s)) =
                  Some (n, None)) by (apply find_free_least; auto).
  destruct Hl as (Hn & Hfree & _).
  assert (Hkn : k <> n) by congruence.
  eexists. split.
  - unfold sys_dup.
    rewrite (bind_step _ _ _ _ _ (argfd_Ok _ _ _ Hk Ho)). cbv beta iota.
    rewrite (bind_step _ _ _ _ _ (fdalloc_Ok _ _ _ _ Hfind)).
    replace (Z.of_nat n <? 0) with false by (symmetry; apply Z.ltb_ge; lia).
    cbv beta iota.
    rewrite (bind_step _ _ _ _ _
               (filedup_Ok (with_ofile s (<[n := Some f]> (ofile s))) _ _
                  Hf Hr)).
    reflexivity.
  - cbn [ofile ftable with_ofile with_ftable icache cwd trace].
    repeat apply conj; try reflexivity.
    + apply argfd_Ok; [exact Hk|]. cbn [ofile with_ofile with_ftable].
      rewrite list_lookup_insert_ne by congruence. exact Ho.
    + apply argfd_Ok; [exact Hn|]. cbn [ofile with_ofile with_ftable].
      apply list_lookup_insert_eq. eapply lookup_lt_Some, Hfree.
    + intros j Hj. apply list_lookup_insert_ne. congruence.
Qed.

Lemma sys_dup_shares_file_witness :
  exists s',
    sys_dup (Some (Z.of_nat 0)) fs_open = Ok (Z.of_nat 1) s' /\
    argfd (Some (Z.of_nat 0)) s' = Ok (Some (0%nat, 0%nat)) s' /\
    argfd (Some (Z.of_nat 1)) s' = Ok (Some (1%nat, 0%nat)) s' /\
    ftable s' =
      <[0%nat := file_with_ref 2 (File FD_INODE 1 true false 2 0)]>
        (ftable fs_open) /\
    (forall j, j <> 1%nat -> ofile s' !! j = ofile fs_open !! j) /\
    icache s' = icache fs_open /\ cwd s' = cwd fs_open /\
    trace s' = trace fs_open.
Proof.
  apply (sys_dup_shares_file fs_open 0 1 0 (File FD_INODE 1 true false 2 0)).
  - unfold NOFILE. lia.
  - reflexivity.
  - reflexivity.
  - cbn. lia.
  - exact least_free_fs_open.
Defined.

Lemma fileclose_shared s f fl k :
  ftable s !! f = Some fl -> f_ref fl = S (S k) ->
  fileclose f s =
  Ok tt (with_ftable s (<[f := file_with_ref (S k) fl]> (ftable s))).
Proof. intros Hf Hr. unfold fileclose. rewrite Hf, Hr. reflexivity. Qed.

Lemma fileclose_last s f fl :
  ftable s !! f = Some fl -> f_ref fl = 1%nat ->
  fileclose f s =
  let s1 := with_ftable s
              (<[f := File FD_NONE 0 (f_readable fl) (f_writable fl)
                           (f_ip fl) (f_off fl)]> (ftable s)) in
  match f_type fl with
  | FD_INODE =>
      Ok tt (imod (f_ip fl) (fun i => set_ref (Nat.pred (i_ref i)) i) s1)
  | _ => Ok tt s1
  end.
Proof.
  intros Hf Hr. unfold fileclose. rewrite Hf, Hr. cbv zeta.
  destruct (f_type fl); reflexivity.
Qed.

Lemma fileclose_inv f s a s' :
  fileclose f s = Ok a s' ->
  exists fl, ftable s !! f = Some fl /\ (1 <= f_ref fl)%nat /\
             ofile s' = ofile s /\ cwd s' = cwd s /\ trace s' = trace s /\
             log_busy s' = log_busy s.
Proof.
  unfold fileclose. destruct (ftable s !! f) as [fl|]; [|discriminate].
  intros H. exists fl. split; [reflexivity|].
  destruct (f_ref fl) as [|[|k]]; [discriminate| |].
  - split; [lia|]. cbv zeta in H.
    destruct (f_type fl); apply Ok_inv in H as [_ <-];
      repeat split; reflexivity.
  - split; [lia|]. apply Ok_inv in H as [_ <-]. repeat split; reflexivity.
Qed.

(** X6: closing the descriptor that dup has returned gives back
    exactly the state before the dup. *)
Lemma sys_dup_then_close fd s r s' :
  sys_dup fd s = Ok r s' -> 0 <= r -> sys_close (Some r) s' = Ok 0 s.
Proof.
  intros H Hr. apply sys_dup_inv in H as [[-> _]|H]; [lia|].
  destruct H as (k & n & f & fl & -> & Hk & Ho & -> & Hl & Hf & Hfr & ->).
  destruct Hl as (Hn & Hfree & _).
  pose proof (lookup_lt_Some _ _ _ Hfree) as Hlen.
  pose proof (lookup_lt_Some _ _ _ Hf) as Hflen.
  unfold sys_close.
  erewrite bind_step; cycle 1.
  { apply argfd_Ok; [exact Hn|]. cbn [ofile with_ofile with_ftable].
    apply list_lookup_insert_eq, Hlen. }
  cbv beta iota. rewrite bind_modify.
  cbn [ofile ftable with_ofile with_ftable icache ninodes cwd log_busy trace].
  rewrite list_insert_insert_eq, (list_insert_id _ _ _ Hfree).
  destruct (f_ref fl) as [|j] eqn:Efr; [lia|].
  erewrite bind_step; cycle 1.
  { apply (fileclose_shared _ f (file_with_ref (S (S j)) fl) j);
      [|reflexivity].
    cbn [ftable with_ftable]. apply list_lookup_insert_eq, Hflen. }
  cbn [ofile ftable with_ofile with_ftable icache ninodes cwd log_busy trace].
  rewrite list_insert_insert_eq.
  replace (file_with_ref (S j) (file_with_ref (S (S j)) fl)) with fl
    by (unfold file_with_ref; cbn; rewrite <- Efr; symmetry; apply file_eta).
  rewrite (list_insert_id _ _ _ Hf). destruct s; reflexivity.
Qed.

Lemma sys_dup_then_close_witness :
  exists s',
    sys_dup (Some 0) fs_open = Ok 1 s' /\
    sys_close (Some 1) s' = Ok 0 fs_open.
Proof.
  eexists. split; [vm_compute; reflexivity|].
  apply (sys_dup_then_close (Some 0) fs_open 1);
    [vm_compute; reflexivity | lia].
Defined.

(** What a returning sys_close has done. *)
Lemma sys_close_inv fd s r s' :
  sys_close fd s = Ok r s' ->
  (r = -1 /\ s' = s /\
   forall n f, fd = Some (Z.of_nat n) -> (n < NOFILE)%nat ->
               ofile s !! n <> Some (Some f)) \/
  exists n f,
    r = 0 /\ fd = Some (Z.of_nat n) /\ (n < NOFILE)%nat /\
    ofile s !! n = Some (Some f) /\
    fileclose f (with_ofile s (<[n := None]> (ofile s))) = Ok tt s'.
Proof.
  unfold sys_close. intros H. inv_bind H as a s1 E1.
  destruct a as [[n f]|].
  - apply argfd_Some in E1 as (-> & Hn & -> & Ho).
    rewrite bind_modify in H. inv_bind H as u s2 E2.
    apply Ok_inv in H as [<- <-]. destruct u.
    right. exists n, f. auto.
  - apply Ok_inv in H as [<- <-].
    pose proof (argfd_None_inv _ _ _ _ E1) as ->. left.
    split; [reflexivity|]. split; [reflexivity|].
    intros n f -> Hn Ho. rewrite (argfd_Ok _ _ _ Hn Ho) in E1. discriminate.
Qed.

(** X8: a descriptor can be closed once: after a close that
    returned 0, a second close of the same descriptor returns -1 and
    changes nothing. *)
Lemma sys_close_twice fd s s' :
  sys_close fd s = Ok 0 s' -> sys_close fd s' = Ok (-1) s'.
Proof.
  intros H. apply sys_close_inv in H as [[H _]|H]; [discriminate|].
  destruct H as (n & f & _ & -> & Hn & Ho & Hc).
  apply fileclose_inv in Hc as (fl & _ & _ & Hof & _).
  cbn [ofile with_ofile] in Hof.
  assert (Hfree : ofile s' !! n = Some None).
  { rewrite Hof. apply list_lookup_insert_eq. eapply lookup_lt_Some, Ho. }
  unfold sys_close. rewrite (bind_step _ _ _ _ _ (argfd_free s' n Hfree)).
  reflexivity.
Qed.

Lemma sys_close_twice_witness :
  exists s',
    sys_close (Some 0) fs_open = Ok 0 s' /\
    sys_close (Some 0) s' = Ok (-1) s'.
Proof.
  eexists. split; [vm_compute; reflexivity|].
  apply (sys_close_twice (Some 0) fs_open). vm_compute. reflexivity.
Defined.

(** X7: after dup, closing the original descriptor leaves the
    duplicate in place: it still names the same open-file object, whose
    reference count is what it was before the dup. *)
Lemma sys_dup_close_original k s r s' :
  sys_dup (Some (Z.of_nat k)) s = Ok r s' -> 0 <= r ->
  exists f s'',
    ofile s !! k = Some (Some f) /\
    sys_close (Some (Z.of_nat k)) s' = Ok 0 s'' /\
    argfd (Some (Z.of_nat k)) s'' = Ok None s'' /\
    argfd (Some r) s'' = Ok (Some (Z.to_nat r, f)) s'' /\
    ftable s'' = ftable s /\ icache s'' = icache s.
Proof.
  intros H Hr. apply sys_dup_inv in H as [[-> _]|H]; [lia|].
  destruct H as (k' & n & f & fl & Ek & Hk & Ho & -> & Hl & Hf & Hfr & ->).
  injection Ek as Ek. apply Nat2Z.inj in Ek. subst k'.
  destruct Hl as (Hn & Hfree & _).
  assert (Hkn : k <> n) by congruence.
  pose proof (lookup_lt_Some _ _ _ Hfree) as Hlen.
  pose proof (lookup_lt_Some _ _ _ Ho) as Hklen.
  pose proof (lookup_lt_Some _ _ _ Hf) as Hflen.
  destruct (f_ref fl) as [|j] eqn:Efr; [lia|].
  exists f. eexists. split; [exact Ho|]. split.
  - unfold sys_close. erewrite bind_step; cycle 1.
    { apply argfd_Ok; [exact Hk|]. cbn [ofile with_ofile with_ftable].
      rewrite list_lookup_insert_ne by congruence. exact Ho. }
    cbv beta iota. rewrite bind_modify.
    erewrite bind_step; cycle 1.
    { apply (fileclose_shared _ f (file_with_ref (S (S j)) fl) j);
        [|reflexivity].
      cbn [ftable with_ftable with_ofile].
      apply list_lookup_insert_eq, Hflen. }
    reflexivity.
  - cbn [ofile ftable with_ofile with_ftable icache].
    rewrite Nat2Z.id. split; [|split; [|split]].
    + apply argfd_free. cbn [ofile with_ofile with_ftable].
      apply list_lookup_insert_eq. rewrite length_insert. exact Hklen.
    + apply argfd_Ok; [exact Hn|]. cbn [ofile with_ofile with_ftable].
      rewrite list_lookup_insert_ne by congruence.
      apply list_lookup_insert_eq, Hlen.
    + rewrite list_insert_insert_eq.
      replace (file_with_ref (S j) (file_with_ref (S (S j)) fl)) with fl
        by (unfold file_with_ref; cbn; rewrite <- Efr; symmetry;
            apply file_eta).
      apply list_insert_id, Hf.
    + reflexivity.
Qed.

Lemma sys_dup_close_original_witness :
  exists s',
    sys_dup (Some (Z.of_nat 0)) fs_open = Ok 1 s' /\
    exists f s'',
      ofile fs_open !! 0%nat = Some (Some f) /\
      sys_close (Some (Z.of_nat 0)) s' = Ok 0 s'' /\
      argfd (Some (Z.of_nat 0)) s'' = Ok None s'' /\
      argfd (Some 1) s'' = Ok (Some (Z.to_nat 1, f)) s'' /\
      ftable s'' = ftable fs_open /\ icache s'' = icache fs_open.
Proof.
  eexists. split; [vm_compute; reflexivity|].
  apply (sys_dup_close_original 0 fs_open 1);
    [vm_compute; reflexivity | lia].
Defined.

(** ** The readlink of the kernel, and chdir *)

Lemma k_readlink_loop_readlink_loop n : forall ip s,
  k_readlink_loop n ip s =
  match readlink_loop n ip s with
  | Ok (Returned _) s' => Ok (Returned (-1)) s'
  | r => r
  end.
Proof.
  induction n as [|n IH]; intros ip s; [reflexivity|].
  cbn [k_readlink_loop readlink_loop]. unfold bind, gets, ret.
  destruct (namei (i_addrs (getino s ip)) s) as [[sym|] s1| |];
    try reflexivity.
  - destruct (is_symlnk (getino s1 sym)); [|reflexivity].
    destruct (iunlock ip s1) as [u s2| |]; try reflexivity.
    destruct (ilock sym s2) as [u' s3| |]; try reflexivity.
    apply IH.
  - destruct (iunlock ip s1); reflexivity.
Qed.

Lemma readlink_loop_returned n : forall ip s v s',
  readlink_loop n ip s = Ok (Returned v) s' -> v = -2.
Proof.
  induction n as [|n IH]; intros ip s v s' H; [discriminate|].
  cbn [readlink_loop] in H. rewrite bind_gets in H.
  inv_bind H as r s1 E1. destruct r as [sym|].
  - rewrite bind_gets in H. destruct (is_symlnk (getino s1 sym)).
    + inv_bind H as u s2 E2. inv_bind H as u' s3 E3. eapply IH, H.
    + discriminate.
  - inv_bind H as u s2 E2. apply Ok_inv in H as [H _]. congruence.
Qed.

(** X10: k_readlink behaves as sys_readlink with valid arguments
    does, result, buffer and state, except that a broken link gives -1
    instead of -2. *)
Lemma k_readlink_sys_readlink path buf bufsiz s :
  k_readlink path buf bufsiz s =
  broken_as_failure (sys_readlink (Some path) (Some buf) (Some bufsiz) s).
Proof.
  unfold k_readlink, sys_readlink, bind, gets, ret.
  destruct (namei path s) as [[ip|] s1| |]; try reflexivity.
  destruct (ilock ip s1) as [u s2| |]; try reflexivity.
  destruct (is_symlnk (getino s2 ip)); cbn [negb].
  - rewrite k_readlink_loop_readlink_loop.
    destruct (readlink_loop 16 ip s2) as [[t|v|t] s3| |] eqn:E;
      try reflexivity.
    + destruct ((i_type (getino s3 t) =? T_FILE) && is_symlnk (getino s3 t)).
      * cbv zeta. destruct (iunlock t s3); try reflexivity.
        unfold broken_as_failure.
        replace (strlen _ =? -2) with false; [reflexivity|].
        symmetry. apply Z.eqb_neq. unfold strlen. lia.
      * destruct (iunlock t s3); reflexivity.
    + apply readlink_loop_returned in E as ->. reflexivity.
  - destruct (iunlock ip s2); reflexivity.
Qed.

Lemma k_readlink_loop_silent n ip : preserves R_silent (k_readlink_loop n ip).
Proof. revert ip. induction n as [|n IH]; intros ip; simpl; silent. Qed.

Lemma k_readlink_loop_static n ip : preserves R_static (k_readlink_loop n ip).
Proof. revert ip. induction n as [|n IH]; intros ip; simpl; static. Qed.

Lemma k_readlink_silent path buf bufsiz :
  preserves R_silent (k_readlink path buf bufsiz).
Proof.
  unfold k_readlink. pose proof k_readlink_loop_silent. silent.
Qed.

Lemma k_readlink_static path buf bufsiz :
  preserves R_static (k_readlink path buf bufsiz).
Proof.
  unfold k_readlink. pose proof k_readlink_loop_static. static.
Qed.

Lemma getino_with_cwd s c j : getino (with_cwd s c) j = getino s j.
Proof. reflexivity. Qed.

Lemma imod_imod ip f g s :
  imod ip f (imod ip g s) = imod ip (fun i => f (g i)) s.
Proof.
  unfold imod at 1. rewrite getino_imod_eq. unfold imod.
  cbn [icache with_icache ninodes ftable ofile cwd log_busy trace].
  unfold with_icache.
  cbn [icache ninodes ftable ofile cwd log_busy trace].
  rewrite insert_insert_eq. reflexivity.
Qed.

Lemma imod_ext ip f g s :
  f (getino s ip) = g (getino s ip) -> imod ip f s = imod ip g s.
Proof. unfold imod. intros ->. reflexivity. Qed.

Lemma imod_present ip f s v :
  icache s !! ip = Some v -> f v = v -> imod ip f s = s.
Proof.
  intros Hv Hf. unfold imod.
  assert (getino s ip = v) as -> by (unfold getino; rewrite Hv; reflexivity).
  rewrite Hf, (insert_id _ _ _ Hv). destruct s; reflexivity.
Qed.

Lemma icache_iget ip s :
  icache (iget ip s) !! ip =
  Some (set_ref (S (i_ref (getino s ip))) (getino s ip)).
Proof. unfold iget, imod. cbn [icache with_icache]. apply lookup_insert_eq. Qed.

(** Locking and unlocking an inode that has just been referenced leaves
    the reference only. *)
Lemma lock_unlock_iget ip s :
  i_locked (getino s ip) = false ->
  imod ip (set_locked false) (imod ip (set_locked true) (iget ip s)) =
  iget ip s.
Proof.
  intros Hl. rewrite imod_imod.
  apply (imod_present _ _ _ _ (icache_iget ip s)).
  destruct (getino s ip). cbn in *. subst. reflexivity.
Qed.

(** Locking, unlocking and releasing it leaves nothing. *)
Lemma lock_unlockput_iget ip s v :
  icache s !! ip = Some v -> i_locked v = false ->
  imod ip (fun i => set_ref (Nat.pred (i_ref i)) i)
    (imod ip (set_locked false) (imod ip (set_locked true) (iget ip s))) = s.
Proof.
  intros Hv Hl. unfold iget. rewrite !imod_imod.
  apply (imod_present _ _ _ _ Hv).
  destruct v. cbn in *. subst. reflexivity.
Qed.

Lemma getino_present s ip :
  i_type (getino s ip) <> 0 -> icache s !! ip = Some (getino s ip).
Proof.
  unfold getino. destruct (icache s !! ip); [reflexivity|].
  intros H. exfalso. apply H. reflexivity.
Qed.

Lemma resolve_iget s ip p : resolve (iget ip s) p = resolve s p.
Proof. apply static_resolve, iget_static. Qed.

(** X11: on a path that resolves to an inode without the symlink
    flag, k_readlink returns -1, leaves the buffer as it was, and keeps the
    reference that path resolution took: the state differs by that one
    reference. *)
Lemma k_readlink_not_symlink s path buf bufsiz ip :
  resolve s path = Some ip ->
  i_type (getino s ip) <> 0 ->
  i_locked (getino s ip) = false ->
  is_symlnk (getino s ip) = false ->
  k_readlink path buf bufsiz s = Ok (-1, buf) (iget ip s).
Proof.
  intros Hr Ht Hl Hs. unfold k_readlink.
  run namei_Some. run ilock_Ok. rewrite bind_gets.
  assert (is_symlnk (getino (imod ip (set_locked true) (iget ip s)) ip)
          = false) as ->.
  { unfold is_symlnk in *. gi. exact Hs. }
  cbn [negb]. run iunlock_Ok. unfold ret.
  rewrite lock_unlock_iget by exact Hl. reflexivity.
Qed.

Lemma k_readlink_not_symlink_witness :
  resolve fs0 "/f" = Some 2%nat /\
  k_readlink "/f" "" 64 fs0 = Ok (-1, "") (iget 2 fs0).
Proof.
  split; [reflexivity|].
  apply (k_readlink_not_symlink fs0 "/f" "" 64 2).
  - reflexivity.
  - discriminate.
  - reflexivity.
  - reflexivity.
Defined.

(** sys_chdir from the second path resolution on. *)
Lemma chdir_enter s p d :
  resolve s p = Some d ->
  i_type (getino s d) <> 0 ->
  i_locked (getino s d) = false ->
  (r <- namei p ;;
   match r with
   | None => ret (-1)
   | Some ip =>
       ilock ip ;;
       i <- gets (fun s => getino s ip) ;;
       if negb (i_type i =? T_DIR) then
         iunlockput ip ;;
         ret (-1)
       else
         iunlock ip ;;
         c <- gets cwd ;;
         iput c ;;
         modify (fun s => with_cwd s ip) ;;
         ret 0
   end) s =
  if i_type (getino s d) =? T_DIR
  then Ok 0 (with_cwd
               (imod (cwd s) (fun i => set_ref (Nat.pred (i_ref i)) i)
                  (iget d s)) d)
  else Ok (-1) s.
Proof.
  intros Hr Ht Hl. run namei_Some. run ilock_Ok. rewrite bind_gets. gi.
  destruct (i_type (getino s d) =? T_DIR); cbn [negb].
  - run iunlock_Ok. rewrite bind_gets.
    rewrite (bind_step _ _ _ _ _ (iput_Ok _ _)). rewrite bind_modify.
    rewrite lock_unlock_iget by exact Hl. reflexivity.
  - run iunlockput_Ok. unfold ret.
    rewrite (lock_unlockput_iget d s _ (getino_present _ _ Ht) Hl).
    reflexivity.
Qed.

(** X13: chdir to a path that resolves to an unlocked inode without
    the symlink flag: a directory becomes the working directory, with two
    references taken on it (one by k_readlink, which is never released)
    and one released on the old working directory; any other inode gives
    -1, and the reference of k_readlink stays. *)
Theorem sys_chdir_plain s cap buf path ip :
  resolve s path = Some ip ->
  i_type (getino s ip) <> 0 ->
  i_locked (getino s ip) = false ->
  is_symlnk (getino s ip) = false ->
  sys_chdir cap buf (Some path) s =
  if i_type (getino s ip) =? T_DIR
  then Ok 0 (with_cwd
               (imod (cwd s) (fun i => set_ref (Nat.pred (i_ref i)) i)
                  (iget ip (iget ip s))) ip)
  else Ok (-1) (iget ip s).
Proof.
  intros Hr Ht Hl Hs. unfold sys_chdir.
  rewrite (bind_step _ _ _ _ _
             (k_readlink_not_symlink _ _ buf cap _ Hr Ht Hl Hs)).
  cbn [fst snd negb Z.eqb Pos.eqb].
  rewrite (chdir_enter (iget ip s) path ip);
    [| rewrite resolve_iget; exact Hr | gi; exact Ht | gi; exact Hl].
  gi. reflexivity.
Qed.

Lemma sys_chdir_plain_witness :
  resolve fs0 "/d" = Some 3%nat /\
  sys_chdir 64 "" (Some "/d") fs0 =
  (if i_type (getino fs0 3) =? T_DIR
   then Ok 0 (with_cwd
                (imod (cwd fs0) (fun i => set_ref (Nat.pred (i_ref i)) i)
                   (iget 3 (iget 3 fs0))) 3)
   else Ok (-1) (iget 3 fs0)).
Proof.
  split; [reflexivity|].
  apply (sys_chdir_plain fs0 64 "" "/d" 3).
  - reflexivity.
  - discriminate.
  - reflexivity.
  - reflexivity.
Defined.

Lemma imod_comm i j f g s :
  i <> j -> imod i f (imod j g s) = imod j g (imod i f s).
Proof.
  intros Hne. unfold imod at 1 3.
  rewrite !getino_imod_ne by congruence. unfold imod, with_icache.
  cbn [icache ninodes ftable ofile cwd log_busy trace].
  rewrite insert_insert_ne by congruence. reflexivity.
Qed.

Lemma imod_iget_comm i j f s :
  i <> j -> imod i f (iget j s) = iget j (imod i f s).
Proof. intros Hne. apply imod_comm, Hne. Qed.

Lemma strtake_all n s : (String.length s <= n)%nat -> strtake n s = s.
Proof.
  revert s. induction n as [|n IH]; intros [|c s] H; cbn in *;
    try reflexivity; try lia.
  rewrite IH by lia. reflexivity.
Qed.

Lemma safestrcpy_fits dst src n :
  strlen src < n -> safestrcpy dst src n = src.
Proof.
  unfold safestrcpy, strlen. intros H.
  replace (n <=? 0) with false by (symmetry; apply Z.leb_gt; lia).
  apply strtake_all. lia.
Qed.

Lemma k_readlink_loop_S n ip :
  k_readlink_loop (S n) ip =
  (i <- gets (fun s => getino s ip) ;;
   r <- namei (i_addrs i) ;;
   match r with
   | None => iunlock ip ;; ret (Returned (-1))
   | Some sym_ip =>
       si <- gets (fun s => getino s sym_ip) ;;
       if is_symlnk si then
         iunlock ip ;;
         ilock sym_ip ;;
         k_readlink_loop n sym_ip
       else ret (Broke ip)
   end).
Proof. reflexivity. Qed.

(** k_readlink on a link whose target is no link. *)
Lemma k_readlink_one_link s path buf bufsiz ip d :
  resolve s path = Some ip ->
  i_type (getino s ip) = T_FILE ->
  i_locked (getino s ip) = false ->
  is_symlnk (getino s ip) = true ->
  resolve s (i_addrs (getino s ip)) = Some d ->
  is_symlnk (getino s d) = false ->
  strlen (i_addrs (getino s ip)) < bufsiz ->
  k_readlink path buf bufsiz s =
  Ok (strlen (i_addrs (getino s ip)), i_addrs (getino s ip))
     (iget d (iget ip s)).
Proof.
  intros Hr Ht Hl Hs Hres Hsd Hlen.
  assert (Hne : ip <> d) by (intros ->; congruence).
  unfold k_readlink. run namei_Some. run ilock_Ok. rewrite bind_gets.
  assert (is_symlnk (getino (imod ip (set_locked true) (iget ip s)) ip)
          = true) as ->.
  { unfold is_symlnk in *. gi. exact Hs. }
  cbn [negb]. rewrite k_readlink_loop_S.
  rewrite !bind_bind, bind_gets, bind_bind. gi.
  erewrite bind_step; cycle 1.
  { apply namei_Some.
    rewrite (static_resolve s); [exact Hres|].
    etransitivity; [apply iget_static|]. apply R_static_imod. reflexivity. }
  cbv beta iota. rewrite bind_bind, bind_gets.
  assert (is_symlnk
            (getino (iget d (imod ip (set_locked true) (iget ip s))) d)
          = false) as ->.
  { unfold is_symlnk in *. gi. exact Hsd. }
  rewrite bind_ret, bind_gets. gi. rewrite Ht, Z.eqb_refl.
  assert (is_symlnk
            (set_locked true (set_ref (S (i_ref (getino s ip))) (getino s ip)))
          = true) as ->.
  { unfold is_symlnk in *. fields. exact Hs. }
  cbn [andb]. cbv zeta. fields. run iunlock_Ok. unfold ret.
  rewrite safestrcpy_fits by exact Hlen.
  rewrite (imod_iget_comm ip d) by exact Hne.
  rewrite lock_unlock_iget by exact Hl. reflexivity.
Qed.

(** X14: chdir to a path that resolves to a symlink whose target
    fits the buffer and resolves to an inode that is no symlink: a
    directory target becomes the working directory; any other target
    gives -1. *)
Theorem sys_chdir_symlink s cap buf path ip d :
  resolve s path = Some ip ->
  i_type (getino s ip) = T_FILE ->
  i_locked (getino s ip) = false ->
  is_symlnk (getino s ip) = true ->
  resolve s (i_addrs (getino s ip)) = Some d ->
  i_type (getino s d) <> 0 ->
  i_locked (getino s d) = false ->
  is_symlnk (getino s d) = false ->
  strlen (i_addrs (getino s ip)) < cap ->
  sys_chdir cap buf (Some path) s =
  if i_type (getino s d) =? T_DIR
  then Ok 0 (with_cwd
               (imod (cwd s) (fun i => set_ref (Nat.pred (i_ref i)) i)
                  (iget d (iget d (iget ip s)))) d)
  else Ok (-1) (iget d (iget ip s)).
Proof.
  intros Hr Ht Hl Hs Hres Htd Hld Hsd Hlen.
  assert (Hne : ip <> d) by (intros ->; congruence).
  unfold sys_chdir.
  rewrite (bind_step _ _ _ _ _
             (k_readlink_one_link _ _ buf cap _ _ Hr Ht Hl Hs Hres Hsd Hlen)).
  cbn [fst snd].
  replace (strlen (i_addrs (getino s ip)) =? -1) with false
    by (symmetry; apply Z.eqb_neq; unfold strlen; lia).
  cbn [negb].
  rewrite (chdir_enter (iget d (iget ip s)) _ d);
    [| rewrite !resolve_iget; exact Hres | gi; exact Htd | gi; exact Hld].
  gi. reflexivity.
Qed.

Lemma sys_chdir_symlink_witness :
  resolve fs_dirlink "/a" = Some 4%nat /\
  resolve fs_dirlink (i_addrs (getino fs_dirlink 4)) = Some 3%nat /\
  sys_chdir 64 "" (Some "/a") fs_dirlink =
  (if i_type (getino fs_dirlink 3) =? T_DIR
   then Ok 0 (with_cwd
                (imod (cwd fs_dirlink)
                   (fun i => set_ref (Nat.pred (i_ref i)) i)
                   (iget 3 (iget 3 (iget 4 fs_dirlink)))) 3)
   else Ok (-1) (iget 3 (iget 4 fs_dirlink))).
Proof.
  split; [vm_compute; reflexivity|]. split; [vm_compute; reflexivity|].
  apply (sys_chdir_symlink fs_dirlink 64 "" "/a" 4 3).
  - vm_compute. reflexivity.
  - vm_compute. reflexivity.
  - vm_compute. reflexivity.
  - vm_compute. reflexivity.
  - vm_compute. reflexivity.
  - vm_compute. discriminate.
  - vm_compute. reflexivity.
  - vm_compute. reflexivity.
  - vm_compute. reflexivity.
Defined.

(** ** open without a free slot *)

Lemma open_symloop_S n ip :
  open_symloop (S n) ip =
  (i <- gets (fun s => getino s ip) ;;
   if is_symlnk i then
     r <- namei (i_addrs i) ;;
     match r with
     | None => iunlock ip ;; ret (Returned (-1))
     | Some sym_ip =>
         iunlock ip ;;
         ilock sym_ip ;;
         open_symloop n sym_ip
     end
   else ret (Broke ip)).
Proof. reflexivity. Qed.

Lemma filealloc_None s :
  list_find (fun f => f_ref f = 0%nat) (ftable s) = None ->
  filealloc s = Ok None s.
Proof. intros H. unfold filealloc. rewrite H. reflexivity. Qed.

Lemma fdalloc_None f s :
  Forall (fun o => o <> None) (take NOFILE (ofile s)) ->
  fdalloc f s = Ok (-1) s.
Proof. intros H. apply fdalloc_full. auto. Qed.

(** X15: open of an existing path, without O_CREATE and without a
    symlink, when the file table has no free object or the descriptor table
    has no free slot: the call returns -1 and the state is exactly what it
    was (the open-file object and the inode reference are given back). *)
Theorem sys_open_exhausted s path omode ip :
  Z.land omode O_CREATE = 0 ->
  resolve s path = Some ip ->
  i_type (getino s ip) <> 0 ->
  i_locked (getino s ip) = false ->
  is_symlnk (getino s ip) = false ->
  (list_find (fun f => f_ref f = 0%nat) (ftable s) = None \/
   exists fi f0,
     list_find (fun f => f_ref f = 0%nat) (ftable s) = Some (fi, f0) /\
     f_type f0 = FD_NONE /\
     Forall (fun o => o <> None) (take NOFILE (ofile s))) ->
  sys_open (Some path) (Some omode) s = Ok (-1) s.
Proof.
  intros Hc Hr Ht Hl Hs Hfull.
  pose proof (lock_unlockput_iget ip s _ (getino_present _ _ Ht) Hl) as Hback.
  unfold sys_open. rewrite Hc. change (negb (0 =? 0)) with false. cbv iota.
  run namei_Some. run ilock_Ok. rewrite bind_gets. gi.
  destruct ((i_type (getino s ip) =? T_DIR) && negb (omode =? O_RDONLY)).
  { run iunlockput_Ok. unfold ret. rewrite Hback. reflexivity. }
  unfold open_rest. rewrite open_symloop_S, !bind_bind, bind_gets.
  assert (is_symlnk (getino (imod ip (set_locked true) (iget ip s)) ip)
          = false) as ->.
  { unfold is_symlnk in *. gi. exact Hs. }
  rewrite bind_ret.
  destruct Hfull as [Hnone | (fi & f0 & Hfind & Hty & Hfd)].
  - rewrite (bind_step _ _ _ _ _
               (filealloc_None (imod ip (set_locked true) (iget ip s)) Hnone)).
    run iunlockput_Ok. unfold ret. rewrite Hback. reflexivity.
  - rewrite (bind_step _ _ _ _ _
               (filealloc_Ok (imod ip (set_locked true) (iget ip s)) _ _
                  Hfind)).
    cbv beta iota.
    rewrite (bind_step _ _ _ _ _
               (fdalloc_None fi
                  (with_ftable (imod ip (set_locked true) (iget ip s)) _)
                  Hfd)).
    change (-1 <? 0) with true. cbv iota.
    apply list_find_Some in Hfind as (Hfi & Hr0 & _).
    pose proof (lookup_lt_Some _ _ _ Hfi) as Hlen.
    erewrite bind_step; cycle 1.
    { rewrite (fileclose_last _ fi (file_with_ref 1 f0));
        [| apply list_lookup_insert_eq; exact Hlen | reflexivity].
      cbv zeta. cbn [f_type file_with_ref]. rewrite Hty. reflexivity. }
    cbn [ftable with_ftable imod with_icache f_readable f_writable f_ip f_off
         file_with_ref].
    rewrite list_insert_insert_eq.
    replace (File FD_NONE 0 (f_readable f0) (f_writable f0) (f_ip f0)
               (f_off f0)) with f0
      by (destruct f0; cbn in *; subst; reflexivity).
    change (ftable (iget ip s)) with (ftable s).
    rewrite (list_insert_id _ _ _ Hfi).
    replace (with_ftable (with_ftable (imod ip (set_locked true) (iget ip s))
                            (<[fi:=file_with_ref 1 f0]> (ftable s)))
               (ftable s))
      with (imod ip (set_locked true) (iget ip s))
      by (destruct s; reflexivity).
    run iunlockput_Ok. unfold ret. rewrite Hback. reflexivity.
Qed.

Lemma sys_open_exhausted_witness :
  resolve fs_full "/f" = Some 2%nat /\
  Forall (fun o => o <> None) (take NOFILE (ofile fs_full)) /\
  sys_open (Some "/f") (Some O_RDONLY) fs_full = Ok (-1) fs_full.
Proof.
  assert (Hfull : Forall (fun o : option nat => o <> None)
                    (take NOFILE (ofile fs_full))).
  { unfold NOFILE. cbn. repeat (constructor; [discriminate|]). constructor. }
  split; [vm_compute; reflexivity|]. split; [exact Hfull|].
  apply (sys_open_exhausted fs_full "/f" O_RDONLY 2).
  - reflexivity.
  - vm_compute. reflexivity.
  - vm_compute. discriminate.
  - vm_compute. reflexivity.
  - vm_compute. reflexivity.
  - right. exists 1%nat, closed_file.
    split; [vm_compute; reflexivity|]. split; [reflexivity | exact Hfull].
Defined.

(** ** pipe *)

Lemma filealloc_inv s r s' :
  filealloc s = Ok r s' ->
  match r with
  | None => s' = s /\ Forall (fun f => f_ref f <> 0%nat) (ftable s)
  | Some fi =>
      exists f0, ftable s !! fi = Some f0 /\ f_ref f0 = 0%nat /\
                 s' = with_ftable s (<[fi := file_with_ref 1 f0]> (ftable s))
  end.
Proof.
  unfold filealloc.
  destruct (list_find _ _) as [[fi f0]|] eqn:E; intros H;
    apply Ok_inv in H as [<- <-].
  - apply list_find_Some in E as (Hfi & Hr & _). exists f0. auto.
  - split; [reflexivity|]. apply list_find_None in E. exact E.
Qed.

Lemma fileclose_fresh s f fl :
  ftable s !! f = Some fl -> f_ref fl = 1%nat -> f_type fl <> FD_INODE ->
  fileclose f s =
  Ok tt (with_ftable s
           (<[f := File FD_NONE 0 (f_readable fl) (f_writable fl) (f_ip fl)
                        (f_off fl)]> (ftable s))).
Proof.
  intros Hf Hr Hty. rewrite (fileclose_last _ _ _ Hf Hr). cbv zeta.
  destruct (f_type fl); congruence.
Qed.

Lemma with_ftable_same s : with_ftable s (ftable s) = s.
Proof. destruct s; reflexivity. Qed.

Lemma with_ofile_same s : with_ofile s (ofile s) = s.
Proof. destruct s; reflexivity. Qed.

Lemma alter_as_insert {A} (f : A -> A) (l : list A) i x :
  l !! i = Some x -> alter f i l = <[i := f x]> l.
Proof.
  revert i. induction l as [|y l IH]; intros [|i] H; try discriminate.
  - injection H as ->. reflexivity.
  - cbn in *. f_equal. apply IH, H.
Qed.

(** What a returning pipealloc has done. *)
Lemma pipealloc_inv s r s1 :
  free_slots_clean s ->
  pipealloc s = Ok r s1 ->
  match r with
  | None => s1 = s
  | Some (rf, wf) =>
      exists x0 x1,
        rf <> wf /\
        ftable s !! rf = Some x0 /\ f_ref x0 = 0%nat /\
        ftable s !! wf = Some x1 /\ f_ref x1 = 0%nat /\
        s1 = with_ftable s
               (<[wf := pipe_end false (file_with_ref 1 x1)]>
                  (<[rf := pipe_end true (file_with_ref 1 x0)]> (ftable s)))
  end.
Proof.
  intros Hclean H. unfold pipealloc in H.
  inv_bind H as r0 s0 E0. apply filealloc_inv in E0.
  destruct r0 as [f0|];
    [|destruct E0 as [-> _]; apply Ok_inv in H as [<- <-]; reflexivity].
  destruct E0 as (x0 & Hf0 & Hr0 & ->).
  pose proof (lookup_lt_Some _ _ _ Hf0) as Hlen0.
  inv_bind H as r1 s2 E1. apply filealloc_inv in E1.
  cbn [ftable with_ftable] in E1.
  destruct r1 as [f1|].
  - destruct E1 as (x1 & Hf1 & Hr1 & ->).
    rewrite bind_modify in H. apply Ok_inv in H as [<- <-].
    assert (Hne : f0 <> f1).
    { intros <-. rewrite list_lookup_insert_eq in Hf1 by exact Hlen0.
      injection Hf1 as <-. discriminate Hr1. }
    rewrite list_lookup_insert_ne in Hf1 by exact Hne.
    exists x0, x1. split; [exact Hne|]. split; [exact Hf0|].
    split; [exact Hr0|]. split; [exact Hf1|]. split; [exact Hr1|].
    cbn [ftable with_ftable].
    pose proof (lookup_lt_Some _ _ _ Hf1) as Hlen1.
    rewrite (alter_as_insert (pipe_end true) _ f0 (file_with_ref 1 x0));
      [| rewrite list_lookup_insert_ne by congruence;
         apply list_lookup_insert_eq; exact Hlen0].
    rewrite (alter_as_insert (pipe_end false) _ f1 (file_with_ref 1 x1));
      [| rewrite list_lookup_insert_ne by congruence;
         apply list_lookup_insert_eq; rewrite length_insert; exact Hlen1].
    rewrite (list_insert_insert_ne _ f0 f1) by exact Hne.
    rewrite list_insert_insert_eq.
    rewrite (list_insert_insert_ne _ f1 f0) by congruence.
    rewrite list_insert_insert_eq.
    rewrite (list_insert_insert_ne _ f0 f1) by exact Hne.
    destruct s; reflexivity.
  - destruct E1 as [-> _].
    inv_bind H as u s3 E3. apply Ok_inv in H as [<- <-].
    rewrite (fileclose_fresh _ f0 (file_with_ref 1 x0)) in E3;
      [| apply list_lookup_insert_eq; exact Hlen0 | reflexivity
       | cbn [f_type file_with_ref]; rewrite (Hclean _ _ Hf0 Hr0);
         discriminate].
    apply Ok_inv in E3 as [_ <-].
    cbn [ftable with_ftable f_readable f_writable f_ip f_off file_with_ref].
    rewrite list_insert_insert_eq.
    replace (File FD_NONE 0 (f_readable x0) (f_writable x0) (f_ip x0)
               (f_off x0)) with x0
      by (pose proof (Hclean _ _ Hf0 Hr0); destruct x0; cbn in *; subst;
          reflexivity).
    rewrite (list_insert_id _ _ _ Hf0). destruct s; reflexivity.
Qed.

Lemma fdalloc_neg f s fd s' :
  fdalloc f s = Ok fd s' -> fd < 0 -> s' = s.
Proof.
  unfold fdalloc. destruct (list_find _ _) as [[n o]|]; intros H Hfd;
    apply Ok_inv in H as [<- <-]; [lia | reflexivity].
Qed.

(** X17: a pipe call that does not return 0 returns -1, leaves the
    array of the caller as it was, and keeps neither a descriptor nor a
    reference to an open-file object: descriptor table, reference counts
    of the file table, inodes and log are as before. *)
Theorem sys_pipe_failure_rolls_back s a r out s' :
  free_slots_clean s ->
  sys_pipe (Some a) s = Ok (r, out) s' -> r <> 0 ->
  r = -1 /\ out = Some a /\
  ofile s' = ofile s /\ f_ref <$> ftable s' = f_ref <$> ftable s /\
  icache s' = icache s /\ trace s' = trace s.
Proof.
  intros Hclean H Hr. unfold sys_pipe in H.
  inv_bind H as p s1 E1. apply (pipealloc_inv _ _ _ Hclean) in E1.
  destruct p as [[rf wf]|].
  2:{ subst s1. apply Ok_inv in H as [H <-]. injection H as <- <-.
      repeat split; reflexivity. }
  destruct E1 as (x0 & x1 & Hne & Hf0 & Hr0 & Hf1 & Hr1 & ->).
  pose proof (lookup_lt_Some _ _ _ Hf0) as Hlen0.
  pose proof (lookup_lt_Some _ _ _ Hf1) as Hlen1.
  set (t1 := <[wf := pipe_end false (file_with_ref 1 x1)]>
               (<[rf := pipe_end true (file_with_ref 1 x0)]> (ftable s)))
    in *.
  assert (Ht0 : t1 !! rf = Some (pipe_end true (file_with_ref 1 x0))).
  { unfold t1. rewrite list_lookup_insert_ne by congruence.
    apply list_lookup_insert_eq, Hlen0. }
  assert (Ht1 : t1 !! wf = Some (pipe_end false (file_with_ref 1 x1))).
  { unfold t1. apply list_lookup_insert_eq. rewrite length_insert.
    exact Hlen1. }
  (* the two closes of the failure paths *)
  assert (Hclose : forall o,
    (fileclose rf ;; fileclose wf ;; ret (-1, Some a))
      (with_ofile (with_ftable s t1) o) = Ok (r, out) s' ->
    r = -1 /\ out = Some a /\ ofile s' = o /\
    f_ref <$> ftable s' = f_ref <$> ftable s /\
    icache s' = icache s /\ trace s' = trace s).
  { intros o Hc.
    rewrite (bind_step _ _ _ _ _
               (fileclose_fresh (with_ofile (with_ftable s t1) o) rf _ Ht0
                  eq_refl ltac:(discriminate)))
      in Hc.
    cbn [ftable with_ftable with_ofile] in Hc.
    erewrite bind_step in Hc; cycle 1.
    { apply (fileclose_fresh _ wf (pipe_end false (file_with_ref 1 x1)));
        [|reflexivity|discriminate].
      cbn [ftable with_ftable with_ofile].
      rewrite list_lookup_insert_ne by congruence. exact Ht1. }
    apply Ok_inv in Hc as [Hc <-]. injection Hc as <- <-.
    cbn [ftable ofile icache trace with_ftable with_ofile].
    repeat apply conj; try reflexivity.
    unfold t1. rewrite !list_fmap_insert. cbn [f_ref].
    rewrite (list_insert_insert_ne _ rf wf) by exact Hne.
    rewrite !list_insert_insert_eq.
    rewrite (list_insert_id (f_ref <$> ftable s) rf)
      by (rewrite list_lookup_fmap, Hf0; cbn; congruence).
    apply list_insert_id.
    rewrite list_lookup_fmap, Hf1. cbn. congruence. }
  inv_bind H as fd0 s2 E2.
  destruct (fd0 <? 0) eqn:E0.
  - apply Z.ltb_lt in E0. pose proof (fdalloc_neg _ _ _ _ E2 E0) as ->.
    rewrite <- (with_ofile_same (with_ftable s t1)) in H.
    apply Hclose in H. exact H.
  - apply Z.ltb_ge in E0.
    destruct (fdalloc_least _ _ _ _ E2 E0) as (n0 & -> & Hl0 & -> & _).
    inv_bind H as fd1 s3 E3.
    destruct (fd1 <? 0) eqn:E1'.
    + apply Z.ltb_lt in E1'. pose proof (fdalloc_neg _ _ _ _ E3 E1') as ->.
      rewrite bind_modify in H. rewrite Nat2Z.id in H.
      cbn [ofile with_ofile with_ftable] in H.
      destruct Hl0 as (_ & Hfree & _). cbn [ofile with_ftable] in Hfree.
      rewrite list_insert_insert_eq, (list_insert_id _ _ _ Hfree) in H.
      replace (with_ofile (with_ofile (with_ftable s t1)
                             (<[n0:=Some rf]> (ofile s))) (ofile s))
        with (with_ofile (with_ftable s t1) (ofile s)) in H
        by reflexivity.
      apply Hclose in H. exact H.
    + apply Ok_inv in H as [H _]. injection H as <- _. congruence.
Qed.

Lemma free_slots_clean_replicate s :
  (forall f fl, ftable s !! f = Some fl ->
                fl = closed_file \/ f_ref fl <> 0%nat) ->
  free_slots_clean s.
Proof.
  intros H f fl Hf Hr. destruct (H f fl Hf) as [->|Hn];
    [reflexivity | contradiction].
Qed.

Lemma free_slots_clean_fs_full : free_slots_clean fs_full.
Proof.
  apply free_slots_clean_replicate.
  intros [|[|[|[|f]]]] fl H; try discriminate; injection H as <-;
    [right; discriminate | left; reflexivity | left; reflexivity
    | left; reflexivity].
Qed.

Lemma free_slots_clean_fs_open : free_slots_clean fs_open.
Proof.
  apply free_slots_clean_replicate.
  intros [|[|[|[|f]]]] fl H; try discriminate; injection H as <-;
    [right; discriminate | left; reflexivity | left; reflexivity
    | left; reflexivity].
Qed.

Lemma sys_pipe_failure_rolls_back_witness :
  exists s',
    sys_pipe (Some (7, 8)) fs_full = Ok (-1, Some (7, 8)) s' /\
    -1 = -1 /\ Some (7, 8) = Some (7, 8) /\
    ofile s' = ofile fs_full /\
    f_ref <$> ftable s' = f_ref <$> ftable fs_full /\
    icache s' = icache fs_full /\ trace s' = trace fs_full.
Proof.
  eexists. split; [vm_compute; reflexivity|].
  apply (sys_pipe_failure_rolls_back fs_full (7, 8) (-1) (Some (7, 8)));
    [exact free_slots_clean_fs_full | vm_compute; reflexivity | lia].
Defined.

(** X16: a pipe call that returns 0 has stored in the array of the
    caller the two least free descriptors, in increasing order, the first
    for the read end and the second for the write end that pipealloc gave. *)
Theorem sys_pipe_descriptors s a out s' :
  free_slots_clean s ->
  sys_pipe (Some a) s = Ok (0, out) s' ->
  exists n0 n1 rf wf s1,
    pipealloc s = Ok (Some (rf, wf)) s1 /\
    out = Some (Z.of_nat n0, Z.of_nat n1) /\
    least_free s n0 /\ (n0 < n1 < NOFILE)%nat /\
    ofile s !! n1 = Some None /\
    (forall j, (n0 < j < n1)%nat -> ofile s !! j <> Some None) /\
    rf <> wf /\
    s' = with_ofile s1 (<[n1 := Some wf]> (<[n0 := Some rf]> (ofile s))).
Proof.
  intros Hclean H. unfold sys_pipe in H.
  inv_bind H as p s1 E1. pose proof E1 as Hpipe.
  apply (pipealloc_inv _ _ _ Hclean) in E1.
  destruct p as [[rf wf]|];
    [|apply Ok_inv in H as [H _]; discriminate].
  destruct E1 as (x0 & x1 & Hne & Hf0 & Hr0 & Hf1 & Hr1 & Es1).
  assert (Hof : ofile s1 = ofile s) by (rewrite Es1; reflexivity).
  clear Es1 Hf0 Hr0 Hf1 Hr1 x0 x1.
  inv_bind H as fd0 s2 E2.
  destruct (fd0 <? 0) eqn:E0.
  { inv_bind H as u3 s3 E3. inv_bind H as u4 s4 E4.
    apply Ok_inv in H as [H _]. discriminate. }
  apply Z.ltb_ge in E0.
  destruct (fdalloc_least _ _ _ _ E2 E0) as (n0 & -> & Hl0 & -> & _).
  inv_bind H as fd1 s3 E3.
  destruct (fd1 <? 0) eqn:E1'.
  { rewrite bind_modify in H. inv_bind H as u3 s4 E4.
    inv_bind H as u4 s5 E5. apply Ok_inv in H as [H _]. discriminate. }
  apply Z.ltb_ge in E1'.
  destruct (fdalloc_least _ _ _ _ E3 E1') as (n1 & -> & Hl1 & -> & _).
  apply Ok_inv in H as [H <-]. injection H as <-.
  destruct Hl1 as (Hn1 & Hfree1 & Hlow1).
  destruct Hl0 as (Hn0 & Hfree0 & Hlow0).
  cbn [ofile with_ofile] in *. rewrite Hof in *.
  assert (Hlen : (n0 < length (ofile s))%nat)
    by (eapply lookup_lt_Some, Hfree0).
  assert (Hne01 : n0 <> n1).
  { intros <-. rewrite list_lookup_insert_eq in Hfree1 by exact Hlen.
    discriminate. }
  rewrite list_lookup_insert_ne in Hfree1 by exact Hne01.
  assert (Hlt : (n0 < n1)%nat).
  { destruct (Nat.lt_ge_cases n0 n1) as [Hlt|Hge]; [exact Hlt|].
    exfalso. apply (Hlow0 n1); [lia | exact Hfree1]. }
  exists n0, n1, rf, wf, s1.
  split; [exact Hpipe|]. split; [reflexivity|].
  split; [repeat split; assumption|].
  split; [lia|]. split; [exact Hfree1|]. split; [|split; [exact Hne|]].
  - intros j [Hj0 Hj1] Hj. apply (Hlow1 j Hj1).
    rewrite list_lookup_insert_ne by lia. exact Hj.
  - destruct s1; reflexivity.
Qed.

Lemma sys_pipe_descriptors_witness :
  exists s',
    sys_pipe (Some (7, 8)) fs_open = Ok (0, Some (1, 2)) s' /\
    exists n0 n1 rf wf s1,
      pipealloc fs_open = Ok (Some (rf, wf)) s1 /\
      Some (1, 2) = Some (Z.of_nat n0, Z.of_nat n1) /\
      least_free fs_open n0 /\ (n0 < n1 < NOFILE)%nat /\
      ofile fs_open !! n1 = Some None /\
      (forall j, (n0 < j < n1)%nat -> ofile fs_open !! j <> Some None) /\
      rf <> wf /\
      s' = with_ofile s1
             (<[n1 := Some wf]> (<[n0 := Some rf]> (ofile fs_open))).
Proof.
  eexists. split; [vm_compute; reflexivity|].
  apply (sys_pipe_descriptors fs_open (7, 8) (Some (1, 2)));
    [exact free_slots_clean_fs_open | vm_compute; reflexivity].
Defined.

(** ** exec *)

Section ExecProps.

Variable fetchint : Z -> option Z.
Variable fetchstr : Z -> option string.

Lemma exec_args_from n : forall i uargv acc res,
  exec_args fetchint fetchstr n i uargv acc = Some res <->
  exists rest,
    res = acc ++ rest /\ (length rest < n)%nat /\
    (forall k str, rest !! k = Some str ->
                   arg_at fetchint fetchstr uargv (i + Z.of_nat k) str) /\
    fetchint (wrapu32 (uargv + 4 * (i + Z.of_nat (length rest)))) = Some 0.
Proof.
  induction n as [|n IH]; intros i uargv acc res; cbn [exec_args].
  { split; [discriminate|]. intros (rest & _ & H & _). lia. }
  split.
  - destruct (fetchint (wrapu32 (uargv + 4 * i))) as [p|] eqn:Ep;
      [|discriminate].
    destruct (Z.eqb_spec p 0) as [->|Hp].
    + intros H. injection H as <-. exists [].
      rewrite app_nil_r. split; [reflexivity|]. split; [cbn; lia|].
      split; [intros k str Hk; discriminate|].
      cbn. rewrite Z.add_0_r. exact Ep.
    + destruct (fetchstr p) as [str|] eqn:Es; [|discriminate].
      intros H. apply IH in H as (rest & -> & Hlen & Hall & Hend).
      exists (str :: rest). rewrite <- app_assoc.
      split; [reflexivity|]. split; [cbn; lia|]. split.
      * intros [|k] str' Hk.
        -- injection Hk as <-. exists p. rewrite Z.add_0_r. auto.
        -- replace (i + Z.of_nat (S k)) with (i + 1 + Z.of_nat k) by lia.
           apply Hall, Hk.
      * replace (i + Z.of_nat (length (str :: rest)))
          with (i + 1 + Z.of_nat (length rest)) by (cbn [length]; lia).
        exact Hend.
  - intros (rest & -> & Hlen & Hall & Hend).
    destruct rest as [|str rest].
    + cbn in Hend. rewrite Z.add_0_r in Hend. rewrite Hend.
      rewrite app_nil_r. reflexivity.
    + destruct (Hall 0%nat str eq_refl) as (p & Ep & Hp & Es).
      rewrite Z.add_0_r in Ep. rewrite Ep.
      apply Z.eqb_neq in Hp. rewrite Hp, Es.
      apply IH. exists rest. rewrite <- app_assoc.
      split; [reflexivity|]. split; [cbn in Hlen; lia|]. split.
      * intros k str' Hk.
        replace (i + 1 + Z.of_nat k) with (i + Z.of_nat (S k)) by lia.
        apply Hall. exact Hk.
      * replace (i + 1 + Z.of_nat (length rest))
          with (i + Z.of_nat (length (str :: rest))) by (cbn [length]; lia).
        exact Hend.
Qed.

Lemma exec_args_vector n uargv argv :
  exec_args fetchint fetchstr n 0 uargv [] = Some argv <->
  arg_vector fetchint fetchstr n uargv argv.
Proof.
  rewrite exec_args_from. unfold arg_vector. split.
  - intros (rest & -> & H). exact H.
  - intros H. exists argv. split; [reflexivity | exact H].
Qed.

Variable exec : string -> list string -> M Z.
Variable MAXARG : nat.

(** X18: sys_exec hands to exec the strings that the argument
    vector of the caller points to, in order, up to the first null
    pointer. *)
Theorem sys_exec_passes_arguments path uargv argv s :
  arg_vector fetchint fetchstr MAXARG uargv argv ->
  sys_exec fetchint fetchstr exec MAXARG (Some path) (Some uargv) s =
  exec path argv s.
Proof.
  intros H. unfold sys_exec.
  rewrite (proj2 (exec_args_vector MAXARG uargv argv) H). reflexivity.
Qed.

(** X19: when the memory of the caller holds no such vector
    within MAXARG words (a fetch fails, or MAXARG words hold no null
    pointer), sys_exec returns -1 and does not call exec. *)
Theorem sys_exec_rejects_bad_vector path uargv s :
  (forall argv, ~ arg_vector fetchint fetchstr MAXARG uargv argv) ->
  sys_exec fetchint fetchstr exec MAXARG (Some path) (Some uargv) s =
  Ok (-1) s.
Proof.
  intros H. unfold sys_exec.
  destruct (exec_args fetchint fetchstr MAXARG 0 uargv []) as [argv|] eqn:E;
    [|reflexivity].
  exfalso. apply (H argv), exec_args_vector, E.
Qed.

End ExecProps.

Lemma sys_exec_passes_arguments_witness :
  arg_vector mem_words mem_strings 32 100 ["ls"; "-l"] /\
  sys_exec mem_words mem_strings (fun p a => ret (strlen p)) 32
    (Some "/bin/ls") (Some 100) fs0 =
  ret (strlen "/bin/ls") fs0.
Proof.
  assert (H : arg_vector mem_words mem_strings 32 100 ["ls"; "-l"]).
  { split; [cbn; lia|]. split; [|reflexivity].
    intros [|[|k]] str Hk; try discriminate; injection Hk as <-.
    - exists 200. repeat split. discriminate.
    - exists 300. repeat split. discriminate. }
  split; [exact H|].
  apply (sys_exec_passes_arguments mem_words mem_strings
           (fun p a => ret (strlen p)) 32 "/bin/ls" 100 ["ls"; "-l"] fs0 H).
Defined.

Lemma sys_exec_rejects_bad_vector_witness :
  (forall argv, ~ arg_vector mem_words mem_strings 2 100 argv) /\
  sys_exec mem_words mem_strings (fun p a => ret 0) 2
    (Some "/bin/ls") (Some 100) fs0 = Ok (-1) fs0.
Proof.
  assert (H : forall argv, ~ arg_vector mem_words mem_strings 2 100 argv).
  { intros argv (Hlen & Hall & Hend).
    destruct argv as [|a [|b argv]]; cbn in Hlen; try lia.
    - discriminate Hend.
    - discriminate Hend. }
  split; [exact H|].
  apply (sys_exec_rejects_bad_vector mem_words mem_strings
           (fun p a => ret 0) 2 "/bin/ls" 100 fs0 H).
Defined.

(** ** Paths after mkdir, mknod and link *)

#[export] Instance R_proc_preorder : PreOrder R_proc.
Proof.
  split.
  - intros s. repeat split.
  - intros a b c (H1 & H2 & H3 & H4 & H5) (G1 & G2 & G3 & G4 & G5).
    unfold R_proc. rewrite G1, G2, G3, G4, G5. auto.
Qed.

Lemma ilock_proc ip : preserves R_proc (ilock ip).
Proof. intros s a s' H. apply ilock_inv in H as [-> _]. repeat split. Qed.

Lemma iunlockput_proc ip : preserves R_proc (iunlockput ip).
Proof.
  intros s a s' H. apply iunlockput_inv in H as [-> _]. repeat split.
Qed.

Lemma iput_proc ip : preserves R_proc (iput ip).
Proof.
  intros s a s' H. rewrite iput_Ok in H. apply Ok_inv in H as [_ <-].
  repeat split.
Qed.

Lemma nameiparent_proc p : preserves R_proc (nameiparent p).
Proof.
  intros s a s' H. unfold nameiparent in H. prim_cases H; repeat split.
Qed.

Lemma dirlookup_proc dp name : preserves R_proc (dirlookup dp name).
Proof.
  intros s a s' H. unfold dirlookup in H. prim_cases H; repeat split.
Qed.

Lemma ialloc_proc dev type : preserves R_proc (ialloc dev type).
Proof. intros s a s' H. unfold ialloc in H. prim_cases H; repeat split. Qed.

Lemma iupdate_proc ip : preserves R_proc (iupdate ip).
Proof.
  intros s a s' H. rewrite iupdate_Ok in H. apply Ok_inv in H as [_ <-].
  repeat split.
Qed.

Lemma modify_imod_proc ip f : preserves R_proc (modify (imod ip f)).
Proof. intros s a s' H. apply Ok_inv in H as [_ <-]. repeat split. Qed.

Lemma writei_de_proc dp off de : preserves R_proc (writei_de dp off de).
Proof.
  intros s a s' H. unfold writei_de in H. cbv zeta in H.
  destruct ((off <? 0) || (i_size (getino s dp) <? off)).
  - apply Ok_inv in H as [_ <-]. repeat split.
  - destruct (i_size (getino s dp) <? off + DESZ);
      apply Ok_inv in H as [_ <-]; repeat split.
Qed.

Create HintDb proc discriminated.

#[export] Hint Resolve ilock_proc iunlockput_proc iput_proc nameiparent_proc
  dirlookup_proc ialloc_proc iupdate_proc modify_imod_proc writei_de_proc
  : proc.

Ltac proc := repeat pres_step; auto with proc.

Lemma dirlink_proc dp name inum : preserves R_proc (dirlink dp name inum).
Proof. unfold dirlink. proc. Qed.

#[export] Hint Resolve dirlink_proc : proc.

Lemma create_proc path type major minor :
  preserves R_proc (create path type major minor).
Proof. unfold create. proc. Qed.

(** ** chdir in general *)

Lemma all_linked_intro s :
  forallb (fun x => (i_type (snd x) =? 0) || (1 <=? i_nlink (snd x)))
          (map_to_list (icache s)) = true ->
  all_linked s.
Proof.
  intros H j. unfold getino. destruct (icache s !! j) as [i|] eqn:E.
  - apply elem_of_map_to_list, list_elem_of_In in E.
    rewrite forallb_forall in H. specialize (H _ E). simpl in *.
    intros Ht. apply orb_true_iff in H as [H|H].
    + apply Z.eqb_eq in H. contradiction.
    + apply Z.leb_le, H.
  - intros X. exfalso. apply X. reflexivity.
Qed.

Lemma all_linked_fs_cwd : all_linked fs_cwd.
Proof. apply all_linked_intro. vm_compute. reflexivity. Qed.

Lemma namei_proc p : preserves R_proc (namei p).
Proof. intros s a s' H. unfold namei in H. prim_cases H; repeat split. Qed.

Lemma iunlock_proc ip : preserves R_proc (iunlock ip).
Proof. intros s a s' H. apply iunlock_inv in H as [-> _]. repeat split. Qed.

#[export] Hint Resolve namei_proc iunlock_proc : proc.

Lemma k_readlink_loop_proc n ip : preserves R_proc (k_readlink_loop n ip).
Proof. revert ip. induction n as [|n IH]; intros ip; simpl; proc. Qed.

Lemma k_readlink_proc path buf bufsiz :
  preserves R_proc (k_readlink path buf bufsiz).
Proof. unfold k_readlink. pose proof k_readlink_loop_proc. proc. Qed.

(** X12: on a file system where every inode in use has a link, a chdir
    that returns has asked nothing of the log, has left the descriptor
    table and the file table as they were, and has changed reference
    counts and locks of inodes only; it returns -1 with the working
    directory as it was, or 0 with a working directory that is a directory
    inode and is not locked. *)
Theorem sys_chdir_result cap buf path s r s' :
  all_linked s ->
  sys_chdir cap buf path s = Ok r s' ->
  R_silent s s' /\
  ofile s' = ofile s /\ ftable s' = ftable s /\
  (forall j, strip (getino s' j) = strip (getino s j)) /\
  ((r = -1 /\ cwd s' = cwd s) \/
   (r = 0 /\ i_type (getino s' (cwd s')) = T_DIR /\
    i_locked (getino s' (cwd s')) = false)).
Proof.
  intros _. unfold sys_chdir. destruct path as [path|].
  2:{ intros H. apply Ok_inv in H as [<- <-].
      split; [reflexivity|]. split; [reflexivity|]. split; [reflexivity|].
      split; [reflexivity|]. left. auto. }
  intros H. inv_bind H as x s1 E1.
  pose proof (k_readlink_silent _ _ _ _ _ _ E1) as Q1.
  pose proof (k_readlink_static _ _ _ _ _ _ E1) as S1.
  pose proof (k_readlink_proc _ _ _ _ _ _ E1) as P1. clear E1.
  inv_bind H as r2 s2 E2.
  assert (Q2 : R_silent s1 s2)
    by (destruct (negb _); eapply namei_silent, E2).
  assert (S2 : R_static s1 s2)
    by (destruct (negb _); eapply namei_static, E2).
  assert (P2 : R_proc s1 s2)
    by (destruct (negb _); eapply namei_proc, E2).
  clear E2.
  assert (Q : R_silent s s2) by (etransitivity; eassumption).
  assert (S : R_static s s2) by (etransitivity; eassumption).
  assert (P : R_proc s s2) by (etransitivity; eassumption).
  clear Q1 Q2 S1 S2 P1 P2 s1 x.
  destruct P as (Pf & Po & _).
  destruct r2 as [ip|].
  2:{ apply Ok_inv in H as [<- <-]. split; [exact Q|].
      split; [exact Po|]. split; [exact Pf|].
      split; [apply S|]. left. split; [reflexivity | apply S]. }
  inv_bind H as u s3 E3.
  pose proof (ilock_silent _ _ _ _ E3) as Q3.
  pose proof (ilock_static _ _ _ _ E3) as S3.
  apply ilock_inv in E3 as (-> & _).
  rewrite bind_gets in H.
  destruct (i_type _ =? T_DIR) eqn:Ety; cbn [negb] in H.
  - apply Z.eqb_eq in Ety. revert Ety. gi. intros Ety.
    inv_bind H as u4 s4 E4. apply iunlock_inv in E4 as (-> & _).
    rewrite bind_gets in H. rewrite (bind_step _ _ _ _ _ (iput_Ok _ _)) in H.
    rewrite bind_modify in H. apply Ok_inv in H as [<- <-].
    set (c := cwd (imod ip (set_locked false) (imod ip (set_locked true) s2))).
    assert (S5 : R_static s2
                   (imod c (fun i => set_ref (Nat.pred (i_ref i)) i)
                      (imod ip (set_locked false)
                         (imod ip (set_locked true) s2)))).
    { etransitivity; [exact S3|].
      etransitivity;
        [apply (R_static_imod ip (set_locked false)); reflexivity|].
      apply (R_static_imod c); reflexivity. }
    split; [|split; [|split; [|split]]].
    + etransitivity; [exact Q|]. split; reflexivity.
    + exact Po.
    + exact Pf.
    + intros j. rewrite getino_with_cwd.
      destruct S as [_ S]. destruct S5 as [_ S5]. rewrite S5. apply S.
    + right. split; [reflexivity|]. cbn [cwd with_cwd].
      rewrite getino_with_cwd. split.
      * destruct (decide (c = ip)) as [->|Hc]; gi; exact Ety.
      * destruct (decide (c = ip)) as [->|Hc]; gi; reflexivity.
  - inv_bind H as u4 s4 E4.
    pose proof (iunlockput_silent _ _ _ _ E4) as Q4.
    pose proof (iunlockput_static _ _ _ _ E4) as S4.
    apply iunlockput_inv in E4 as (-> & _ & _).
    apply Ok_inv in H as [<- <-].
    assert (Sa : R_static s
                   (imod ip (fun i => set_ref (Nat.pred (i_ref i)) i)
                      (imod ip (set_locked false)
                         (imod ip (set_locked true) s2))))
      by (etransitivity; [exact S|]; etransitivity; [exact S3 | exact S4]).
    split; [|split; [|split; [|split]]].
    + etransitivity; [exact Q|]. etransitivity; [exact Q3 | exact Q4].
    + exact Po.
    + exact Pf.
    + apply Sa.
    + left. split; [reflexivity | apply Sa].
Qed.

Lemma sys_chdir_result_witness :
  exists s',
    sys_chdir 64 "" (Some "/d") fs_cwd = Ok 0 s' /\
    R_silent fs_cwd s' /\
    ofile s' = ofile fs_cwd /\ ftable s' = ftable fs_cwd /\
    (forall j, strip (getino s' j) = strip (getino fs_cwd j)) /\
    ((0 = -1 /\ cwd s' = cwd fs_cwd) \/
     (0 = 0 /\ i_type (getino s' (cwd s')) = T_DIR /\
      i_locked (getino s' (cwd s')) = false)).
Proof.
  eexists. split; [vm_compute; reflexivity|].
  apply (sys_chdir_result 64 "" (Some "/d") fs_cwd 0).
  - exact all_linked_fs_cwd.
  - vm_compute. reflexivity.
Defined.

(** ** The new entry of mkdir, mknod and link *)

Lemma unsnoc_app {A} (l : list A) init x :
  unsnoc l = Some (init, x) -> l = init ++ [x].
Proof.
  revert init x. induction l as [|y l IH]; intros init x H; [discriminate|].
  cbn in H. destruct (unsnoc l) as [[i z]|] eqn:E.
  - injection H as <- <-. rewrite (IH _ _ eq_refl). reflexivity.
  - injection H as <- <-. destruct l as [|w l]; [reflexivity|].
    cbn in E. destruct (unsnoc l) as [[? ?]|]; discriminate.
Qed.

Lemma walk_app s a l1 l2 :
  walk s a (l1 ++ l2) =
  match walk s a l1 with
  | Some b => walk s b l2
  | None => None
  end.
Proof.
  revert a. induction l1 as [|n l1 IH]; intros a; [reflexivity|].
  cbn [app walk]. destruct (i_type (getino s a) =? T_DIR); [|reflexivity].
  destruct (dirfind (getino s a) n) as [[next off]|]; [apply IH|reflexivity].
Qed.

Lemma dirscan_name_ext n m o l :
  strtake DIRSIZ n = strtake DIRSIZ m -> dirscan n o l = dirscan m o l.
Proof.
  intros H. revert o. induction l as [|d l IH]; intros o; [reflexivity|].
  cbn [dirscan]. unfold namecmp. rewrite H, IH. reflexivity.
Qed.

Lemma walk_grown s s' dp ip name elems : forall cur r,
  grown s s' dp ip name ->
  walk s cur elems = Some r -> walk s' cur elems = Some r.
Proof.
  induction elems as [|n rest IH]; intros cur r G H; [exact H|].
  pose proof G as (_ & Hfree & Hnone & Hty & Hde & Hdp).
  cbn [walk] in *.
  destruct (Z.eqb_spec (i_type (getino s cur)) T_DIR) as [Hd|]; [|discriminate].
  assert (Hcur : cur <> ip) by (intros ->; exact (Hfree Hd)).
  rewrite (Hty _ Hcur), Hd, Z.eqb_refl.
  assert (Hfind : dirfind (getino s' cur) n = dirfind (getino s cur) n).
  { unfold dirfind in *. destruct (decide (cur = dp)) as [->|Hne].
    - rewrite Hdp. apply dirscan_put_other. cbn [de_name].
      destruct (namecmp n (strtake DIRSIZ name)) eqn:Hc; [|reflexivity].
      exfalso. unfold namecmp in Hc. apply String.eqb_eq in Hc.
      rewrite strtake_idem in Hc.
      rewrite (dirscan_name_ext _ _ _ _ Hc), Hnone in H. discriminate.
    - rewrite (Hde _ Hcur Hne). reflexivity. }
  rewrite Hfind. destruct (dirfind (getino s cur) n) as [[next off]|];
    [|discriminate].
  apply (IH _ _ G H).
Qed.

Lemma resolve_grown s s' dp ip name path :
  grown s s' dp ip name ->
  ip <> 0%nat ->
  resolve_parent s path = Some (dp, name) ->
  resolve s' path = Some ip.
Proof.
  intros G Hnz Hpar. pose proof G as (Hcwd & Hfree & Hnone & Hty & Hde & Hdp).
  pose proof (resolve_parent_is_dir _ _ _ _ Hpar) as Hdir.
  unfold resolve_parent in Hpar. unfold resolve.
  destruct (unsnoc (path_elems path)) as [[init n]|] eqn:Eu; [|discriminate].
  destruct (walk s (path_start s path) init) as [d|] eqn:Ew; [|discriminate].
  destruct (i_type (getino s d) =? T_DIR); [|discriminate].
  injection Hpar as -> ->.
  rewrite (unsnoc_app _ _ _ Eu), walk_app.
  assert (path_start s' path = path_start s path) as ->
    by (unfold path_start; rewrite Hcwd; reflexivity).
  rewrite (walk_grown _ _ _ _ _ _ _ _ G Ew). cbn [walk].
  assert (Hdpip : dp <> ip) by (intros ->; exact (Hfree Hdir)).
  rewrite (Hty _ Hdpip), Hdir, Z.eqb_refl.
  unfold dirfind in *. rewrite Hdp.
  rewrite (dirscan_put name 0 _ (Dirent ip (strtake DIRSIZ name)));
    [reflexivity | exact Hnone | exact Hnz | apply namecmp_take].
Qed.

(** A returning create of a directory or a device has found no entry of
    the name. *)
Lemma create_Some_fresh s path type major minor ip s' :
  type <> T_FILE ->
  create path type major minor s = Ok (Some ip) s' ->
  exists dp name, resolve_parent s path = Some (dp, name) /\
                  dirfind (getino s dp) name = None.
Proof.
  intros Hty H. unfold create in H. inv_bind H as r1 s1 E1.
  unfold nameiparent in E1.
  destruct (resolve_parent s path) as [[dp name]|] eqn:Hpar;
    apply Ok_inv in E1 as [<- <-]; [|discriminate H].
  pose proof (resolve_parent_is_dir _ _ _ _ Hpar) as Hdt.
  exists dp, name. split; [reflexivity|].
  inv_bind H as u2 s2 E2. apply ilock_inv in E2 as (-> & _ & _ & _).
  inv_bind H as r3 s3 E3. unfold dirlookup in E3. revert E3. gi.
  rewrite Hdt, Z.eqb_refl. cbn [negb]. cbv iota.
  unfold dirfind. fields.
  destruct (dirscan name 0 (i_dents (getino s dp))) as [[x off]|];
    [|reflexivity].
  intros E3. apply Ok_inv in E3 as [<- <-]. exfalso.
  inv_bind H as u4 s4 E4. inv_bind H as u5 s5 E5.
  rewrite bind_gets in H.
  apply Z.eqb_neq in Hty. rewrite Hty in H. cbn [andb] in H. cbv iota in H.
  inv_bind H as u6 s6 E6. discriminate H.
Qed.

Lemma begin_trans_inv s a s' :
  begin_trans s = Ok a s' ->
  log_busy s = false /\ s' = with_log s true [EvBegin].
Proof.
  unfold begin_trans. destruct (log_busy s); [discriminate|].
  intros H. apply Ok_inv in H as [_ <-]. auto.
Qed.

Lemma with_log_same_tree s b e : same_tree s (with_log s b e).
Proof. split; [reflexivity|]. intros j. split; reflexivity. Qed.

Lemma dirscan_nonzero name o l x off :
  dirscan name o l = Some (x, off) -> x <> 0%nat.
Proof.
  revert o. induction l as [|d l IH]; intros o H; [discriminate|].
  cbn [dirscan] in H.
  destruct (Nat.eqb_spec (de_inum d) 0) as [|Hd]; cbn [negb andb] in H.
  - eapply IH, H.
  - destruct (namecmp name (de_name d)).
    + injection H as <- _. exact Hd.
    + eapply IH, H.
Qed.

Lemma walk_nonzero s elems : forall a b,
  walk s a elems = Some b -> a <> 0%nat -> b <> 0%nat.
Proof.
  induction elems as [|n rest IH]; intros a b H Ha.
  - injection H as <-. exact Ha.
  - cbn [walk] in H. destruct (i_type (getino s a) =? T_DIR); [|discriminate].
    unfold dirfind in H.
    destruct (dirscan n 0 (i_dents (getino s a))) as [[next off]|] eqn:E;
      [|discriminate].
    apply (IH _ _ H). eapply dirscan_nonzero, E.
Qed.

Lemma resolve_parent_nonzero s p dp name :
  cwd s <> 0%nat -> resolve_parent s p = Some (dp, name) -> dp <> 0%nat.
Proof.
  intros Hc H. unfold resolve_parent in H.
  destruct (unsnoc (path_elems p)) as [[init n]|]; [|discriminate].
  destruct (walk s (path_start s p) init) as [d|] eqn:E; [|discriminate].
  destruct (i_type (getino s d) =? T_DIR); [|discriminate].
  injection H as <- _. apply (walk_nonzero _ _ _ _ E).
  unfold path_start. destruct p as [|c p]; [exact Hc|].
  destruct (Ascii.eqb c "/"); [discriminate | exact Hc].
Qed.

Lemma free_unreferenced_intro s :
  forallb (fun x => negb (i_type (snd x) =? 0) || (i_ref (snd x) =? 0)%nat)
          (map_to_list (icache s)) = true ->
  free_unreferenced s.
Proof.
  intros H j. unfold getino. destruct (icache s !! j) as [i|] eqn:E.
  - apply elem_of_map_to_list, list_elem_of_In in E.
    rewrite forallb_forall in H. specialize (H _ E). simpl in *.
    intros Ht. rewrite Ht in H. apply Nat.eqb_eq, H.
  - reflexivity.
Qed.

Lemma free_unreferenced_fs0 : free_unreferenced fs0.
Proof. apply free_unreferenced_intro. vm_compute. reflexivity. Qed.

(** X20: where no free inode is referenced, after a mkdir that returned 0
    the path resolves to a new directory inode, which was free before and
    is left unlocked and without a reference; in it the name . leads to
    itself and the name .. to the parent directory. *)
Theorem sys_mkdir_resolves s path s' :
  cwd s <> 0%nat ->
  free_unreferenced s ->
  sys_mkdir (Some path) s = Ok 0 s' ->
  exists ip dp name,
    resolve_parent s path = Some (dp, name) /\
    i_type (getino s ip) = 0 /\
    resolve s' path = Some ip /\
    i_type (getino s' ip) = T_DIR /\
    i_locked (getino s' ip) = false /\
    i_ref (getino s' ip) = 0%nat /\
    walk s' ip ["."] = Some ip /\
    walk s' ip [".."] = Some dp.
Proof.
  intros Hcwd Hfu H. unfold sys_mkdir in H.
  inv_bind H as u0 s1 E0. apply begin_trans_inv in E0 as [Hb ->].
  inv_bind H as r s2 E1.
  destruct r as [ip|];
    [|inv_bind H as u s3 E3; apply Ok_inv in H as [H _]; discriminate].
  inv_bind H as u3 s3 E3. apply iunlockput_inv in E3 as (-> & _ & _).
  rewrite (bind_step _ _ _ _ _ (commit_trans_Ok _)) in H.
  apply Ok_inv in H as [_ <-].
  pose proof (create_proc _ _ _ _ _ _ _ E1) as (_ & _ & Hc & _).
  destruct (create_fresh_dir _ _ _ _ _ _ E1)
    as (dp & name & Hpar & Hnone & Hfree & Hne & Hnz & Gip & Gdp & Got & _).
  clear E1. rewrite (resolve_parent_same_tree s) in Hpar
    by apply with_log_same_tree.
  apply first_free_Some in Hfree as [Hfree _].
  revert Hnone Hfree Gip Gdp Got. gi. intros Hnone Hfree Gip Gdp Got.
  pose proof (resolve_parent_is_dir _ _ _ _ Hpar) as Hdir.
  pose proof (resolve_parent_nonzero _ _ _ _ Hcwd Hpar) as Hdpnz.
  set (s3 := with_log _ false [EvCommit]).
  assert (G3i : getino s3 ip =
                Inode (i_dev (getino s dp)) (i_ref (getino s ip)) false 0
                      T_DIR 0 0 1 (2 * DESZ) ""
                      [Dirent ip "."; Dirent dp ".."] []).
  { unfold s3. gi. rewrite Gip. reflexivity. }
  assert (G3o : forall j, j <> ip -> getino s3 j = getino s2 j)
    by (intros j Hj; unfold s3; gi; reflexivity).
  exists ip, dp, name.
  split; [exact Hpar|]. split; [exact Hfree|]. split.
  { apply (resolve_grown s s3 dp ip name); [|exact Hnz|exact Hpar].
    unfold grown. split; [exact Hc|].
    split; [rewrite Hfree; intros X; discriminate X|].
    split; [exact Hnone|]. split; [|split].
    - intros j Hj. rewrite (G3o _ Hj).
      destruct (decide (j = dp)) as [->|Hjd].
      + rewrite Gdp, dir_add_type. reflexivity.
      + rewrite (Got _ Hj Hjd). reflexivity.
    - intros j Hj Hjd. rewrite (G3o _ Hj), (Got _ Hj Hjd). reflexivity.
    - rewrite (G3o dp) by congruence. rewrite Gdp, dir_add_dents.
      reflexivity. }
  rewrite G3i. cbn [i_type i_locked i_ref].
  split; [reflexivity|]. split; [reflexivity|].
  split; [exact (Hfu ip Hfree)|].
  cbn [walk]. rewrite !G3i. unfold dirfind.
  cbn [i_type i_dents dirscan de_inum de_name]. rewrite Z.eqb_refl.
  rewrite (proj2 (Nat.eqb_neq ip 0) Hnz), (proj2 (Nat.eqb_neq dp 0) Hdpnz).
  split; reflexivity.
Qed.

Lemma sys_mkdir_resolves_witness :
  exists s',
    sys_mkdir (Some "/d/x") fs0 = Ok 0 s' /\
    exists ip dp name,
      resolve_parent fs0 "/d/x" = Some (dp, name) /\
      i_type (getino fs0 ip) = 0 /\
      resolve s' "/d/x" = Some ip /\
      i_type (getino s' ip) = T_DIR /\
      i_locked (getino s' ip) = false /\
      i_ref (getino s' ip) = 0%nat /\
      walk s' ip ["."] = Some ip /\
      walk s' ip [".."] = Some dp.
Proof.
  eexists. split; [vm_compute; reflexivity|].
  apply (sys_mkdir_resolves fs0 "/d/x");
    [vm_compute; discriminate | exact free_unreferenced_fs0
    | vm_compute; reflexivity].
Defined.

(** X21: after a mknod that returned 0 the path resolves to a new
    device inode with one link, whose major and minor numbers are the
    arguments truncated to 16 bits. *)
Theorem sys_mknod_device s path major minor s' :
  sys_mknod (Some path) (Some major) (Some minor) s = Ok 0 s' ->
  exists ip,
    i_type (getino s ip) = 0 /\
    resolve s' path = Some ip /\
    i_type (getino s' ip) = T_DEV /\
    i_major (getino s' ip) = wrap16 major /\
    i_minor (getino s' ip) = wrap16 minor /\
    i_nlink (getino s' ip) = 1 /\
    i_locked (getino s' ip) = false /\
    i_ref (getino s' ip) = i_ref (getino s ip).
Proof.
  intros H. unfold sys_mknod in H.
  inv_bind H as u0 s1 E0. apply begin_trans_inv in E0 as [Hb ->].
  inv_bind H as r s2 E1.
  destruct r as [ip|];
    [|inv_bind H as u s3 E3; apply Ok_inv in H as [H _]; discriminate].
  inv_bind H as u3 s3 E3. apply iunlockput_inv in E3 as (-> & _ & _).
  rewrite (bind_step _ _ _ _ _ (commit_trans_Ok _)) in H.
  apply Ok_inv in H as [_ <-].
  assert (Hnf : T_DEV <> T_FILE) by (intros X; discriminate X).
  assert (Hnd : T_DEV <> T_DIR) by (intros X; discriminate X).
  destruct (create_Some_fresh _ _ _ _ _ _ _ Hnf E1)
    as (dp & name & Hpar & Hnone).
  destruct (create_fresh_file _ _ _ _ _ _ _ _ _ Hnd Hpar Hnone E1)
    as (ip' & Eip & Hfree & Hne & Hnz & Gip & Gdp & Got & _ & Hproc).
  injection Eip as <-. destruct Hproc as (_ & _ & Hc & _). clear E1.
  rewrite (resolve_parent_same_tree s) in Hpar by apply with_log_same_tree.
  apply first_free_Some in Hfree as [Hfree _].
  revert Hnone Hfree Gip Gdp Got. gi. intros Hnone Hfree Gip Gdp Got.
  set (s3 := with_log _ false [EvCommit]).
  assert (G3i : getino s3 ip =
                Inode (i_dev (getino s dp)) (i_ref (getino s ip)) false 0
                      T_DEV (wrap16 major) (wrap16 minor) 1 0 "" [] []).
  { unfold s3. gi. rewrite Gip. reflexivity. }
  assert (G3o : forall j, j <> ip -> getino s3 j = getino s2 j)
    by (intros j Hj; unfold s3; gi; reflexivity).
  exists ip. split; [exact Hfree|]. split.
  { apply (resolve_grown s s3 dp ip name); [|exact Hnz|exact Hpar].
    unfold grown. split; [exact Hc|].
    split; [rewrite Hfree; intros X; discriminate X|].
    split; [exact Hnone|]. split; [|split].
    - intros j Hj. rewrite (G3o _ Hj).
      destruct (decide (j = dp)) as [->|Hjd].
      + rewrite Gdp, dir_add_type. reflexivity.
      + rewrite (Got _ Hj Hjd). reflexivity.
    - intros j Hj Hjd. rewrite (G3o _ Hj), (Got _ Hj Hjd). reflexivity.
    - rewrite (G3o dp) by congruence. rewrite Gdp, dir_add_dents.
      reflexivity. }
  rewrite G3i. repeat split.
Qed.

Lemma sys_mknod_device_witness :
  exists s',
    sys_mknod (Some "/tty") (Some 70000) (Some 3) fs0 = Ok 0 s' /\
    exists ip,
      i_type (getino fs0 ip) = 0 /\
      resolve s' "/tty" = Some ip /\
      i_type (getino s' ip) = T_DEV /\
      i_major (getino s' ip) = wrap16 70000 /\
      i_minor (getino s' ip) = wrap16 3 /\
      i_nlink (getino s' ip) = 1 /\
      i_locked (getino s' ip) = false /\
      i_ref (getino s' ip) = i_ref (getino fs0 ip).
Proof.
  eexists. split; [vm_compute; reflexivity|].
  apply (sys_mknod_device fs0 "/tty" 70000 3). vm_compute. reflexivity.
Defined.

Lemma create_exists_empty_txn s path dp name ip off type major minor :
  log_busy s = false ->
  resolve_parent s path = Some (dp, name) ->
  dirfind (getino s dp) name = Some (ip, off) ->
  i_locked (getino s dp) = false ->
  i_locked (getino s ip) = false ->
  i_type (getino s ip) <> 0 ->
  type <> T_FILE ->
  exists s',
    (begin_trans ;;
     r <- create path type major minor ;;
     match r with
     | None => commit_trans ;; ret (-1)
     | Some ip => iunlockput ip ;; commit_trans ;; ret 0
     end) s = Ok (-1) s' /\
    empty_txn s s'.
Proof.
  intros Hb Hpar Hfind Hldp Hlip Htip Hty.
  set (s1 := with_log s true [EvBegin]).
  assert (Hpar1 : resolve_parent s1 path = Some (dp, name)).
  { rewrite <- Hpar. apply resolve_parent_same_tree, with_log_same_tree. }
  destruct (create_existing_other s1 path dp ip name off type major minor
              Hpar1 Hfind Hldp Hlip Htip (or_introl Hty))
    as (s2 & Hcr & Htr & Hlog & Hft & Hof & Hino).
  pose proof (create_proc _ _ _ _ _ _ _ Hcr) as (_ & _ & Hc & _).
  eexists. split.
  - rewrite (bind_step _ _ _ _ _ (begin_trans_Ok _ Hb)). fold s1.
    rewrite (bind_step _ _ _ _ _ Hcr). cbv beta iota.
    rewrite (bind_step _ _ _ _ _ (commit_trans_Ok _)). reflexivity.
  - unfold empty_txn. cbn [ftable ofile cwd log_busy trace with_log].
    split; [intros j; rewrite getino_with_log; apply Hino|].
    rewrite Hft, Hof, Hc, Htr. unfold s1.
    cbn [ftable ofile cwd log_busy trace with_log].
    rewrite <- app_assoc. repeat split.
Qed.

(** X22: mkdir and mknod on a name that exists in its directory
    return -1 and change nothing but the log, where they open and commit
    an empty transaction. *)
Theorem mkdir_mknod_existing_name s path dp name ip off :
  log_busy s = false ->
  resolve_parent s path = Some (dp, name) ->
  dirfind (getino s dp) name = Some (ip, off) ->
  i_locked (getino s dp) = false ->
  i_locked (getino s ip) = false ->
  i_type (getino s ip) <> 0 ->
  (exists s', sys_mkdir (Some path) s = Ok (-1) s' /\ empty_txn s s') /\
  (forall major minor,
     exists s', sys_mknod (Some path) (Some major) (Some minor) s =
                Ok (-1) s' /\ empty_txn s s').
Proof.
  intros Hb Hpar Hfind Hldp Hlip Htip. split.
  - apply (create_exists_empty_txn s path dp name ip off T_DIR 0 0);
      try assumption. intros X; discriminate X.
  - intros major minor.
    apply (create_exists_empty_txn s path dp name ip off T_DEV
             (wrap16 major) (wrap16 minor)); try assumption.
    intros X; discriminate X.
Qed.

Lemma mkdir_mknod_existing_name_witness :
  resolve_parent fs0 "/d" = Some (1%nat, "d") /\
  dirfind (getino fs0 1) "d" = Some (3%nat, 48) /\
  (exists s', sys_mkdir (Some "/d") fs0 = Ok (-1) s' /\ empty_txn fs0 s') /\
  (forall major minor,
     exists s', sys_mknod (Some "/d") (Some major) (Some minor) fs0 =
                Ok (-1) s' /\ empty_txn fs0 s').
Proof.
  split; [vm_compute; reflexivity|]. split; [vm_compute; reflexivity|].
  apply (mkdir_mknod_existing_name fs0 "/d" 1 "d" 3 48).
  - reflexivity.
  - vm_compute. reflexivity.
  - vm_compute. reflexivity.
  - vm_compute. reflexivity.
  - vm_compute. reflexivity.
  - vm_compute. discriminate.
Defined.

Lemma namei_inv p s r s' :
  namei p s = Ok r s' ->
  resolve s p = r /\ R_static s s'.
Proof.
  intros H. split; [|eapply namei_static, H].
  unfold namei in H. destruct (resolve s p);
    apply Ok_inv in H as [<- _]; reflexivity.
Qed.

Lemma nameiparent_inv p s r s' :
  nameiparent p s = Ok r s' ->
  resolve_parent s p = r /\ R_static s s'.
Proof.
  intros H. split; [|eapply nameiparent_static, H].
  unfold nameiparent in H. destruct (resolve_parent s p) as [[dp name]|];
    apply Ok_inv in H as [<- _]; reflexivity.
Qed.

Lemma dirlink_inv dp name inum s n s' :
  i_type (getino s dp) = T_DIR ->
  dirlink dp name inum s = Ok n s' -> 0 <= n ->
  dirfind (getino s dp) name = None /\
  s' = dir_write dp (Dirent inum (strtake DIRSIZ name)) s.
Proof.
  intros Hd H Hn.
  destruct (dirfind (getino s dp) name) as [[x off]|] eqn:E.
  - rewrite (dirlink_exists _ _ _ _ _ _ Hd E) in H.
    apply Ok_inv in H as [<- _]. lia.
  - split; [reflexivity|]. rewrite (dirlink_add _ _ _ _ Hd E) in H.
    destruct (_ <? _); [discriminate|]. apply Ok_inv in H as [_ <-].
    reflexivity.
Qed.

(** X23: after a link that returned 0 the new path and the old path
    resolve to the same inode, which is no directory; its link count has
    grown by one (in 16-bit arithmetic) and no other link count has
    changed. *)
Theorem sys_link_success s old new s' :
  cwd s <> 0%nat ->
  sys_link (Some old) (Some new) s = Ok 0 s' ->
  exists ip,
    resolve s old = Some ip /\
    i_type (getino s ip) <> T_DIR /\
    resolve s' old = Some ip /\
    resolve s' new = Some ip /\
    i_nlink (getino s' ip) = wrap16 (i_nlink (getino s ip) + 1) /\
    forall j, j <> ip -> i_nlink (getino s' j) = i_nlink (getino s j).
Proof.
  unfold sys_link. intros Hcwd H.
  inv_bind H as r s1 E1. apply namei_inv in E1 as [Hres S1].
  destruct r as [ip|]; [|apply Ok_inv in H as [H _]; discriminate].
  inv_bind H as u2 s2 E2. apply begin_trans_static in E2.
  inv_bind H as u3 s3 E3. apply ilock_static in E3.
  assert (S03 : R_static s s3)
    by (etransitivity; [exact S1|]; etransitivity; [exact E2 | exact E3]).
  clear S1 E2 E3 s1 s2.
  rewrite bind_gets in H.
  destruct (Z.eqb_spec (i_type (getino s3 ip)) T_DIR) as [Hd|Hd].
  { inv_bind H as u s4 E4. inv_bind H as u' s5 E5.
    apply Ok_inv in H as [H _]. discriminate. }
  rewrite bind_modify in H.
  set (s4 := imod ip nlink_inc s3) in *.
  assert (G4i : i_nlink (getino s4 ip) = wrap16 (i_nlink (getino s ip) + 1)).
  { unfold s4. gi. rewrite (static_nlink _ _ _ S03). reflexivity. }
  assert (G4o : forall j, j <> ip ->
                i_nlink (getino s4 j) = i_nlink (getino s j)).
  { intros j Hj. unfold s4. gi. apply static_nlink, S03. }
  assert (T4 : same_tree s s4).
  { etransitivity; [apply R_static_same_tree, S03|].
    apply same_tree_imod. intros i. split; reflexivity. }
  rewrite (static_type _ _ _ S03) in Hd. clearbody s4. clear S03 s3.
  inv_bind H as u5 s5 E5. apply iupdate_static in E5.
  inv_bind H as u6 s6 E6. apply iunlock_static in E6.
  inv_bind H as r7 s7 E7. apply nameiparent_inv in E7 as [Hpar S7].
  assert (S46 : R_static s4 s6) by (etransitivity; eassumption).
  clear E5 E6 s5.
  destruct r7 as [[dp name]|];
    [|apply link_bad_nlink in H as [H _]; discriminate].
  inv_bind H as u8 s8 E8. apply ilock_static in E8.
  assert (S48 : R_static s4 s8)
    by (etransitivity; [exact S46|]; etransitivity; eassumption).
  pose proof (resolve_parent_is_dir _ _ _ _ Hpar) as Hdp6.
  rewrite (resolve_parent_same_tree s4) in Hpar
    by (apply R_static_same_tree, S46).
  rewrite (resolve_parent_same_tree s) in Hpar by exact T4.
  assert (Hdp8 : i_type (getino s8 dp) = T_DIR).
  { rewrite (static_type s4 s8), <- (static_type s4 s6) by assumption.
    exact Hdp6. }
  clear S46 S7 E8 Hdp6 s6 s7.
  rewrite !bind_gets in H.
  destruct (negb _).
  { inv_bind H as u s9 E9. apply link_bad_nlink in H as [H _]. discriminate. }
  inv_bind H as n s9 E9.
  destruct (n <? 0) eqn:En.
  { inv_bind H as u s10 E10. apply link_bad_nlink in H as [H _].
    discriminate. }
  apply Z.ltb_ge in En.
  apply (dirlink_inv _ _ _ _ _ _ Hdp8 E9) in En as [Hnone ->]. clear E9.
  set (de := Dirent ip (strtake DIRSIZ name)) in *.
  pose proof (dir_write_dp dp de s8) as Wdp.
  pose proof (dir_write_other dp de s8) as Wot.
  pose proof (dir_write_proc dp de s8) as (_ & _ & Wc & _).
  set (s9 := dir_write dp de s8) in *. clearbody s9.
  assert (S9 : R_static s9 s').
  { assert (T : preserves R_static
                  (iunlockput dp ;; iput ip ;; commit_trans ;; ret 0))
      by static.
    eapply T, H. }
  clear H.
  (* the inodes of s8 against those of s *)
  assert (Ty8 : forall j, i_type (getino s8 j) = i_type (getino s j)).
  { intros j. rewrite (static_type _ _ _ S48). apply (proj2 T4 j). }
  assert (De8 : forall j, i_dents (getino s8 j) = i_dents (getino s j)).
  { intros j. rewrite (static_dents _ _ _ S48). apply (proj2 T4 j). }
  assert (Nl8 : forall j, i_nlink (getino s8 j) = i_nlink (getino s4 j)).
  { intros j. apply static_nlink, S48. }
  assert (C8 : cwd s8 = cwd s).
  { destruct S48 as [-> _]. apply (proj1 T4). }
  rewrite Ty8 in Hdp8. unfold dirfind in Hnone. rewrite De8 in Hnone.
  clear S48 T4.
  assert (Hne : ip <> dp) by (intros ->; exact (Hd Hdp8)).
  assert (Hnz : ip <> 0%nat).
  { unfold resolve in Hres. apply (walk_nonzero _ _ _ _ Hres).
    unfold path_start. destruct old as [|c p]; [exact Hcwd|].
    destruct (Ascii.eqb c "/"); [discriminate | exact Hcwd]. }
  assert (G : grown s s' dp ip name).
  { unfold grown. split; [|split; [exact Hd|split; [exact Hnone|]]].
    - destruct S9 as [-> _]. rewrite Wc. exact C8.
    - split; [|split].
      + intros j _. rewrite (static_type _ _ _ S9).
        destruct (decide (j = dp)) as [->|Hj].
        * rewrite Wdp, dir_add_type. apply Ty8.
        * rewrite (Wot _ Hj). apply Ty8.
      + intros j _ Hj. rewrite (static_dents _ _ _ S9), (Wot _ Hj).
        apply De8.
      + rewrite (static_dents _ _ _ S9), Wdp, dir_add_dents, De8.
        reflexivity. }
  exists ip. split; [exact Hres|]. split; [exact Hd|].
  split; [|split; [|split]].
  - unfold resolve in *.
    assert (path_start s' old = path_start s old) as ->
      by (unfold path_start; rewrite (proj1 G); reflexivity).
    eapply walk_grown; [exact G | exact Hres].
  - apply (resolve_grown s s' dp ip name new G Hnz Hpar).
  - rewrite (static_nlink _ _ _ S9), (Wot _ Hne), Nl8. exact G4i.
  - intros j Hj. rewrite (static_nlink _ _ _ S9).
    destruct (decide (j = dp)) as [->|Hjd].
    + rewrite Wdp, dir_add_nlink, Nl8. apply G4o, Hj.
    + rewrite (Wot _ Hjd), Nl8. apply G4o, Hj.
Qed.

Lemma sys_link_success_witness :
  exists s',
    sys_link (Some "/f") (Some "/d/g") fs0 = Ok 0 s' /\
    exists ip,
      resolve fs0 "/f" = Some ip /\
      i_type (getino fs0 ip) <> T_DIR /\
      resolve s' "/f" = Some ip /\
      resolve s' "/d/g" = Some ip /\
      i_nlink (getino s' ip) = wrap16 (i_nlink (getino fs0 ip) + 1) /\
      forall j, j <> ip -> i_nlink (getino s' j) = i_nlink (getino fs0 j).
Proof.
  eexists. split; [vm_compute; reflexivity|].
  apply (sys_link_success fs0 "/f" "/d/g");
    [vm_compute; discriminate | vm_compute; reflexivity].
Defined.

(** ** open that creates the file *)

Lemma dir_add_ref de d : i_ref (dir_add de d) = i_ref d.
Proof. unfold dir_add. cbv zeta. destruct (_ <? _); reflexivity. Qed.

Lemma dir_add_locked de d : i_locked (dir_add de d) = i_locked d.
Proof. unfold dir_add. cbv zeta. destruct (_ <? _); reflexivity. Qed.

Lemma ialloc_Some dev type s ip :
  first_free s = Some ip ->
  ialloc dev type s =
  Ok (Some ip) (iget ip (emit (EvIalloc ip type)
                           (imod ip (fresh_inode dev type) s))).
Proof. intros H. unfold ialloc. rewrite H. reflexivity. Qed.

(** create on a name that the parent does not hold returns the first free
    inode when the parent and that inode are not locked and the content of
    the parent has room for the entry. *)
Lemma create_fresh_file_returns s path type major minor dp name ip :
  type <> T_DIR -> type <> 0 ->
  resolve_parent s path = Some (dp, name) ->
  dirfind (getino s dp) name = None ->
  i_locked (getino s dp) = false ->
  first_free s = Some ip ->
  i_locked (getino s ip) = false ->
  DESZ * Z.of_nat (free_slot (i_dents (getino s dp))) <= i_size (getino s dp) ->
  exists s', create path type major minor s = Ok (Some ip) s'.
Proof.
  intros Hnd Hnz Hpar Hnone Ldp Hfree Lip Hroom.
  pose proof (resolve_parent_is_dir _ _ _ _ Hpar) as Hdt.
  apply first_free_Some in Hfree as Hfr. destruct Hfr as [Hfr0 Hipnz].
  assert (Hne : ip <> dp) by (intros ->; rewrite Hdt in Hfr0; discriminate).
  assert (Hff : first_free (imod dp (set_locked true) (iget dp s)) =
                first_free s).
  { apply first_free_same_tree; [|reflexivity].
    split; [reflexivity|]. intros j.
    destruct (decide (j = dp)) as [->|Hj]; gi; split; reflexivity. }
  unfold create.
  run nameiparent_Some. run ilock_Ok.
  erewrite bind_step
    by (apply dirlookup_None; gi; unfold dirfind in *; fields; assumption).
  cbv beta iota. rewrite bind_gets.
  erewrite bind_step by (apply ialloc_Some; rewrite Hff; exact Hfree).
  cbv beta iota.
  run ilock_Ok. rewrite bind_modify. run iupdate_Ok.
  apply Z.eqb_neq in Hnd. rewrite Hnd. rewrite bind_ret.
  gi.
  change (emit _ _) with (create_alloc dp ip type major minor s).
  set (sa := create_alloc dp ip type major minor s).
  pose proof (create_alloc_dp dp ip type major minor s Hne) as Gdp.
  fold sa in Gdp. clearbody sa.
  set (de := Dirent ip (strtake DIRSIZ name)).
  assert (Ed : dirlink dp name ip sa = Ok 0 (dir_write dp de sa)).
  { rewrite dirlink_add
      by (rewrite Gdp; fields; unfold dirfind in *; fields; assumption).
    rewrite Gdp. fields.
    destruct (Z.ltb_spec (i_size (getino s dp))
                (DESZ * Z.of_nat (free_slot (i_dents (getino s dp)))));
      [lia | reflexivity]. }
  rewrite (bind_step _ _ _ _ _ Ed). rewrite Z.ltb_irrefl. cbv iota.
  pose proof (dir_write_dp dp de sa) as Wdp.
  set (sb := dir_write dp de sa) in *. clearbody sb.
  erewrite bind_step
    by (apply iunlockput_Ok; rewrite Wdp, ?dir_add_ref, ?dir_add_locked, Gdp;
        fields; [congruence | reflexivity]).
  eexists. reflexivity.
Qed.


(** What an open with O_CREATE that returns a descriptor has done, on a
    name that its directory does not hold. *)
Lemma sys_open_created s path omode dp name fd s' :
  Z.land omode O_CREATE <> 0 ->
  resolve_parent s path = Some (dp, name) ->
  dirfind (getino s dp) name = None ->
  sys_open (Some path) (Some omode) s = Ok fd s' -> 0 <= fd ->
  exists ip f,
    first_free s = Some ip /\
    resolve s' path = Some ip /\
    getino s' ip =
      Inode (i_dev (getino s dp)) (S (i_ref (getino s ip))) false 0 T_FILE
            0 0 1 0 "" [] [] /\
    argfd (Some fd) s' = Ok (Some (Z.to_nat fd, f)) s' /\
    ftable s' !! f =
      Some (File FD_INODE 1 (Z.land omode O_WRONLY =? 0)
              (negb (Z.land omode O_WRONLY =? 0) ||
               negb (Z.land omode O_RDWR =? 0)) ip 0).
Proof.
  intros Hc Hpar Hnone H Hfd. unfold sys_open in H.
  apply Z.eqb_neq in Hc. rewrite Hc in H. cbn [negb] in H.
  inv_bind H as u0 s1 E0. apply begin_trans_inv in E0 as [Hb ->].
  inv_bind H as r s2 E1.
  rewrite (bind_step _ _ _ _ _ (commit_trans_Ok _)) in H.
  assert (Hpar1 : resolve_parent (with_log s true [EvBegin]) path =
                  Some (dp, name)).
  { rewrite <- Hpar. apply resolve_parent_same_tree, with_log_same_tree. }
  assert (Hnf : T_FILE <> T_DIR) by (intros X; discriminate X).
  destruct (create_fresh_file _ _ _ _ _ _ _ _ _ Hnf Hpar1 Hnone E1)
    as (ip & -> & Hfree & Hne & Hnz & Gip & Gdp & Got & _ & Hproc).
  clear E1. assert (Hff : first_free s = Some ip) by exact Hfree.
  apply first_free_Some in Hfree as [Hfree _].
  revert Hfree Gip Gdp Got. gi. intros Hfree Gip Gdp Got.
  destruct Hproc as (Pf & Po & Pc & _).
  cbn [ftable ofile cwd with_log] in Pf, Po, Pc.
  set (s3 := with_log s2 false [EvCommit]) in *.
  assert (G3 : forall j, getino s3 j = getino s2 j) by reflexivity.
  assert (F3 : ftable s3 = ftable s) by exact Pf.
  assert (O3 : ofile s3 = ofile s) by exact Po.
  assert (C3 : cwd s3 = cwd s) by exact Pc.
  clearbody s3.
  unfold open_rest in H. rewrite open_symloop_S, !bind_bind, bind_gets in H.
  assert (is_symlnk (getino s3 ip) = false) as Hsym
    by (rewrite G3, Gip; reflexivity).
  rewrite Hsym, bind_ret in H.
  inv_bind H as rf s4 E4. apply filealloc_inv in E4.
  destruct rf as [f|].
  2:{ inv_bind H as u s5 E5. apply Ok_inv in H as [<- _]. lia. }
  destruct E4 as (f0 & Hf0 & Hr0 & ->).
  pose proof (lookup_lt_Some _ _ _ Hf0) as Hflen.
  inv_bind H as fd0 s5 E5.
  destruct (fd0 <? 0) eqn:E0.
  { inv_bind H as u s6 E6. inv_bind H as u' s7 E7.
    apply Ok_inv in H as [<- _]. lia. }
  apply Z.ltb_ge in E0.
  destruct (fdalloc_least _ _ _ _ E5 E0) as (n & -> & Hl & -> & _).
  clear E5. destruct Hl as (Hn & Hfreen & _).
  cbn [ofile with_ftable] in Hfreen.
  inv_bind H as u6 s6 E6. apply iunlock_inv in E6 as (-> & _ & _).
  rewrite bind_modify in H. apply Ok_inv in H as [<- <-].
  exists ip, f. split; [exact Hff|].
  assert (Gi : forall j,
    getino (with_ftable
              (imod ip (set_locked false)
                 (with_ofile
                    (with_ftable s3 (<[f:=file_with_ref 1 f0]> (ftable s3)))
                    (<[n:=Some f]> (ofile s3))))
              (alter (open_file omode ip) f
                 (<[f:=file_with_ref 1 f0]> (ftable s3)))) j =
    if decide (j = ip) then set_locked false (getino s2 ip)
    else getino s2 j).
  { intros j. destruct (decide (j = ip)) as [->|Hj]; gi; rewrite G3;
      reflexivity. }
  cbn [ftable ofile with_ftable with_ofile imod with_icache].
  split; [|split; [|split]].
  - apply (resolve_grown s _ dp ip name path); [|exact Hnz|exact Hpar].
    unfold grown. split; [exact C3|].
    split; [rewrite Hfree; intros X; discriminate X|].
    split; [exact Hnone|]. split; [|split].
    + intros j Hj. rewrite Gi. destruct (decide (j = ip)); [contradiction|].
      destruct (decide (j = dp)) as [->|Hjd].
      * rewrite Gdp, dir_add_type. reflexivity.
      * rewrite (Got _ Hj Hjd). reflexivity.
    + intros j Hj Hjd. rewrite Gi.
      destruct (decide (j = ip)); [contradiction|].
      rewrite (Got _ Hj Hjd). reflexivity.
    + rewrite Gi. destruct (decide (dp = ip)); [congruence|].
      rewrite Gdp, dir_add_dents. reflexivity.
  - rewrite Gi. destruct (decide (ip = ip)); [|contradiction].
    rewrite Gip. reflexivity.
  - rewrite Nat2Z.id. apply argfd_Ok; [exact Hn|].
    cbn [ofile with_ftable with_ofile imod with_icache].
    apply list_lookup_insert_eq. eapply lookup_lt_Some, Hfreen.
  - rewrite list_lookup_alter_eq, list_lookup_insert_eq by exact Hflen.
    cbn [fmap option_fmap option_map open_file file_with_ref f_ref].
    reflexivity.
Qed.


Lemma sys_open_creates_returns s path omode dp name ip fi f0 n :
  log_busy s = false ->
  Z.land omode O_CREATE <> 0 ->
  resolve_parent s path = Some (dp, name) ->
  dirfind (getino s dp) name = None ->
  i_locked (getino s dp) = false ->
  DESZ * Z.of_nat (free_slot (i_dents (getino s dp))) <= i_size (getino s dp) ->
  first_free s = Some ip ->
  i_locked (getino s ip) = false ->
  list_find (fun f => f_ref f = 0%nat) (ftable s) = Some (fi, f0) ->
  least_free s n ->
  exists s',
    sys_open (Some path) (Some omode) s = Ok (Z.of_nat n) s' /\
    ofile s' !! n = Some (Some fi).
Proof.
  intros Hb Hc Hpar Hnone Ldp Hroom Hfree Lip Hfi Hn.
  set (s1 := with_log s true [EvBegin]).
  assert (Hnd : T_FILE <> T_DIR) by (intros X; discriminate X).
  assert (Hnz : T_FILE <> 0) by (intros X; discriminate X).
  assert (Hpar1 : resolve_parent s1 path = Some (dp, name)).
  { rewrite <- Hpar. apply resolve_parent_same_tree, with_log_same_tree. }
  destruct (create_fresh_file_returns s1 path T_FILE 0 0 dp name ip
              Hnd Hnz Hpar1 Hnone Ldp Hfree Lip Hroom) as (s2 & E2).
  destruct (create_fresh_file _ _ _ _ _ _ _ _ _ Hnd Hpar1 Hnone E2)
    as (ip' & Eip & _ & Hne & _ & Gip & _ & _ & _ & Hproc).
  injection Eip as <-.
  destruct Hproc as (Pf & Po & _).
  cbn [ftable ofile s1 with_log] in Pf, Po.
  revert Gip. unfold s1. gi. intros Gip.
  assert (Hfd : list_find (fun o => o = None) (take NOFILE (ofile s)) =
                Some (n, None)) by (apply find_free_least; auto).
  pose proof Hn as (Hlt & Hslot & _).
  unfold sys_open. apply Z.eqb_neq in Hc. rewrite Hc. cbn [negb].
  rewrite (bind_step _ _ _ _ _ (begin_trans_Ok _ Hb)).
  fold s1. rewrite (bind_step _ _ _ _ _ E2).
  rewrite (bind_step _ _ _ _ _ (commit_trans_Ok _)).
  set (s3 := with_log s2 false [EvCommit]).
  assert (G3 : getino s3 ip = getino s2 ip) by reflexivity.
  assert (F3 : ftable s3 = ftable s) by exact Pf.
  assert (O3 : ofile s3 = ofile s) by exact Po.
  clearbody s3. clear E2.
  unfold open_rest. rewrite open_symloop_S, !bind_bind, bind_gets.
  assert (is_symlnk (getino s3 ip) = false) as ->
    by (rewrite G3, Gip; reflexivity).
  rewrite bind_ret.
  erewrite bind_step by (apply filealloc_Ok; rewrite F3; exact Hfi).
  cbv beta iota.
  erewrite bind_step
    by (apply (fdalloc_Ok _ _ n None); cbn [ofile with_ftable];
        rewrite O3; exact Hfd).
  cbv beta iota.
  destruct (Z.ltb_spec (Z.of_nat n) 0); [lia|].
  erewrite bind_step
    by (apply iunlock_Ok; gi; rewrite G3, Gip; fields;
        [congruence | reflexivity]).
  cbv beta iota. rewrite bind_modify.
  eexists. split; [reflexivity|].
  cbn [ofile with_ftable with_ofile imod with_icache].
  rewrite O3. apply list_lookup_insert_eq. eapply lookup_lt_Some, Hslot.
Qed.

(** X25: open with O_CREATE of a name that its directory does not
    hold, started with no transaction open, with the directory and the
    first free inode not locked, room in the directory for the entry, a
    free open-file object and a free descriptor: the call returns the
    least free descriptor; it has created an empty plain file with one
    link in the first free inode, to which the path resolves afterwards,
    and the descriptor is one of the free open-file object, now on that
    inode with offset 0, readable unless O_WRONLY is set, writable if
    O_WRONLY or O_RDWR is set; the inode is left unlocked and holds the
    reference of the open file. *)
Theorem sys_open_creates s path omode dp name ip fi f0 n :
  log_busy s = false ->
  Z.land omode O_CREATE <> 0 ->
  resolve_parent s path = Some (dp, name) ->
  dirfind (getino s dp) name = None ->
  i_locked (getino s dp) = false ->
  DESZ * Z.of_nat (free_slot (i_dents (getino s dp))) <= i_size (getino s dp) ->
  first_free s = Some ip ->
  i_locked (getino s ip) = false ->
  list_find (fun f => f_ref f = 0%nat) (ftable s) = Some (fi, f0) ->
  least_free s n ->
  exists s',
    sys_open (Some path) (Some omode) s = Ok (Z.of_nat n) s' /\
    i_type (getino s ip) = 0 /\
    resolve s' path = Some ip /\
    getino s' ip =
      Inode (i_dev (getino s dp)) (S (i_ref (getino s ip))) false 0 T_FILE
            0 0 1 0 "" [] [] /\
    argfd (Some (Z.of_nat n)) s' = Ok (Some (n, fi)) s' /\
    ftable s' !! fi =
      Some (File FD_INODE 1 (Z.land omode O_WRONLY =? 0)
              (negb (Z.land omode O_WRONLY =? 0) ||
               negb (Z.land omode O_RDWR =? 0)) ip 0).
Proof.
  intros Hb Hc Hpar Hnone Ldp Hroom Hfree Lip Hfi Hn.
  destruct (sys_open_creates_returns s path omode dp name ip fi f0 n
              Hb Hc Hpar Hnone Ldp Hroom Hfree Lip Hfi Hn) as (s' & E & Hslot).
  exists s'. split; [exact E|].
  destruct (sys_open_created s path omode dp name _ s' Hc Hpar Hnone E
              (Nat2Z.is_nonneg n))
    as (ip' & f & Hff & Hres & Gip & Harg & Hft).
  rewrite Hfree in Hff. injection Hff as <-.
  rewrite Nat2Z.id in Harg.
  apply argfd_Some in Harg as Hx. destruct Hx as (_ & _ & _ & Hx).
  rewrite Hslot in Hx. injection Hx as <-.
  split; [apply first_free_Some in Hfree as [Hfree _]; exact Hfree|].
  split; [exact Hres|]. split; [exact Gip|].
  split; [exact Harg | exact Hft].
Qed.

Lemma sys_open_creates_witness :
  exists s',
    sys_open (Some "/d/new") (Some (Z.lor O_CREATE O_RDWR)) fs_open =
      Ok (Z.of_nat 1) s' /\
    i_type (getino fs_open 10) = 0 /\
    resolve s' "/d/new" = Some 10%nat /\
    getino s' 10 =
      Inode (i_dev (getino fs_open 3)) (S (i_ref (getino fs_open 10))) false 0
            T_FILE 0 0 1 0 "" [] [] /\
    argfd (Some (Z.of_nat 1)) s' = Ok (Some (1%nat, 1%nat)) s' /\
    ftable s' !! 1%nat =
      Some (File FD_INODE 1
              (Z.land (Z.lor O_CREATE O_RDWR) O_WRONLY =? 0)
              (negb (Z.land (Z.lor O_CREATE O_RDWR) O_WRONLY =? 0) ||
               negb (Z.land (Z.lor O_CREATE O_RDWR) O_RDWR =? 0)) 10 0).
Proof.
  apply (sys_open_creates fs_open "/d/new" (Z.lor O_CREATE O_RDWR) 3 "new"
           10 1 closed_file 1).
  - reflexivity.
  - vm_compute. discriminate.
  - vm_compute. reflexivity.
  - vm_compute. reflexivity.
  - vm_compute. reflexivity.
  - vm_compute. discriminate.
  - vm_compute. reflexivity.
  - vm_compute. reflexivity.
  - vm_compute. reflexivity.
  - exact least_free_fs_open.
Defined.

(** ** unlink *)

(** X24: unlink of a path whose last name is . or .. returns -1 and
    changes nothing but the log, where it opens and commits an empty
    transaction. *)
Theorem sys_unlink_dot_refused s path dp name :
  log_busy s = false ->
  resolve_parent s path = Some (dp, name) ->
  i_locked (getino s dp) = false ->
  namecmp name "." || namecmp name ".." = true ->
  exists s', sys_unlink (Some path) s = Ok (-1) s' /\ empty_txn s s'.
Proof.
  intros Hb Hpar Hl Hdot.
  pose proof (resolve_parent_is_dir _ _ _ _ Hpar) as Hdir.
  eexists. split.
  - unfold sys_unlink. run nameiparent_Some. run begin_trans_Ok.
    run ilock_Ok.
    rewrite Hdot. unfold unlink_bad.
    run iunlockput_Ok. run commit_trans_Ok. reflexivity.
  - unfold empty_txn.
    split; [|cbn; rewrite <- app_assoc; repeat split].
    intros j. destruct (decide (j = dp)) as [->|Hj]; gi; [|reflexivity].
    apply unlocked_roundtrip, Hl.
Qed.

Lemma sys_unlink_dot_refused_witness :
  resolve_parent fs0 "/d/.." = Some (3%nat, "..") /\
  exists s', sys_unlink (Some "/d/..") fs0 = Ok (-1) s' /\ empty_txn fs0 s'.
Proof.
  split; [vm_compute; reflexivity|].
  apply (sys_unlink_dot_refused fs0 "/d/.." 3 "..").
  - reflexivity.
  - vm_compute. reflexivity.
  - vm_compute. reflexivity.
  - vm_compute. reflexivity.
Defined.

Lemma dirscan_first name o des x off :
  dirscan name o des = Some (x, off) ->
  exists k d, des !! k = Some d /\ off = o + DESZ * Z.of_nat k /\
              de_inum d = x /\ x <> 0%nat /\
              namecmp name (de_name d) = true.
Proof.
  revert o. induction des as [|de rest IH]; intros o H; [discriminate|].
  cbn [dirscan] in H.
  destruct (Nat.eqb_spec (de_inum de) 0) as [Hz|Hz]; cbn [negb andb] in H.
  - apply IH in H as (k & d & Hk & -> & Hx & Hnz & Hc).
    exists (S k), d. repeat split; try assumption. unfold DESZ. lia.
  - destruct (namecmp name (de_name de)) eqn:Hc.
    + injection H as <- <-. exists 0%nat, de.
      repeat split; try assumption. lia.
    + apply IH in H as (k & d & Hk & -> & Hx & Hnz & Hc').
      exists (S k), d. repeat split; try assumption. unfold DESZ. lia.
Qed.

Lemma dirscan_None_intro n o des :
  (forall k d, des !! k = Some d ->
               de_inum d = 0%nat \/ namecmp n (de_name d) = false) ->
  dirscan n o des = None.
Proof.
  revert o. induction des as [|de rest IH]; intros o H; [reflexivity|].
  cbn [dirscan]. destruct (H 0%nat de eq_refl) as [Hz|Hc].
  - rewrite Hz. cbn [Nat.eqb negb andb]. apply IH.
    intros k d Hk. apply (H (S k) d Hk).
  - rewrite Hc, andb_false_r. apply IH.
    intros k d Hk. apply (H (S k) d Hk).
Qed.

Lemma dirscan_zeroed_other n o des k d :
  des !! k = Some d ->
  negb (de_inum d =? 0)%nat && namecmp n (de_name d) = false ->
  dirscan n o (<[k := zero_dirent]> des) = dirscan n o des.
Proof.
  revert o k. induction des as [|de rest IH]; intros o [|k] Hk Hc;
    try discriminate.
  - injection Hk as ->. cbn [insert list_insert dirscan]. rewrite Hc.
    reflexivity.
  - cbn [insert list_insert dirscan].
    change (list_insert k zero_dirent rest) with (<[k := zero_dirent]> rest).
    rewrite (IH _ _ Hk Hc). reflexivity.
Qed.

Lemma namecmp_trans a b c :
  namecmp a b = true -> namecmp c b = true ->
  strtake DIRSIZ c = strtake DIRSIZ a.
Proof.
  unfold namecmp. intros H1 H2.
  apply String.eqb_eq in H1, H2. congruence.
Qed.

(** The lookups in a directory after the one entry of a name has been
    zeroed: the name is gone, every other lookup is as before. *)
Lemma dirscan_zeroed name des k d :
  des !! k = Some d -> de_inum d <> 0%nat ->
  namecmp name (de_name d) = true ->
  unique_name des name ->
  dirscan name 0 (<[k := zero_dirent]> des) = None /\
  forall n, dirscan n 0 (<[k := zero_dirent]> des) = dirscan n 0 des \/
            dirscan n 0 (<[k := zero_dirent]> des) = None.
Proof.
  intros Hk Hnz Hc Hu.
  assert (Hgone : dirscan name 0 (<[k := zero_dirent]> des) = None).
  { apply dirscan_None_intro. intros j dj Hj.
    destruct (decide (j = k)) as [->|Hne].
    - rewrite list_lookup_insert_eq in Hj by (eapply lookup_lt_Some, Hk).
      injection Hj as <-. left. reflexivity.
    - rewrite list_lookup_insert_ne in Hj by congruence.
      destruct (Nat.eq_dec (de_inum dj) 0%nat) as [Hz|Hz]; [left; exact Hz|].
      destruct (namecmp name (de_name dj)) eqn:Hcj; [|right; reflexivity].
      exfalso. apply Hne. exact (Hu j k dj d Hj Hk Hz Hnz Hcj Hc). }
  split; [exact Hgone|]. intros n.
  destruct (namecmp n (de_name d)) eqn:Hn.
  - right. rewrite (dirscan_name_ext n name); [exact Hgone|].
    apply (namecmp_trans _ _ _ Hc Hn).
  - left. apply (dirscan_zeroed_other _ _ _ _ _ Hk).
    rewrite Hn. apply andb_false_r.
Qed.

Lemma walk_shrunk s s' dp k name d elems : forall cur r,
  shrunk s s' dp k ->
  i_dents (getino s dp) !! k = Some d -> de_inum d <> 0%nat ->
  namecmp name (de_name d) = true ->
  unique_name (i_dents (getino s dp)) name ->
  walk s' cur elems = Some r -> walk s cur elems = Some r.
Proof.
  induction elems as [|n rest IH]; intros cur r G Hk Hnz Hc Hu H; [exact H|].
  pose proof G as (_ & Hty & Hde & Hdp).
  cbn [walk] in *. rewrite Hty in H.
  destruct (i_type (getino s cur) =? T_DIR); [|discriminate].
  unfold dirfind in *.
  destruct (decide (cur = dp)) as [->|Hne].
  - rewrite Hdp in H.
    destruct (proj2 (dirscan_zeroed _ _ _ _ Hk Hnz Hc Hu) n) as [E|E];
      rewrite E in H; [|discriminate].
    destruct (dirscan n 0 (i_dents (getino s dp))) as [[next off]|];
      [|discriminate].
    apply (IH _ _ G Hk Hnz Hc Hu H).
  - rewrite (Hde _ Hne) in H.
    destruct (dirscan n 0 (i_dents (getino s cur))) as [[next off]|];
      [|discriminate].
    apply (IH _ _ G Hk Hnz Hc Hu H).
Qed.

Lemma resolve_shrunk s s' dp k name d path :
  shrunk s s' dp k ->
  i_dents (getino s dp) !! k = Some d -> de_inum d <> 0%nat ->
  namecmp name (de_name d) = true ->
  unique_name (i_dents (getino s dp)) name ->
  resolve_parent s path = Some (dp, name) ->
  resolve s' path = None.
Proof.
  intros G Hk Hnz Hc Hu Hpar. pose proof G as (Hcwd & Hty & Hde & Hdp).
  unfold resolve_parent in Hpar. unfold resolve.
  destruct (unsnoc (path_elems path)) as [[init n]|] eqn:Eu; [|discriminate].
  destruct (walk s (path_start s path) init) as [b|] eqn:Ew; [|discriminate].
  destruct (i_type (getino s b) =? T_DIR) eqn:Eb; [|discriminate].
  injection Hpar as -> ->.
  rewrite (unsnoc_app _ _ _ Eu), walk_app.
  assert (path_start s' path = path_start s path) as ->
    by (unfold path_start; rewrite Hcwd; reflexivity).
  destruct (walk s' (path_start s path) init) as [b|] eqn:Ew';
    [|reflexivity].
  apply (walk_shrunk _ _ _ _ _ _ _ _ _ G Hk Hnz Hc Hu) in Ew'.
  rewrite Ew in Ew'. injection Ew' as <-.
  cbn [walk]. rewrite Hty, Eb. unfold dirfind. rewrite Hdp.
  rewrite (proj1 (dirscan_zeroed _ _ _ _ Hk Hnz Hc Hu)). reflexivity.
Qed.

Lemma unlink_bad_result dp s r s' : unlink_bad dp s = Ok r s' -> r = -1.
Proof.
  unfold unlink_bad. intros H. inv_bind H as u s1 E1.
  inv_bind H as u' s2 E2. apply Ok_inv in H as [<- _]. reflexivity.
Qed.

Lemma isdirempty_from_state fuel d : forall off s e s',
  isdirempty_from fuel d off s = Ok e s' -> s' = s.
Proof.
  induction fuel as [|fuel IH]; intros off s e s' H; [discriminate|].
  cbn [isdirempty_from] in H.
  destruct (off <? i_size d); [|apply Ok_inv in H as [_ <-]; reflexivity].
  destruct (readi_de d off) as [n de].
  destruct (negb (n =? DESZ)); [discriminate|].
  destruct (negb (de_inum de =? 0)%nat);
    [apply Ok_inv in H as [_ <-]; reflexivity|].
  eapply IH, H.
Qed.

Lemma isdirempty_state ip s e s' : isdirempty ip s = Ok e s' -> s' = s.
Proof.
  unfold isdirempty. rewrite bind_gets. apply isdirempty_from_state.
Qed.

Lemma dirlookup_inv dp name s r s' :
  dirlookup dp name s = Ok r s' ->
  match r with
  | None => s' = s
  | Some (ip, off) =>
      dirfind (getino s dp) name = Some (ip, off) /\ s' = iget ip s
  end.
Proof.
  unfold dirlookup. destruct (negb _); [discriminate|].
  destruct (dirfind (getino s dp) name) as [[ip off]|]; intros H;
    apply Ok_inv in H as [<- <-]; auto.
Qed.

Lemma writei_de_inv dp off de s s' :
  writei_de dp off de s = Ok DESZ s' ->
  cwd s' = cwd s /\
  (forall j, i_type (getino s' j) = i_type (getino s j)) /\
  (forall j, i_nlink (getino s' j) = i_nlink (getino s j)) /\
  (forall j, j <> dp -> i_dents (getino s' j) = i_dents (getino s j)) /\
  i_dents (getino s' dp) =
    put_dent (Z.to_nat (off / DESZ)) de (i_dents (getino s dp)).
Proof.
  unfold writei_de. cbv zeta.
  destruct ((off <? 0) || (i_size (getino s dp) <? off)).
  { intros H. apply Ok_inv in H as [H _]. discriminate H. }
  destruct (i_size (getino s dp) <? off + DESZ).
  - rewrite bind_modify, (bind_step _ _ _ _ _ (iupdate_Ok _ _)).
    intros H. apply Ok_inv in H as [_ <-].
    split; [reflexivity|]. split; [|split; [|split]].
    + intros j. destruct (decide (j = dp)) as [->|Hj]; gi; reflexivity.
    + intros j. destruct (decide (j = dp)) as [->|Hj]; gi; reflexivity.
    + intros j Hj. gi. reflexivity.
    + gi. reflexivity.
  - intros H. apply Ok_inv in H as [_ <-].
    split; [reflexivity|]. split; [|split; [|split]].
    + intros j. destruct (decide (j = dp)) as [->|Hj]; gi; reflexivity.
    + intros j. destruct (decide (j = dp)) as [->|Hj]; gi; reflexivity.
    + intros j Hj. gi. reflexivity.
    + gi. reflexivity.
Qed.

(** X26: after an unlink that returned 0, of a name that one entry
    of its directory carries, the path resolves to nothing; the link count
    of the inode that the entry named has fallen by one (in 16-bit
    arithmetic). *)
Theorem sys_unlink_removes_name s path dp name s' :
  resolve_parent s path = Some (dp, name) ->
  unique_name (i_dents (getino s dp)) name ->
  sys_unlink (Some path) s = Ok 0 s' ->
  exists ip off,
    dirfind (getino s dp) name = Some (ip, off) /\
    ip <> dp /\
    resolve s' path = None /\
    i_nlink (getino s' ip) = wrap16 (i_nlink (getino s ip) - 1).
Proof.
  intros Hpar Hu H. unfold sys_unlink in H.
  inv_bind H as r1 s1 E1. apply nameiparent_inv in E1 as [Hpar1 S1].
  rewrite Hpar in Hpar1. subst r1.
  inv_bind H as u2 s2 E2. apply begin_trans_static in E2.
  inv_bind H as u3 s3 E3. pose proof (ilock_static _ _ _ _ E3) as S3.
  apply ilock_inv in E3 as (-> & _).
  assert (S03 : R_static s (imod dp (set_locked true) s2))
    by (etransitivity; [exact S1|]; etransitivity; eassumption).
  clear S1 E2 S3 s1.
  destruct (namecmp name "." || namecmp name "..");
    [apply unlink_bad_result in H; discriminate|].
  inv_bind H as r4 s4 E4. apply dirlookup_inv in E4.
  destruct r4 as [[ip off]|];
    [|apply unlink_bad_result in H; discriminate].
  destruct E4 as [Hfind ->].
  unfold dirfind in Hfind. rewrite (static_dents _ _ _ S03) in Hfind.
  inv_bind H as u5 s5 E5. pose proof (ilock_static _ _ _ _ E5) as S5.
  apply ilock_inv in E5 as (_ & _ & Hlip & _).
  assert (Hne : ip <> dp).
  { intros ->. revert Hlip. gi. discriminate. }
  assert (S05 : R_static s s5).
  { etransitivity; [exact S03|]. etransitivity; [apply iget_static|].
    exact S5. }
  clear S03 S5 Hlip s2.
  rewrite bind_gets in H.
  destruct (i_nlink (getino s5 ip) <? 1); [discriminate|].
  inv_bind H as e s6 E6.
  assert (s6 = s5) as ->.
  { destruct (i_type (getino s5 ip) =? T_DIR).
    - eapply isdirempty_state, E6.
    - apply Ok_inv in E6 as [_ <-]. reflexivity. }
  clear E6.
  destruct ((i_type (getino s5 ip) =? T_DIR) && (e =? 0)).
  { inv_bind H as u s7 E7. apply unlink_bad_result in H. discriminate. }
  inv_bind H as n s7 E7.
  destruct (Z.eqb_spec n DESZ) as [->|]; [|discriminate].
  cbn [negb] in H.
  apply writei_de_inv in E7 as (C7 & Ty7 & Nl7 & De7 & Dp7).
  rewrite bind_gets in H.
  inv_bind H as u8 s8 E8.
  assert (T8 : same_tree s7 s8 /\
               i_nlink (getino s8 ip) = i_nlink (getino s7 ip)).
  { destruct (i_type (getino s7 ip) =? T_DIR).
    - rewrite bind_modify, iupdate_Ok in E8.
      apply Ok_inv in E8 as [_ <-]. split.
      + split; [reflexivity|]. intros j.
        destruct (decide (j = dp)) as [->|Hj]; gi; split; reflexivity.
      + gi. reflexivity.
    - apply Ok_inv in E8 as [_ <-]. split; reflexivity. }
  destruct T8 as [T8 Nl8]. clear E8.
  inv_bind H as u9 s9 E9. apply iunlockput_static in E9.
  rewrite bind_modify in H.
  assert (S10 : R_static (imod ip nlink_dec s9) s').
  { assert (T : preserves R_static
                  (iupdate ip ;; iunlockput ip ;; commit_trans ;; ret 0))
      by static.
    eapply T, H. }
  clear H.
  assert (T9 : same_tree s7 (imod ip nlink_dec s9)).
  { etransitivity; [exact T8|].
    etransitivity; [apply R_static_same_tree, E9|].
    apply same_tree_imod. intros i. split; reflexivity. }
  assert (T' : same_tree s7 s').
  { etransitivity; [exact T9|]. apply R_static_same_tree, S10. }
  (* the entry that was found *)
  destruct (dirscan_first _ _ _ _ _ Hfind) as (k & d & Hk & -> & Hx & Hnz & Hc).
  subst ip.
  assert (Hidx : Z.to_nat ((0 + DESZ * Z.of_nat k) / DESZ) = k).
  { unfold DESZ. replace (0 + 16 * Z.of_nat k) with (Z.of_nat k * 16) by lia.
    rewrite Z.div_mul by lia. apply Nat2Z.id. }
  rewrite Hidx in Dp7. rewrite (static_dents _ _ _ S05) in Dp7.
  assert (Hklen : (k < length (i_dents (getino s dp)))%nat)
    by (eapply lookup_lt_Some, Hk).
  unfold put_dent in Dp7.
  rewrite (proj2 (Nat.ltb_lt _ _) Hklen) in Dp7.
  assert (G : shrunk s s' dp k).
  { destruct T' as [C' T']. unfold shrunk. split; [|split; [|split]].
    - rewrite C', C7. apply S05.
    - intros j. rewrite (proj1 (T' j)), Ty7. apply static_type, S05.
    - intros j Hj. rewrite (proj2 (T' j)), (De7 _ Hj).
      apply static_dents, S05.
    - rewrite (proj2 (T' dp)). exact Dp7. }
  exists (de_inum d), (0 + DESZ * Z.of_nat k).
  split; [exact Hfind|]. split; [exact Hne|]. split.
  - apply (resolve_shrunk s s' dp k name d path G Hk Hnz Hc Hu Hpar).
  - rewrite (static_nlink _ _ _ S10). gi.
    unfold nlink_dec. fields.
    rewrite (static_nlink _ _ _ E9), Nl8, Nl7, (static_nlink _ _ _ S05).
    reflexivity.
Qed.

Lemma unique_name_fs0 : unique_name (i_dents (getino fs0 6)) "x".
Proof.
  unfold unique_name.
  replace (i_dents (getino fs0 6))
    with [Dirent 6 "."; Dirent 1 ".."; Dirent 7 "x"]
    by (vm_compute; reflexivity).
  intros [|[|[|i]]] [|[|[|j]]] di dj Hi Hj _ _ Ci Cj;
    try discriminate Hi; try discriminate Hj; try reflexivity;
    injection Hi as <-; injection Hj as <-;
    first [discriminate Ci | discriminate Cj].
Qed.

Lemma sys_unlink_removes_name_witness :
  exists s',
    sys_unlink (Some "/e/x") fs0 = Ok 0 s' /\
    exists ip off,
      dirfind (getino fs0 6) "x" = Some (ip, off) /\
      ip <> 6%nat /\
      resolve s' "/e/x" = None /\
      i_nlink (getino s' ip) = wrap16 (i_nlink (getino fs0 ip) - 1).
Proof.
  eexists. split; [vm_compute; reflexivity|].
  apply (sys_unlink_removes_name fs0 "/e/x" 6 "x").
  - vm_compute. reflexivity.
  - exact unique_name_fs0.
  - vm_compute. reflexivity.
Defined.

(** ** symlink, and readlink after it *)

(** The run of sys_symlink on a name that the directory does not hold, up
    to the commit of its transaction. *)
Lemma sys_symlink_prefix cap s target path dp name ip :
  log_busy s = false ->
  resolve_parent s path = Some (dp, name) ->
  dirfind (getino s dp) name = None ->
  i_locked (getino s dp) = false ->
  DESZ * Z.of_nat (free_slot (i_dents (getino s dp))) <= i_size (getino s dp) ->
  first_free s = Some ip ->
  i_locked (getino s ip) = false ->
  exists s3,
    symlink_txn path s = Ok (Some ip) s3 /\
    sys_symlink cap (Some target) (Some path) s = symlink_store cap target ip s3 /\
    log_busy s3 = false /\
    trace s3 =
      trace s ++
      EvBegin ::
      ([EvIalloc ip T_FILE; EvIupdate ip (Dinode T_FILE 0 0 1 0 "")] ++
       dir_add_events dp (Dirent ip (strtake DIRSIZ name)) (getino s dp)) ++
      [EvCommit] /\
    getino s3 ip =
      Inode (i_dev (getino s dp)) (S (i_ref (getino s ip))) true 0 T_FILE
            0 0 1 0 "" [] [] /\
    getino s3 dp = dir_add (Dirent ip (strtake DIRSIZ name)) (getino s dp) /\
    (forall j, j <> ip -> j <> dp -> getino s3 j = getino s j) /\
    ftable s3 = ftable s /\ ofile s3 = ofile s /\ cwd s3 = cwd s /\
    ip <> dp /\ ip <> 0%nat.
Proof.
  intros Hb Hpar Hnone Ldp Hroom Hfree Lip.
  set (s1 := with_log s true [EvBegin]).
  assert (Hnd : T_FILE <> T_DIR) by (intros X; discriminate X).
  assert (Hnz : T_FILE <> 0) by (intros X; discriminate X).
  assert (Hpar1 : resolve_parent s1 path = Some (dp, name)).
  { rewrite <- Hpar. apply resolve_parent_same_tree, with_log_same_tree. }
  destruct (create_fresh_file_returns s1 path T_FILE 0 0 dp name ip
              Hnd Hnz Hpar1 Hnone Ldp Hfree Lip Hroom) as (s2 & E2).
  destruct (create_fresh_file _ _ _ _ _ _ _ _ _ Hnd Hpar1 Hnone E2)
    as (ip' & Eip & _ & Hne & Hipnz & Gip & Gdp & Got & Tr & Hproc).
  injection Eip as <-.
  destruct Hproc as (Pf & Po & Pc & _ & Pb).
  cbn [ftable ofile cwd log_busy s1 with_log] in Pf, Po, Pc, Pb.
  revert Gip Gdp Got Tr. unfold s1. gi. cbn [trace with_log].
  intros Gip Gdp Got Tr.
  exists (with_log s2 false [EvCommit]).
  split.
  { unfold symlink_txn. rewrite (bind_step _ _ _ _ _ (begin_trans_Ok _ Hb)).
    fold s1. rewrite (bind_step _ _ _ _ _ E2). reflexivity. }
  split.
  { unfold sys_symlink. rewrite (bind_step _ _ _ _ _ (begin_trans_Ok _ Hb)).
    fold s1. rewrite (bind_step _ _ _ _ _ E2). reflexivity. }
  split; [reflexivity|].
  split; [cbn [trace with_log]; rewrite Tr, <- !app_assoc; reflexivity|].
  split; [exact Gip|]. split; [exact Gdp|]. split; [exact Got|].
  split; [exact Pf|]. split; [exact Po|]. split; [exact Pc|].
  split; assumption.
Qed.

(** The run of sys_symlink when a file object is free. *)
Lemma sys_symlink_run cap s target path dp name ip fi f0 :
  log_busy s = false ->
  resolve_parent s path = Some (dp, name) ->
  dirfind (getino s dp) name = None ->
  i_locked (getino s dp) = false ->
  DESZ * Z.of_nat (free_slot (i_dents (getino s dp))) <= i_size (getino s dp) ->
  first_free s = Some ip ->
  i_locked (getino s ip) = false ->
  list_find (fun f => f_ref f = 0%nat) (ftable s) = Some (fi, f0) ->
  strlen target <= cap ->
  exists s',
    sys_symlink cap (Some target) (Some path) s = Ok 0 s' /\
    log_busy s' = false /\
    trace s' =
      trace s ++
      EvBegin ::
      ([EvIalloc ip T_FILE; EvIupdate ip (Dinode T_FILE 0 0 1 0 "")] ++
       dir_add_events dp (Dirent ip (strtake DIRSIZ name)) (getino s dp)) ++
      [EvCommit] /\
    getino s' ip =
      Inode (i_dev (getino s dp)) (S (i_ref (getino s ip))) false I_SYMLNK
            T_FILE 0 0 1 0 (safestrcpy "" target cap) [] [] /\
    getino s' dp = dir_add (Dirent ip (strtake DIRSIZ name)) (getino s dp) /\
    (forall j, j <> ip -> j <> dp -> getino s' j = getino s j) /\
    ftable s' !! fi = Some (File FD_SYMLNK 1 true false ip 0) /\
    ofile s' = ofile s /\ cwd s' = cwd s /\ ip <> dp /\ ip <> 0%nat.
Proof.
  intros Hb Hpar Hnone Ldp Hroom Hfree Lip Hfi Hlen.
  destruct (sys_symlink_prefix cap s target path dp name ip
              Hb Hpar Hnone Ldp Hroom Hfree Lip)
    as (s3 & _ & Esy & B3 & T3 & Gip & Gdp & Got & F3 & O3 & C3 & Hne & Hnz).
  apply list_find_Some in Hfi as Hfi'. destruct Hfi' as (Hfi1 & Hfr & _).
  pose proof (lookup_lt_Some _ _ _ Hfi1) as Hflen.
  eexists. split.
  { rewrite Esy. unfold symlink_store.
    erewrite bind_step by (apply filealloc_Ok; rewrite F3; exact Hfi).
    cbv beta iota.
    destruct (Z.ltb_spec cap (strlen target)); [lia|].
    rewrite bind_modify.
    erewrite bind_step
      by (apply iunlock_Ok; gi; rewrite Gip; fields;
          [congruence | reflexivity]).
    rewrite bind_modify. reflexivity. }
  split; [exact B3|]. split; [exact T3|].
  split; [gi; rewrite Gip; reflexivity|].
  split; [gi; exact Gdp|].
  split; [intros j Hj1 Hj2; gi; apply Got; assumption|].
  split.
  { cbn [ftable with_ftable imod with_icache].
    rewrite F3, list_lookup_alter_eq, list_lookup_insert_eq by exact Hflen.
    cbn [fmap option_fmap option_map symlink_file file_with_ref f_ref].
    reflexivity. }
  split; [exact O3|]. split; [exact C3|]. split; assumption.
Qed.

(** The run of sys_symlink when no file object is free. *)
Lemma sys_symlink_no_file cap s target path dp name ip :
  log_busy s = false ->
  resolve_parent s path = Some (dp, name) ->
  dirfind (getino s dp) name = None ->
  i_locked (getino s dp) = false ->
  DESZ * Z.of_nat (free_slot (i_dents (getino s dp))) <= i_size (getino s dp) ->
  first_free s = Some ip ->
  i_locked (getino s ip) = false ->
  list_find (fun f => f_ref f = 0%nat) (ftable s) = None ->
  exists s',
    sys_symlink cap (Some target) (Some path) s = Ok (-1) s' /\
    trace s' =
      trace s ++
      EvBegin ::
      ([EvIalloc ip T_FILE; EvIupdate ip (Dinode T_FILE 0 0 1 0 "")] ++
       dir_add_events dp (Dirent ip (strtake DIRSIZ name)) (getino s dp)) ++
      [EvCommit] /\
    getino s' ip =
      Inode (i_dev (getino s dp)) (i_ref (getino s ip)) false 0 T_FILE
            0 0 1 0 "" [] [] /\
    resolve s' path = Some ip.
Proof.
  intros Hb Hpar Hnone Ldp Hroom Hfree Lip Hfi.
  destruct (sys_symlink_prefix cap s target path dp name ip
              Hb Hpar Hnone Ldp Hroom Hfree Lip)
    as (s3 & _ & Esy & B3 & T3 & Gip & Gdp & Got & F3 & O3 & C3 & Hne & Hnz).
  apply first_free_Some in Hfree as [Hfree0 _].
  eexists. split.
  { rewrite Esy. unfold symlink_store.
    erewrite bind_step by (apply filealloc_None; rewrite F3; exact Hfi).
    cbv beta iota.
    erewrite bind_step
      by (apply iunlockput_Ok; rewrite Gip; fields;
          [congruence | reflexivity]).
    reflexivity. }
  split; [exact T3|].
  split; [gi; rewrite Gip; reflexivity|].
  apply (resolve_grown s _ dp ip name path); [|exact Hnz|exact Hpar].
  unfold grown. split; [exact C3|].
  split; [rewrite Hfree0; intros X; discriminate X|].
  split; [exact Hnone|]. split; [|split].
  - intros j Hj. gi. destruct (decide (j = dp)) as [->|Hjd].
    + rewrite Gdp, dir_add_type. reflexivity.
    + rewrite (Got _ Hj Hjd). reflexivity.
  - intros j Hj Hjd. gi. rewrite (Got _ Hj Hjd). reflexivity.
  - gi. rewrite Gdp, dir_add_dents. reflexivity.
Qed.

Lemma dir_add_flags de d : i_flags (dir_add de d) = i_flags d.
Proof. unfold dir_add. cbv zeta. destruct (_ <? _); reflexivity. Qed.

(** sys_readlink on a symlink whose target is no symlink. *)
Lemma sys_readlink_one_link s path buf bufsiz ip d :
  resolve s path = Some ip ->
  i_type (getino s ip) = T_FILE ->
  i_locked (getino s ip) = false ->
  is_symlnk (getino s ip) = true ->
  resolve s (i_addrs (getino s ip)) = Some d ->
  is_symlnk (getino s d) = false ->
  strlen (i_addrs (getino s ip)) < bufsiz ->
  sys_readlink (Some path) (Some buf) (Some bufsiz) s =
  Ok (strlen (i_addrs (getino s ip)), i_addrs (getino s ip))
     (iget d (iget ip s)).
Proof.
  intros Hr Ht Hl Hs Hres Hsd Hlen.
  assert (Hne : ip <> d) by (intros ->; congruence).
  unfold sys_readlink. run namei_Some. run ilock_Ok. rewrite bind_gets.
  assert (is_symlnk (getino (imod ip (set_locked true) (iget ip s)) ip)
          = true) as ->.
  { unfold is_symlnk in *. gi. exact Hs. }
  cbn [negb]. change (readlink_loop 16 ip) with
    (i <- gets (fun s => getino s ip) ;;
     r <- namei (i_addrs i) ;;
     match r with
     | None => iunlock ip ;; ret (Returned (-2))
     | Some sym_ip =>
         si <- gets (fun s => getino s sym_ip) ;;
         if is_symlnk si then
           iunlock ip ;;
           ilock sym_ip ;;
           readlink_loop 15 sym_ip
         else ret (Broke ip)
     end).
  rewrite !bind_bind, bind_gets, bind_bind. gi.
  erewrite bind_step; cycle 1.
  { apply namei_Some.
    rewrite (static_resolve s); [exact Hres|].
    etransitivity; [apply iget_static|]. apply R_static_imod. reflexivity. }
  cbv beta iota. rewrite bind_bind, bind_gets.
  assert (is_symlnk
            (getino (iget d (imod ip (set_locked true) (iget ip s))) d)
          = false) as ->.
  { unfold is_symlnk in *. gi. exact Hsd. }
  rewrite bind_ret, bind_gets. gi. rewrite Ht, Z.eqb_refl.
  assert (is_symlnk
            (set_locked true (set_ref (S (i_ref (getino s ip))) (getino s ip)))
          = true) as ->.
  { unfold is_symlnk in *. fields. exact Hs. }
  cbn [andb]. cbv zeta. fields. run iunlock_Ok. unfold ret.
  rewrite safestrcpy_fits by exact Hlen.
  rewrite (imod_iget_comm ip d) by exact Hne.
  rewrite lock_unlock_iget by exact Hl. reflexivity.
Qed.

Lemma resolve_kept s s' dp ip name p r :
  grown s s' dp ip name ->
  resolve s p = Some r -> resolve s' p = Some r.
Proof.
  intros G H. unfold resolve in *.
  assert (path_start s' p = path_start s p) as ->
    by (unfold path_start; destruct G as [-> _]; reflexivity).
  eapply walk_grown; eassumption.
Qed.

(** C7, as stated, fails: sys_symlink commits its transaction right after
    create.  On the small file system, symlink("/d", "/l") has at the
    commit an inode 10 with an empty inline buffer and without the symlink
    flag; the target and the flag are stored afterwards, in the in-memory
    inode only, and no event of the call persists them. *)
Lemma sys_symlink_stores_after_commit :
  exists s3 s',
    symlink_txn "/l" fs0 = Ok (Some 10%nat) s3 /\
    log_busy s3 = false /\ last (trace s3) = Some EvCommit /\
    i_addrs (getino s3 10) = "" /\ is_symlnk (getino s3 10) = false /\
    sys_symlink 64 (Some "/d") (Some "/l") fs0 = Ok 0 s' /\
    trace s' = trace s3 /\
    i_addrs (getino s' 10) = "/d" /\ is_symlnk (getino s' 10) = true /\
    existsb (persists_addrs 10 "/d") (trace s') = false.
Proof.
  eexists. eexists.
  split; [vm_compute; reflexivity|].
  split; [reflexivity|]. split; [reflexivity|].
  split; [reflexivity|]. split; [reflexivity|].
  split; [vm_compute; reflexivity|].
  split; [reflexivity|]. split; [reflexivity|].
  split; reflexivity.
Qed.

(** C7 (amended): symlink(target, path) on a name that the directory does
    not hold, started with no transaction open, with the directory and the
    first free inode not locked and room in the directory for the entry.
    Its one transaction holds the creation of the plain-file inode only:
    when it is committed the inline buffer is empty and the symlink flag
    is not set, and no event follows the commit.  With a free open-file
    object and a target no longer than the inline buffer the call returns
    0: the target is stored into the inline buffer of the in-memory inode
    (cut to the capacity less one) and the symlink flag is set, the size
    is left at 0, and the open-file object is of the symlink kind,
    readable and not writable.  Without a free open-file object the call
    returns -1 and leaves the committed plain file at the path, without
    target and flag. *)
Theorem sys_symlink_transaction cap s target path dp name ip :
  log_busy s = false ->
  resolve_parent s path = Some (dp, name) ->
  dirfind (getino s dp) name = None ->
  i_locked (getino s dp) = false ->
  DESZ * Z.of_nat (free_slot (i_dents (getino s dp))) <= i_size (getino s dp) ->
  first_free s = Some ip ->
  i_locked (getino s ip) = false ->
  exists s3,
    symlink_txn path s = Ok (Some ip) s3 /\
    log_busy s3 = false /\
    trace s3 =
      trace s ++
      EvBegin ::
      ([EvIalloc ip T_FILE; EvIupdate ip (Dinode T_FILE 0 0 1 0 "")] ++
       dir_add_events dp (Dirent ip (strtake DIRSIZ name)) (getino s dp)) ++
      [EvCommit] /\
    i_type (getino s3 ip) = T_FILE /\
    i_addrs (getino s3 ip) = "" /\ is_symlnk (getino s3 ip) = false /\
    sys_symlink cap (Some target) (Some path) s =
      symlink_store cap target ip s3 /\
    (forall fi f0,
       list_find (fun f => f_ref f = 0%nat) (ftable s) = Some (fi, f0) ->
       strlen target <= cap ->
       exists s',
         sys_symlink cap (Some target) (Some path) s = Ok 0 s' /\
         log_busy s' = false /\ trace s' = trace s3 /\
         i_type (getino s' ip) = T_FILE /\
         i_addrs (getino s' ip) = safestrcpy "" target cap /\
         (strlen target < cap -> i_addrs (getino s' ip) = target) /\
         is_symlnk (getino s' ip) = true /\
         i_size (getino s' ip) = 0 /\
         i_locked (getino s' ip) = false /\
         ftable s' !! fi = Some (File FD_SYMLNK 1 true false ip 0)) /\
    (list_find (fun f => f_ref f = 0%nat) (ftable s) = None ->
     exists s',
       sys_symlink cap (Some target) (Some path) s = Ok (-1) s' /\
       trace s' = trace s3 /\
       resolve s' path = Some ip /\
       i_type (getino s' ip) = T_FILE /\
       i_addrs (getino s' ip) = "" /\ is_symlnk (getino s' ip) = false).
Proof.
  intros Hb Hpar Hnone Ldp Hroom Hfree Lip.
  destruct (sys_symlink_prefix cap s target path dp name ip
              Hb Hpar Hnone Ldp Hroom Hfree Lip)
    as (s3 & Etx & Esy & B3 & T3 & G3 & _).
  exists s3. rewrite G3. cbn [i_type i_addrs].
  split; [exact Etx|]. split; [exact B3|]. split; [exact T3|].
  split; [reflexivity|]. split; [reflexivity|]. split; [reflexivity|].
  split; [exact Esy|]. split.
  - intros fi f0 Hfi Hlen.
    destruct (sys_symlink_run cap s target path dp name ip fi f0
                Hb Hpar Hnone Ldp Hroom Hfree Lip Hfi Hlen)
      as (s' & E & B' & T' & G' & _ & _ & Hf & _).
    exists s'. rewrite G'. cbn [i_type i_addrs i_size i_locked].
    split; [exact E|]. split; [exact B'|].
    split; [rewrite T', T3; reflexivity|].
    split; [reflexivity|]. split; [reflexivity|].
    split; [intros Hlt; apply safestrcpy_fits, Hlt|].
    split; [reflexivity|]. split; [reflexivity|]. split; [reflexivity|].
    exact Hf.
  - intros Hfi.
    destruct (sys_symlink_no_file cap s target path dp name ip
                Hb Hpar Hnone Ldp Hroom Hfree Lip Hfi)
      as (s' & E & T' & G' & Hres).
    exists s'. rewrite G'. cbn [i_type i_addrs].
    split; [exact E|]. split; [rewrite T', T3; reflexivity|].
    split; [exact Hres|]. repeat split.
Qed.

Lemma sys_symlink_transaction_witness :
  exists s3 s',
    symlink_txn "/l" fs0 = Ok (Some 10%nat) s3 /\
    i_addrs (getino s3 10) = "" /\ is_symlnk (getino s3 10) = false /\
    sys_symlink 64 (Some "/d") (Some "/l") fs0 = Ok 0 s' /\
    trace s' = trace s3 /\
    i_addrs (getino s' 10) = "/d" /\
    is_symlnk (getino s' 10) = true /\
    i_size (getino s' 10) = 0 /\
    ftable s' !! 0%nat = Some (File FD_SYMLNK 1 true false 10 0).
Proof.
  destruct (sys_symlink_transaction 64 fs0 "/d" "/l" 1 "l" 10)
    as (s3 & Etx & _ & _ & _ & Ha & Hs & _ & Hok & _).
  - reflexivity.
  - vm_compute. reflexivity.
  - vm_compute. reflexivity.
  - vm_compute. reflexivity.
  - vm_compute. discriminate.
  - vm_compute. reflexivity.
  - vm_compute. reflexivity.
  - destruct (Hok 0%nat closed_file) as
      (s' & E & _ & T' & _ & _ & Hfit & Hsy & Hsz & _ & Hf).
    + vm_compute. reflexivity.
    + vm_compute. discriminate.
    + exists s3, s'. split; [exact Etx|]. split; [exact Ha|].
      split; [exact Hs|]. split; [exact E|]. split; [exact T'|].
      split; [apply Hfit; vm_compute; reflexivity|].
      split; [exact Hsy|]. split; [exact Hsz | exact Hf].
Defined.

(** C6, as stated, fails: sys_readlink follows the chain of links and
    gives the target of the last one.  After symlink("/nothing", "/l"),
    whose target names no inode, readlink("/l") returns -2; after
    symlink("/a", "/m"), where /a is a link to /f, readlink("/m") gives
    "/f" and not "/a". *)
Lemma symlink_readlink_not_target :
  (exists s1 s2,
     resolve_parent fs0 "/l" = Some (1%nat, "l") /\
     dirfind (getino fs0 1) "l" = None /\
     sys_symlink 64 (Some "/nothing") (Some "/l") fs0 = Ok 0 s1 /\
     sys_readlink (Some "/l") (Some "") (Some 64) s1 = Ok (-2, "") s2) /\
  (exists s1 s2,
     resolve_parent fs0 "/m" = Some (1%nat, "m") /\
     dirfind (getino fs0 1) "m" = None /\
     sys_symlink 64 (Some "/a") (Some "/m") fs0 = Ok 0 s1 /\
     sys_readlink (Some "/m") (Some "") (Some 64) s1 = Ok (2, "/f") s2 /\
     "/f" <> "/a").
Proof.
  split.
  - eexists. eexists.
    split; [vm_compute; reflexivity|]. split; [vm_compute; reflexivity|].
    split; [vm_compute; reflexivity|].
    vm_compute. reflexivity.
  - eexists. eexists.
    split; [vm_compute; reflexivity|]. split; [vm_compute; reflexivity|].
    split; [vm_compute; reflexivity|].
    split; [vm_compute; reflexivity | discriminate].
Qed.

(** C6 (amended): let symlink(target, path) run on a name that the
    directory does not hold, under the conditions of its success (no
    transaction open, the directory and the first free inode not locked,
    room in the directory, a free open-file object), with a target that is
    shorter than the inline buffer and resolves to an inode in use that is
    no symlink.  Then symlink returns 0, and a readlink of the path
    afterwards, with a buffer longer than the target, returns the length
    of the target and puts exactly the target into the buffer. *)
Theorem symlink_then_readlink cap s target path dp name ip fi f0 t buf bufsiz :
  log_busy s = false ->
  resolve_parent s path = Some (dp, name) ->
  dirfind (getino s dp) name = None ->
  i_locked (getino s dp) = false ->
  DESZ * Z.of_nat (free_slot (i_dents (getino s dp))) <= i_size (getino s dp) ->
  first_free s = Some ip ->
  i_locked (getino s ip) = false ->
  list_find (fun f => f_ref f = 0%nat) (ftable s) = Some (fi, f0) ->
  strlen target < cap ->
  strlen target < bufsiz ->
  resolve s target = Some t ->
  i_type (getino s t) <> 0 ->
  is_symlnk (getino s t) = false ->
  exists s' s'',
    sys_symlink cap (Some target) (Some path) s = Ok 0 s' /\
    sys_readlink (Some path) (Some buf) (Some bufsiz) s' =
      Ok (strlen target, target) s''.
Proof.
  intros Hb Hpar Hnone Ldp Hroom Hfree Lip Hfi Hcap Hbuf Hres Htt Hst.
  destruct (sys_symlink_run cap s target path dp name ip fi f0
              Hb Hpar Hnone Ldp Hroom Hfree Lip Hfi ltac:(lia))
    as (s' & Esy & _ & _ & Gip & Gdp & Got & _ & _ & Hcwd & Hne & Hnz).
  rewrite safestrcpy_fits in Gip by exact Hcap.
  apply first_free_Some in Hfree as [Hfree0 _].
  assert (Hti : t <> ip) by (intros ->; contradiction).
  assert (G : grown s s' dp ip name).
  { unfold grown. split; [exact Hcwd|].
    split; [rewrite Hfree0; intros X; discriminate X|].
    split; [exact Hnone|]. split; [|split].
    - intros j Hj. destruct (decide (j = dp)) as [->|Hjd].
      + rewrite Gdp, dir_add_type. reflexivity.
      + rewrite (Got _ Hj Hjd). reflexivity.
    - intros j Hj Hjd. rewrite (Got _ Hj Hjd). reflexivity.
    - rewrite Gdp, dir_add_dents. reflexivity. }
  assert (Hst' : is_symlnk (getino s' t) = false).
  { destruct (decide (t = dp)) as [->|Htd].
    - unfold is_symlnk in *. rewrite Gdp, dir_add_flags. exact Hst.
    - rewrite (Got _ Hti Htd). exact Hst. }
  exists s', (iget t (iget ip s')). split; [exact Esy|].
  rewrite (sys_readlink_one_link s' path buf bufsiz ip t).
  - rewrite Gip. reflexivity.
  - apply (resolve_grown s s' dp ip name path G Hnz Hpar).
  - rewrite Gip. reflexivity.
  - rewrite Gip. reflexivity.
  - rewrite Gip. reflexivity.
  - rewrite Gip. cbn [i_addrs]. apply (resolve_kept s s' dp ip name _ _ G Hres).
  - exact Hst'.
  - rewrite Gip. cbn [i_addrs]. exact Hbuf.
Qed.

Lemma symlink_then_readlink_witness :
  exists s' s'',
    sys_symlink 64 (Some "/e/x") (Some "/d/l") fs0 = Ok 0 s' /\
    sys_readlink (Some "/d/l") (Some "") (Some 32) s' =
      Ok (strlen "/e/x", "/e/x") s''.
Proof.
  apply (symlink_then_readlink 64 fs0 "/e/x" "/d/l" 3 "l" 10 0 closed_file 7).
  - reflexivity.
  - vm_compute. reflexivity.
  - vm_compute. reflexivity.
  - vm_compute. reflexivity.
  - vm_compute. discriminate.
  - vm_compute. reflexivity.
  - vm_compute. reflexivity.
  - vm_compute. reflexivity.
  - vm_compute. reflexivity.
  - vm_compute. reflexivity.
  - vm_compute. reflexivity.
  - vm_compute. discriminate.
  - vm_compute. reflexivity.
Defined.
